(** * The legacy compatibility shim of nng (src/nng_compat.c) and the
      one-time initializer and timed wait of its Windows platform layer
      (src/platform/windows/win_thread.c), embedded in Rocq.

    The shim is a thin translation layer: every function validates its
    arguments, calls a few primitives of the native library and maps the
    native error to a POSIX code stored in [errno].  The embedding keeps
    that shape: a state-and-failure monad over a [world] that holds
    [errno], the native message heap, the caller's memory, the answers
    the native layer will give, and the log of native calls made. *)

From stdpp Require Import gmap list strings.
From Stdlib Require Import ZArith Lia.

Local Open Scope Z_scope.

(** ** The C data model

    [int] is 32 bits wide, [size_t] and pointers 64 bits (LP64 and
    LLP64 alike); multi-byte objects are stored little-endian. *)

Definition sizeof_int : Z := 4.
Definition sizeof_ptr : Z := 8.
Definition sizeof_uint64 : Z := 8.
Definition SIZE_MOD : Z := 2 ^ 64.

(** [size_t] arithmetic wraps around. *)
Definition size_add (a b : Z) : Z := (a + b) mod SIZE_MOD.

(** Conversion of an integer to [int]: two's complement wrap-around. *)
Definition to_signed (bits : Z) (z : Z) : Z :=
  let m := z mod 2 ^ bits in
  if m <? 2 ^ (bits - 1) then m else m - 2 ^ bits.

Definition to_int (z : Z) : Z := to_signed 32 z.

(** A byte is a [Z] in [0, 256). *)
Fixpoint le_bytes (n : nat) (v : Z) : list Z :=
  match n with
  | O => []
  | S n' => v mod 256 :: le_bytes n' (v / 256)
  end.

Fixpoint le_value (bs : list Z) : Z :=
  match bs with
  | [] => 0
  | b :: bs' => b + 256 * le_value bs'
  end.

(** ** Constants of the headers

    nng.h, nng_compat.h and errno.h are not part of the sources at
    hand, so the values of their constants are parameters. *)

Class nng_h := {
  NNG_EINTR : Z;
  NNG_ENOMEM : Z;
  NNG_EINVAL : Z;
  NNG_EBUSY : Z;
  NNG_ETIMEDOUT : Z;
  NNG_ECONNREFUSED : Z;
  NNG_ECLOSED : Z;
  NNG_EAGAIN : Z;
  NNG_ENOTSUP : Z;
  NNG_EADDRINUSE : Z;
  NNG_ESTATE : Z;
  NNG_ENOENT : Z;
  NNG_EPROTO : Z;
  NNG_EUNREACHABLE : Z;
  NNG_EADDRINVAL : Z;
  NNG_EPERM : Z;
  NNG_EMSGSIZE : Z;
  NNG_ECONNABORTED : Z;
  NNG_ECONNRESET : Z;
  NNG_FLAG_NONBLOCK : Z;
  NNG_OPT_LINGER : Z;
  NNG_OPT_SNDBUF : Z;
  NNG_OPT_RCVBUF : Z;
  NNG_OPT_RECONN_TIME : Z;
  NNG_OPT_RECONN_MAXTIME : Z;
  NNG_OPT_SNDFD : Z;
  NNG_OPT_RCVFD : Z;
  NNG_OPT_RCVMAXSZ : Z;
  NNG_OPT_MAXTTL : Z;
  NNG_OPT_RCVTIMEO : Z;
  NNG_OPT_SNDTIMEO : Z;
  NNG_OPT_RESENDTIME : Z;
  NNG_OPT_SUBSCRIBE : Z;
  NNG_OPT_UNSUBSCRIBE : Z;
  NNG_OPT_SURVEYTIME : Z
}.

Class errno_h := {
  EINTR : Z;
  ENOMEM : Z;
  EINVAL : Z;
  EBUSY : Z;
  ETIMEDOUT : Z;
  ECONNREFUSED : Z;
  EBADF : Z;
  EAGAIN : Z;
  ENOTSUP : Z;
  EADDRINUSE : Z;
  EFSM : Z;
  ENOENT : Z;
  EPROTO : Z;
  EHOSTUNREACH : Z;
  EADDRNOTAVAIL : Z;
  EACCES : Z;
  EMSGSIZE : Z;
  ECONNABORTED : Z;
  ECONNRESET : Z;
  EIO : Z;
  ENOPROTOOPT : Z
}.

Class nng_compat_h := {
  NN_MSG : Z;
  NN_DONTWAIT : Z;
  NN_SOL_SOCKET : Z;
  NN_REQ : Z;
  NN_SUB : Z;
  NN_SURVEYOR : Z;
  NN_LINGER : Z;
  NN_SNDBUF : Z;
  NN_RCVBUF : Z;
  NN_RECONNECT_IVL : Z;
  NN_RECONNECT_IVL_MAX : Z;
  NN_SNDFD : Z;
  NN_RCVFD : Z;
  NN_RCVMAXSIZE : Z;
  NN_MAXTTL : Z;
  NN_RCVTIMEO : Z;
  NN_SNDTIMEO : Z;
  NN_REQ_RESEND_IVL : Z;
  NN_SUB_SUBSCRIBE : Z;
  NN_SUB_UNSUBSCRIBE : Z;
  NN_SURVEY_DEADLINE : Z;
  PROTO_SP : Z;
  SP_HDR : Z;
  (** [NN_CMSG_SPACE (len)]: room a control record with [len] bytes of
      data takes. *)
  NN_CMSG_SPACE : Z -> Z
}.

(** ** Memory

    Pointers are a block and an offset.  A message body lives in a
    block of its own, named after the message; so does its header.  A
    stored pointer occupies [sizeof_ptr] cells, each holding one
    fragment of it, so that a pointer written to memory can be read
    back and nothing else can be read as a pointer. *)

Definition handle := positive.
Bind Scope positive_scope with handle.

Inductive block :=
  | UserBlk (b : positive)
  | BodyBlk (h : handle)
  | HeaderBlk (h : handle).

Inductive pointer :=
  | Null
  | MsgPtr (h : handle)              (* an [nng_msg *] *)
  | Ptr (b : block) (off : Z).       (* a [void *] or [char *] *)

Inductive memval :=
  | Byte (z : Z)
  | PtrFrag (p : pointer) (i : nat).

Global Instance block_eq_dec : EqDecision block.
Proof. solve_decision. Defined.
Global Instance pointer_eq_dec : EqDecision pointer.
Proof. solve_decision. Defined.
Global Instance memval_eq_dec : EqDecision memval.
Proof. solve_decision. Defined.

(** The cells a pointer occupies in memory, and the way back. *)
Definition ptr_cells (p : pointer) : list memval :=
  PtrFrag p <$> seq 0 (Z.to_nat sizeof_ptr).

Definition cells_ptr (cs : list memval) : option pointer :=
  match cs with
  | PtrFrag p 0 :: _ => if decide (cs = ptr_cells p) then Some p else None
  | _ => None
  end.

Definition bytes_cells (bs : list Z) : list memval := Byte <$> bs.

(** Pointer arithmetic on [char *]. *)
Definition ptr_add (p : pointer) (n : Z) : pointer :=
  match p with
  | Ptr b off => Ptr b (off + n)
  | _ => p
  end.

(** Reading [n] cells at offset [off] of a block's contents, and
    overwriting the cells at [off] with [data]; both are undefined
    outside the block. *)
Definition rd (off n : Z) (cs : list memval) : option (list memval) :=
  if (0 <=? off) && (0 <=? n) && (off + n <=? Z.of_nat (length cs))
  then Some (take (Z.to_nat n) (drop (Z.to_nat off) cs))
  else None.

Definition wr (off : Z) (data : list memval) (cs : list memval)
  : option (list memval) :=
  if (0 <=? off) && (off + Z.of_nat (length data) <=? Z.of_nat (length cs))
  then Some (take (Z.to_nat off) cs ++ data
             ++ drop (Z.to_nat off + length data) cs)
  else None.

(** ** The native layer *)

(** Modelled from the spec: the native message object (nng_msg), not
    in src/.  It has a header region and a body region; the body is the
    tail of a chunk of memory, and what precedes it in the chunk is
    room: trimming moves the start of the body forward and leaves the
    prefix in place, which is what nn_allocmsg counts on. *)
Record nng_msg := {
  msg_header : list memval;
  msg_room : list memval;
  msg_body : list memval
}.

Definition msg_chunk (m : nng_msg) : list memval := msg_room m ++ msg_body m.

Definition msg_start (m : nng_msg) : nat := length (msg_room m).

Definition msg_len (m : nng_msg) : Z := Z.of_nat (length (msg_body m)).

(** The native calls that change something, as they are logged; a
    fallible call is logged with its return code [rv]. *)
Inductive event :=
  | E_msg_alloc (sz : Z) (rv : Z)
  | E_msg_free (h : handle)
  | E_msg_realloc (h : handle) (sz : Z) (rv : Z)
  | E_msg_trim (h : handle) (n : Z)
  | E_msg_prepend (h : handle) (rv : Z)
  | E_msg_append_header (h : handle) (rv : Z)
  | E_recvmsg (s flags : Z) (rv : Z)
  | E_sendmsg (s : Z) (h : handle) (flags : Z) (rv : Z)
  | E_setopt (s opt : Z) (val : list Z) (sz : Z) (rv : Z).

Record world := {
  w_errno : Z;
  (** the live native messages *)
  w_heap : gmap handle nng_msg;
  (** the caller's memory *)
  w_mem : gmap positive (list memval);
  (** the return codes of the coming fallible native calls, in order;
      once exhausted, calls succeed *)
  w_rvs : list Z;
  (** the messages the sockets will deliver, in order *)
  w_inbox : list nng_msg;
  (** the native calls made so far, oldest first *)
  w_log : list event
}.

Definition set_errno (e : Z) (w : world) : world :=
  {| w_errno := e; w_heap := w_heap w; w_mem := w_mem w;
     w_rvs := w_rvs w; w_inbox := w_inbox w; w_log := w_log w |}.

Definition set_heap (hp : gmap handle nng_msg) (w : world) : world :=
  {| w_errno := w_errno w; w_heap := hp; w_mem := w_mem w;
     w_rvs := w_rvs w; w_inbox := w_inbox w; w_log := w_log w |}.

Definition set_mem (m : gmap positive (list memval)) (w : world) : world :=
  {| w_errno := w_errno w; w_heap := w_heap w; w_mem := m;
     w_rvs := w_rvs w; w_inbox := w_inbox w; w_log := w_log w |}.

Definition set_rvs (r : list Z) (w : world) : world :=
  {| w_errno := w_errno w; w_heap := w_heap w; w_mem := w_mem w;
     w_rvs := r; w_inbox := w_inbox w; w_log := w_log w |}.

Definition set_inbox (i : list nng_msg) (w : world) : world :=
  {| w_errno := w_errno w; w_heap := w_heap w; w_mem := w_mem w;
     w_rvs := w_rvs w; w_inbox := i; w_log := w_log w |}.

Definition set_log (l : list event) (w : world) : world :=
  {| w_errno := w_errno w; w_heap := w_heap w; w_mem := w_mem w;
     w_rvs := w_rvs w; w_inbox := w_inbox w; w_log := l |}.

(** A computation runs on a world and yields a value and a world, or
    nothing when the C program's behaviour is undefined (an access
    outside a block, the use of a message that is not live). *)
Definition M (A : Type) : Type := world -> option (A * world).

Global Instance M_ret : MRet M := fun A a w => Some (a, w).
Global Instance M_bind : MBind M := fun A B k m w =>
  match m w with
  | Some (a, w1) => k a w1
  | None => None
  end.

Definition undefined {A} : M A := fun _ => None.
Definition modify (f : world -> world) : M unit := fun w => Some (tt, f w).
Definition lift {A} (o : option A) : M A :=
  fun w => match o with Some a => Some (a, w) | None => None end.

Definition log (e : event) : M unit :=
  modify (fun w => set_log (w_log w ++ [e]) w).

(** The answer of the native layer to the next fallible call. *)
Definition next_rv : M Z := fun w =>
  match w_rvs w with
  | [] => Some (0, w)
  | rv :: rest => Some (rv, set_rvs rest w)
  end.

Definition live (h : handle) : M nng_msg :=
  fun w => match w_heap w !! h with Some m => Some (m, w) | None => None end.

Definition put_msg (h : handle) (m : nng_msg) : M unit :=
  modify (fun w => set_heap (<[h := m]> (w_heap w)) w).

(** What a block holds. *)
Definition block_cells (b : block) (w : world) : option (list memval) :=
  match b with
  | UserBlk u => w_mem w !! u
  | BodyBlk h => msg_chunk <$> w_heap w !! h
  | HeaderBlk h => msg_header <$> w_heap w !! h
  end.

Definition set_block (b : block) (cs : list memval) (w : world) : world :=
  match b with
  | UserBlk u => set_mem (<[u := cs]> (w_mem w)) w
  | BodyBlk h =>
      match w_heap w !! h with
      | Some m =>
          set_heap (<[h := {| msg_header := msg_header m;
                              msg_room := take (msg_start m) cs;
                              msg_body := drop (msg_start m) cs |}]>
                      (w_heap w)) w
      | None => w
      end
  | HeaderBlk h =>
      match w_heap w !! h with
      | Some m =>
          set_heap (<[h := {| msg_header := cs; msg_room := msg_room m;
                              msg_body := msg_body m |}]> (w_heap w)) w
      | None => w
      end
  end.

Definition load (p : pointer) (n : Z) : M (list memval) := fun w =>
  match p with
  | Ptr b off =>
      match block_cells b w with
      | Some cs =>
          match rd off n cs with
          | Some data => Some (data, w)
          | None => None
          end
      | None => None
      end
  | _ => None
  end.

Definition store (p : pointer) (data : list memval) : M unit := fun w =>
  match p with
  | Ptr b off =>
      match block_cells b w with
      | Some cs =>
          match wr off data cs with
          | Some cs' => Some (tt, set_block b cs' w)
          | None => None
          end
      | None => None
      end
  | _ => None
  end.

Definition load_ptr (p : pointer) : M pointer :=
  cs ← load p sizeof_ptr; lift (cells_ptr cs).

Definition store_ptr (p : pointer) (v : pointer) : M unit :=
  store p (ptr_cells v).

(** [memcpy (dst, src, n)] *)
Definition memcpy (dst src : pointer) (n : Z) : M unit :=
  cs ← load src n; store dst cs.

Definition zeros (n : Z) : list memval := replicate (Z.to_nat n) (Byte 0).

(** ** Notions used to state the properties *)

(** The answer the native layer gives to the next fallible call, and
    the world once it has given it. *)
Definition answer (w : world) : Z :=
  match w_rvs w with [] => 0 | rv :: _ => rv end.

Definition answered (w : world) : world := set_rvs (tail (w_rvs w)) w.

(** The world with one more native call in its log. *)
Definition logged (e : event) (w : world) : world :=
  set_log (w_log w ++ [e]) w.

(** A message as nng_msg_alloc makes it. *)
Definition fresh_msg (sz : Z) : nng_msg :=
  {| msg_header := []; msg_room := []; msg_body := zeros sz |}.

(** A message after nng_msg_realloc to [sz] bytes. *)
Definition resized (m : nng_msg) (sz : Z) : nng_msg :=
  {| msg_header := msg_header m; msg_room := msg_room m;
     msg_body := take (Z.to_nat sz) (msg_body m ++ zeros sz) |}.

(** The envelope made of message [m]: the handle stamped where the body
    started, and the body starting after it. *)
Definition envelope (msg : handle) (m : nng_msg) : nng_msg :=
  {| msg_header := msg_header m;
     msg_room := msg_room m ++ ptr_cells (MsgPtr msg);
     msg_body := drop (Z.to_nat sizeof_ptr) (msg_body m) |}.

(** The message the next successful receive delivers, and the world
    once it has been delivered. *)
Definition arriving (w : world) : nng_msg :=
  match w_inbox w with
  | [] => {| msg_header := []; msg_room := []; msg_body := [] |}
  | m :: _ => m
  end.

Definition arrived (w : world) : world := set_inbox (tail (w_inbox w)) w.

(** [data] written at [p] in the caller's memory. *)
Definition poke (p : pointer) (data : list memval)
    (mem : gmap positive (list memval)) : gmap positive (list memval) :=
  match p with
  | Ptr (UserBlk b) off =>
      match mem !! b with
      | Some cs =>
          match wr off data cs with
          | Some cs' => <[b := cs']> mem
          | None => mem
          end
      | None => mem
      end
  | _ => mem
  end.

(** ** Notions used to state the properties of nn_sendmsg *)

(** Two worlds that differ at most in one message: the rest of the heap
    and the caller's memory are the same. *)
Definition same_but (msg : handle) (w w1 : world) : Prop :=
  w_mem w1 = w_mem w /\
  (forall h, h <> msg -> w_heap w1 !! h = w_heap w !! h).

(** [cm'] is [cm] up to its header: the hidden handle and the body are
    the same. *)
Definition intact (cm cm' : nng_msg) : Prop :=
  msg_room cm' = msg_room cm /\ msg_body cm' = msg_body cm.

(** From [w] to [w2] the native calls [evs] were made and message [c]
    was left intact. *)
Definition harmless (c : handle) (evs : list event) (w w2 : world) : Prop :=
  w_log w2 = w_log w ++ evs /\
  forall cm, w_heap w !! c = Some cm ->
    exists cm', w_heap w2 !! c = Some cm' /\ intact cm cm'.

(** The native calls [evs] do not free [c] and none is a successful
    send. *)
Definition not_released (c : handle) (evs : list event) : Prop :=
  (E_msg_free c ∉ evs) /\ (forall s h f, E_sendmsg s h f 0 ∉ evs).

(** The native calls [evs] end with a successful send on socket [s]
    followed at once by the release of [c]; before that, [c] is not
    freed and nothing is sent. *)
Definition released_after_send (c : handle) (s : Z) (evs : list event)
  : Prop :=
  exists evs0 msg f,
    evs = evs0 ++ [E_sendmsg s msg f 0; E_msg_free c] /\
    (E_msg_free c ∉ evs0) /\
    (forall s' h f' rv, E_sendmsg s' h f' rv ∉ evs0).

Section Shim.

Context `{!nng_h, !errno_h, !nng_compat_h}.

(** *** The native primitives the shim consumes

    Their declarations are in nng.h and their implementation in the
    core of the library, neither of which is in src/; each is modelled
    from the list of consumed primitives the spec gives.  A fallible
    primitive asks the world for its answer, logs the call and acts
    only when the answer is success. *)

(** What a primitive with an out-parameter [nng_msg **] yields: a
    return code other than zero, or the message. *)
Inductive result :=
  | Err (rv : Z)
  | Ok (msg : handle).

(** Modelled from the spec: the native allocator, not in src/; a new
    message gets a handle that no live message has. *)
Definition new_msg (m : nng_msg) : M handle := fun w =>
  let h := fresh (dom (w_heap w)) in
  Some (h, set_heap (<[h := m]> (w_heap w)) w).

(** Modelled from the spec: nng_msg_alloc, not in src/
    ("allocate (&msg, size)"); the body is [sz] zero bytes. *)
Definition nng_msg_alloc (sz : Z) : M result :=
  rv ← next_rv;
  log (E_msg_alloc sz rv);;
  if rv =? 0 then
    h ← new_msg {| msg_header := []; msg_room := []; msg_body := zeros sz |};
    mret (Ok h)
  else mret (Err rv).

(** Modelled from the spec: nng_msg_free, not in src/ ("free (msg)");
    freeing a message that is not live is undefined. *)
Definition nng_msg_free (msg : handle) : M unit :=
  log (E_msg_free msg);;
  _ ← live msg;
  modify (fun w => set_heap (delete msg (w_heap w)) w).

(** Modelled from the spec: nng_msg_realloc, not in src/
    ("resize (msg, size)"): the body becomes [sz] bytes long, cut or
    padded with zero bytes at its end; on failure the message is
    untouched. *)
Definition nng_msg_realloc (msg : handle) (sz : Z) : M Z :=
  m ← live msg;
  rv ← next_rv;
  log (E_msg_realloc msg sz rv);;
  if rv =? 0 then
    put_msg msg {| msg_header := msg_header m;
                   msg_room := msg_room m;
                   msg_body := take (Z.to_nat sz) (msg_body m ++ zeros sz) |};;
    mret 0
  else mret rv.

(** Modelled from the spec: nng_msg_body, not in src/
    ("body-pointer (msg)"). *)
Definition nng_msg_body (msg : handle) : M pointer :=
  m ← live msg; mret (Ptr (BodyBlk msg) (Z.of_nat (msg_start m))).

(** Modelled from the spec: nng_msg_len, not in src/
    ("body-length (msg)"). *)
Definition nng_msg_len (msg : handle) : M Z :=
  m ← live msg; mret (msg_len m).

(** Modelled from the spec: nng_msg_header, not in src/
    ("header-pointer (msg)"). *)
Definition nng_msg_header (msg : handle) : M pointer :=
  _ ← live msg; mret (Ptr (HeaderBlk msg) 0).

(** Modelled from the spec: nng_msg_header_len, not in src/
    ("header-length (msg)"). *)
Definition nng_msg_header_len (msg : handle) : M Z :=
  m ← live msg; mret (Z.of_nat (length (msg_header m))).

(** Modelled from the spec: nng_msg_trim, not in src/
    ("trim-bytes (msg, n)"): the body starts [n] bytes later and the
    bytes trimmed stay where they are; trimming more than the body has
    is refused. *)
Definition nng_msg_trim (msg : handle) (n : Z) : M Z :=
  log (E_msg_trim msg n);;
  m ← live msg;
  if msg_len m <? n then mret NNG_EINVAL
  else
    put_msg msg {| msg_header := msg_header m;
                   msg_room := msg_room m ++ take (Z.to_nat n) (msg_body m);
                   msg_body := drop (Z.to_nat n) (msg_body m) |};;
    mret 0.

(** Modelled from the spec: nng_msg_prepend, not in src/
    ("prepend-bytes (msg, data, n)"): [data] is written before the
    body, over the end of the room when there is some. *)
Definition nng_msg_prepend (msg : handle) (data : list memval) : M Z :=
  m ← live msg;
  rv ← next_rv;
  log (E_msg_prepend msg rv);;
  if rv =? 0 then
    put_msg msg {| msg_header := msg_header m;
                   msg_room := take (msg_start m - length data) (msg_room m);
                   msg_body := data ++ msg_body m |};;
    mret 0
  else mret rv.

(** Modelled from the spec: nng_msg_append_header, not in src/
    ("append-header-bytes (msg, data, n)"). *)
Definition nng_msg_append_header (msg : handle) (src : pointer) (n : Z)
  : M Z :=
  m ← live msg;
  rv ← next_rv;
  log (E_msg_append_header msg rv);;
  if rv =? 0 then
    data ← load src n;
    m ← live msg;
    put_msg msg {| msg_header := msg_header m ++ data;
                   msg_room := msg_room m; msg_body := msg_body m |};;
    mret 0
  else mret rv.

(** Modelled from the spec: what a socket delivers, not in src/: the
    next message of the inbox, or an empty message when there is
    none. *)
Definition arrival : M nng_msg := fun w =>
  match w_inbox w with
  | [] => Some ({| msg_header := []; msg_room := []; msg_body := [] |}, w)
  | m :: rest => Some (m, set_inbox rest w)
  end.

(** Modelled from the spec: nng_recvmsg, not in src/
    ("receive-message (handle, &msg, flags)"). *)
Definition nng_recvmsg (s flags : Z) : M result :=
  rv ← next_rv;
  log (E_recvmsg s flags rv);;
  if rv =? 0 then
    m ← arrival;
    h ← new_msg m;
    mret (Ok h)
  else mret (Err rv).

(** Modelled from the spec: nng_sendmsg, not in src/
    ("send-message (handle, msg, flags)").  A message sent belongs to
    the native layer; a message whose send failed stays with the
    caller. *)
Definition nng_sendmsg (s : Z) (msg : handle) (flags : Z) : M Z :=
  _ ← live msg;
  rv ← next_rv;
  log (E_sendmsg s msg flags rv);;
  if rv =? 0 then
    modify (fun w => set_heap (delete msg (w_heap w)) w);;
    mret 0
  else mret rv.

(** Modelled from the spec: nng_setopt, not in src/
    ("set-option (handle, id, valuePtr, valueSize)"); [valp] is the
    object the value pointer points to. *)
Definition nng_setopt (s opt : Z) (valp : list Z) (sz : Z) : M Z :=
  rv ← next_rv;
  log (E_setopt s opt valp sz rv);;
  mret rv.

(** The [nng_msg *] stored at [p]. *)
Definition load_handle (p : pointer) : M handle :=
  v ← load_ptr p;
  match v with
  | MsgPtr h => mret h
  | _ => undefined
  end.

(** ** The error table (nng_compat.c, lines 19-81) *)

Record nn_errno_entry := {
  nerr : Z;
  perr : Z
}.

Definition nn_errnos : list nn_errno_entry := [
  {| nerr := NNG_EINTR;        perr := EINTR |};
  {| nerr := NNG_ENOMEM;       perr := ENOMEM |};
  {| nerr := NNG_EINVAL;       perr := EINVAL |};
  {| nerr := NNG_EBUSY;        perr := EBUSY |};
  {| nerr := NNG_ETIMEDOUT;    perr := ETIMEDOUT |};
  {| nerr := NNG_ECONNREFUSED; perr := ECONNREFUSED |};
  {| nerr := NNG_ECLOSED;      perr := EBADF |};
  {| nerr := NNG_EAGAIN;       perr := EAGAIN |};
  {| nerr := NNG_ENOTSUP;      perr := ENOTSUP |};
  {| nerr := NNG_EADDRINUSE;   perr := EADDRINUSE |};
  {| nerr := NNG_ESTATE;       perr := EFSM |};
  {| nerr := NNG_ENOENT;       perr := ENOENT |};
  {| nerr := NNG_EPROTO;       perr := EPROTO |};
  {| nerr := NNG_EUNREACHABLE; perr := EHOSTUNREACH |};
  {| nerr := NNG_EADDRINVAL;   perr := EADDRNOTAVAIL |};
  {| nerr := NNG_EPERM;        perr := EACCES |};
  {| nerr := NNG_EMSGSIZE;     perr := EMSGSIZE |};
  {| nerr := NNG_ECONNABORTED; perr := ECONNABORTED |};
  {| nerr := NNG_ECONNRESET;   perr := ECONNRESET |};
  {| nerr := 0;                perr := 0 |}
].

(** What nn_strerror returns: the native library's text for a native
    code, a string literal, or the text formatted into the static
    buffer. *)
Inductive text :=
  | nng_strerror (nerr : Z)
  | literal (s : string)
  | snprintf_d (fmt : string) (arg : Z).

(** [for (i = 0; nn_errnos[i].perr != 0; i++)] with the return from
    inside the loop; [None] when the loop ends without one. *)
Fixpoint strerror_loop (tbl : list nn_errno_entry) (err : Z) : option text :=
  match tbl with
  | [] => None
  | e :: tbl' =>
      if perr e =? 0 then None
      else if perr e =? err then Some (nng_strerror (nerr e))
      else strerror_loop tbl' err
  end.

Definition nn_strerror (err : Z) : text :=
  match strerror_loop nn_errnos err with
  | Some t => t
  | None =>
      if err =? EIO then literal "Unknown I/O error"
      else snprintf_d "Unknown error %d" err
  end.

(** [for (i = 0; nn_errnos[i].nerr != 0; i++)]; the value is the one
    assigned to [errno] inside the loop. *)
Fixpoint seterror_loop (tbl : list nn_errno_entry) (err : Z) : option Z :=
  match tbl with
  | [] => None
  | e :: tbl' =>
      if nerr e =? 0 then None
      else if nerr e =? err then Some (perr e)
      else seterror_loop tbl' err
  end.

Definition nn_seterror (err : Z) : M unit :=
  match seterror_loop nn_errnos err with
  | Some p => modify (set_errno p)
  | None => modify (set_errno EIO)
  end.

Definition set_errno_to (e : Z) : M unit := modify (set_errno e).

(** What the headers guarantee about the constants: the native codes
    are the members of one enumeration and the POSIX codes are pairwise
    distinct, and none of them is zero, the value that ends the
    table. *)
Definition codes_distinct : Prop :=
  NoDup (nerr <$> nn_errnos) /\ NoDup (perr <$> nn_errnos).

(** ** Dynamic messages (lines 177-245) *)

Definition nn_allocmsg (size : Z) (type : Z) : M pointer :=
  if negb (type =? 0) || (size <? 1) || (size_add size sizeof_ptr <? size)
  then
    nn_seterror NNG_EINVAL;;
    mret Null
  else
    r ← nng_msg_alloc (size_add size sizeof_ptr);
    match r with
    | Err rv =>
        nn_seterror rv;;
        mret Null
    | Ok msg =>
        b ← nng_msg_body msg;
        store_ptr b (MsgPtr msg);;
        _ ← nng_msg_trim msg sizeof_ptr;
        nng_msg_body msg
    end.

Definition nn_freemsg (ptr : pointer) : M Z :=
  msg ← load_handle (ptr_add ptr (- sizeof_ptr));
  nng_msg_free msg;;
  mret 0.

Definition nn_reallocmsg (ptr : pointer) (len : Z) : M pointer :=
  if size_add len sizeof_ptr <? len then
    nn_seterror NNG_EINVAL;;
    mret Null
  else
    msg ← load_handle (ptr_add ptr (- sizeof_ptr));
    rv ← nng_msg_realloc msg (size_add len sizeof_ptr);
    if negb (rv =? 0) then
      nn_seterror rv;;
      mret Null
    else
      b ← nng_msg_body msg;
      store_ptr b (MsgPtr msg);;
      _ ← nng_msg_trim msg sizeof_ptr;
      nng_msg_body msg.

Definition nn_flags (flags : Z) : M Z :=
  if flags =? 0 then mret 0
  else if flags =? NN_DONTWAIT then mret NNG_FLAG_NONBLOCK
  else
    nn_seterror NNG_EINVAL;;
    mret (-1).

(** ** Scatter/gather descriptors *)

Record nn_iovec := {
  iov_base : pointer;
  iov_len : Z
}.

(** [msg_iov] is the array the descriptor points to; [msg_iovlen] is
    the count the caller gives, an [int]. *)
Record nn_msghdr := {
  msg_iov : list nn_iovec;
  msg_iovlen : Z;
  msg_control : pointer;
  msg_controllen : Z
}.

(** Modelled from the spec: struct nn_cmsghdr of nng_compat.h, not in
    src/.  The record carries the length, the level and the type of
    the ancillary header; it is laid out as a [size_t] followed by two
    [int]s. *)
Definition sizeof_cmsghdr : Z := 16.

(** Modelled from the spec: the fields of struct nn_cmsghdr, not in
    src/, as they lie in memory. *)
Definition cmsghdr_cells (cmsg_len cmsg_level cmsg_type : Z) : list memval :=
  bytes_cells (le_bytes 8 cmsg_len ++ le_bytes 4 cmsg_level
               ++ le_bytes 4 cmsg_type).

(** Modelled from the spec: NN_CMSG_DATA of nng_compat.h, not in src/:
    the data follows the record. *)
Definition NN_CMSG_DATA (cmsg : pointer) : pointer :=
  ptr_add cmsg sizeof_cmsghdr.

(** A buffer of the caller: [iov_len] cells inside a block of the
    caller's memory. *)
Definition user_buffer (mem : gmap positive (list memval)) (v : nn_iovec)
  : Prop :=
  match iov_base v with
  | Ptr (UserBlk b) off =>
      match mem !! b with
      | Some cs =>
          0 <= off /\ 0 <= iov_len v /\
          off + iov_len v <= Z.of_nat (length cs)
      | None => False
      end
  | _ => False
  end.

(** The block of the caller's memory a buffer lies in. *)
Definition buffer_block (v : nn_iovec) : option positive :=
  match iov_base v with
  | Ptr (UserBlk b) _ => Some b
  | _ => None
  end.

(** A buffer that can be filled and does not ask for a dynamic
    message. *)
Definition fixed_buffer (mem : gmap positive (list memval)) (v : nn_iovec)
  : Prop := user_buffer mem v /\ iov_len v <> NN_MSG.

(** The spec's words for the copy to fixed buffers: the body goes
    across the buffers in order, each receiving min (remaining,
    capacity); what is left when the buffers are used up is dropped.
    [pieces] is what each buffer receives, given the capacities. *)
Fixpoint pieces (caps : list Z) (remaining : list memval)
  : list (list memval) :=
  match caps with
  | [] => []
  | c :: caps' =>
      let n := Z.to_nat (Z.min (Z.of_nat (length remaining)) c) in
      take n remaining :: pieces caps' (drop n remaining)
  end.

(** The caller's memory once the buffers have received their pieces,
    in order. *)
Definition scatter (bufs : list nn_iovec) (body : list memval)
    (mem : gmap positive (list memval)) : gmap positive (list memval) :=
  foldl (fun mem '(v, piece) => poke (iov_base v) piece mem) mem
        (zip bufs (pieces (iov_len <$> bufs) body)).

(** The flags nn_flags accepts, with their translation. *)
Definition flags_pass (flags f : Z) : Prop :=
  f <> -1 /\
  ((flags = 0 /\ f = 0) \/
   (flags <> 0 /\ flags = NN_DONTWAIT /\ f = NNG_FLAG_NONBLOCK)).

(** How a block of a function ends: with a [return] of the function,
    or by going on to the next statement. *)
Inductive flow (A : Type) :=
  | Return (z : Z)
  | Next (a : A).
Global Arguments Return {A} z.
Global Arguments Next {A} a.

(** ** nn_recvmsg (lines 333-446) *)

(** [(mh->msg_iovlen == 1) && (mh->msg_iov[0].iov_len == NN_MSG)] *)
Definition wants_dynamic (mh : nn_msghdr) : M bool :=
  if msg_iovlen mh =? 1 then
    v ← lift (msg_iov mh !! 0%nat);
    mret (iov_len v =? NN_MSG)
  else mret false.

(** The loop of lines 376-389; [count] iterations are left, [i] is the
    index, [ptr] and [len] are the locals of that name. *)
Fixpoint recvmsg_copyout (msg : handle) (iov : list nn_iovec)
    (count i : nat) (ptr : pointer) (len : Z) : M (flow unit) :=
  match count with
  | O => mret (Next tt)
  | S count' =>
      v ← lift (iov !! i);
      let n := iov_len v in
      if n =? NN_MSG then
        nn_seterror NNG_EINVAL;;
        nng_msg_free msg;;
        mret (Return (-1))
      else
        let n := if len <? n then len else n in
        memcpy (iov_base v) ptr n;;
        recvmsg_copyout msg iov count' (S i) (ptr_add ptr n) (len - n)
  end.

(** Lines 358-368: the receiver wants the message itself. *)
Definition recvmsg_dynamic (msg : handle) (mh : nn_msghdr)
  : M (flow (Z * bool)) :=
  rv ← nng_msg_prepend msg (ptr_cells (MsgPtr msg));
  if negb (rv =? 0) then
    nng_msg_free msg;;
    nn_seterror rv;;
    mret (Return (-1))
  else
    _ ← nng_msg_trim msg sizeof_ptr;
    v ← lift (msg_iov mh !! 0%nat);
    b ← nng_msg_body msg;
    store_ptr (iov_base v) b;;
    len ← nng_msg_len msg;
    mret (Next (len, true)).

(** Lines 370-395: copy out to the buffers. *)
Definition recvmsg_fixed (msg : handle) (mh : nn_msghdr)
  : M (flow (Z * bool)) :=
  ptr ← nng_msg_body msg;
  len ← nng_msg_len msg;
  r ← recvmsg_copyout msg (msg_iov mh) (Z.to_nat (msg_iovlen mh)) 0 ptr len;
  match r with
  | Return z => mret (Return z)
  | Next _ =>
      len ← nng_msg_len msg;
      mret (Next (len, false))
  end.

(** Lines 400-440: the control information. *)
Definition recvmsg_control (msg : handle) (mh : nn_msghdr) : M (flow unit) :=
  if decide (msg_control mh = Null) then mret (Next tt)
  else
    hlen ← nng_msg_header_len msg;
    let clen := NN_CMSG_SPACE hlen in
    c ← (if msg_controllen mh =? NN_MSG then
           r ← nng_msg_alloc (size_add clen sizeof_ptr);
           match r with
           | Err rv =>
               nng_msg_free msg;;
               nn_seterror rv;;
               mret (Return (-1))
           | Ok nmsg =>
               b ← nng_msg_body nmsg;
               store_ptr b (MsgPtr nmsg);;
               _ ← nng_msg_trim nmsg sizeof_ptr;
               cdata ← nng_msg_body nmsg;
               store_ptr (msg_control mh) cdata;;
               mret (Next (cdata, clen))
           end
         else
           let tlen := msg_controllen mh in
           store (msg_control mh)
                 (zeros (if sizeof_cmsghdr <? tlen then sizeof_cmsghdr
                         else tlen));;
           mret (Next (msg_control mh, tlen)));
    match c with
    | Return z => mret (Return z)
    | Next (cdata, tlen) =>
        if clen <=? tlen then
          hlen ← nng_msg_header_len msg;
          store cdata (cmsghdr_cells hlen PROTO_SP SP_HDR);;
          src ← nng_msg_header msg;
          hlen ← nng_msg_header_len msg;
          memcpy (NN_CMSG_DATA cdata) src hlen;;
          mret (Next tt)
        else mret (Next tt)
    end.

Definition nn_recvmsg (s : Z) (mh : option nn_msghdr) (flags : Z) : M Z :=
  flags ← nn_flags flags;
  if flags =? -1 then mret (-1)
  else match mh with
  | None =>
      nn_seterror NNG_EINVAL;;
      mret (-1)
  | Some mh =>
      if msg_iovlen mh <? 0 then
        nn_seterror NNG_EMSGSIZE;;
        mret (-1)
      else
        r ← nng_recvmsg s flags;
        match r with
        | Err rv =>
            nn_seterror rv;;
            mret (-1)
        | Ok msg =>
            dyn ← wants_dynamic mh;
            b ← (if dyn : bool then recvmsg_dynamic msg mh
                 else recvmsg_fixed msg mh);
            match b with
            | Return z => mret z
            | Next (len, keep) =>
                c ← recvmsg_control msg mh;
                match c with
                | Return z => mret z
                | Next _ =>
                    (if keep : bool then mret tt else nng_msg_free msg);;
                    mret (to_int len)
                end
            end
        end
  end.

(** ** nn_sendmsg (lines 449-535) *)

(** The loop of lines 483-485. *)
Fixpoint sendmsg_size (iov : list nn_iovec) (count i : nat) (sz : Z) : M Z :=
  match count with
  | O => mret sz
  | S count' =>
      v ← lift (iov !! i);
      sendmsg_size iov count' (S i) (size_add sz (iov_len v))
  end.

(** The loop of lines 492-496. *)
Fixpoint sendmsg_gather (iov : list nn_iovec) (count i : nat)
    (ptr : pointer) : M unit :=
  match count with
  | O => mret tt
  | S count' =>
      v ← lift (iov !! i);
      memcpy ptr (iov_base v) (iov_len v);;
      sendmsg_gather iov count' (S i) (ptr_add ptr (iov_len v))
  end.

(** Lines 473-497: the message to send and whether to keep it on
    error. *)
Definition sendmsg_message (mh : nn_msghdr) : M (flow (handle * bool)) :=
  dyn ← wants_dynamic mh;
  if dyn : bool then
    v ← lift (msg_iov mh !! 0%nat);
    msg ← load_handle (ptr_add (iov_base v) (- sizeof_ptr));
    mret (Next (msg, true))
  else
    sz ← sendmsg_size (msg_iov mh) (Z.to_nat (msg_iovlen mh)) 0 0;
    r ← nng_msg_alloc sz;
    match r with
    | Err rv =>
        nn_seterror rv;;
        mret (Return (-1))
    | Ok msg =>
        ptr ← nng_msg_body msg;
        sendmsg_gather (msg_iov mh) (Z.to_nat (msg_iovlen mh)) 0 ptr;;
        mret (Next (msg, false))
    end.

(** Lines 500-519: the control data; the value is [cmsg]. *)
Definition sendmsg_control (mh : nn_msghdr) (msg : handle) (keep : bool)
  : M (flow (option handle)) :=
  let cdata := msg_control mh in
  if decide (cdata = Null) then mret (Next None)
  else
    '(cdata, clen, cmsg) ←
      (if msg_controllen mh =? NN_MSG then
         cdata ← load_ptr cdata;
         cmsg ← load_handle (ptr_add cdata (- sizeof_ptr));
         clen ← nng_msg_len cmsg;
         mret (cdata, clen, Some cmsg)
       else mret (cdata, msg_controllen mh, None));
    rv ← nng_msg_append_header msg cdata clen;
    if negb (rv =? 0) then
      (if keep then mret tt else nng_msg_free msg);;
      nn_seterror rv;;
      mret (Return (-1))
    else mret (Next cmsg).

Definition nn_sendmsg (s : Z) (mh : option nn_msghdr) (flags : Z) : M Z :=
  flags ← nn_flags flags;
  if flags =? -1 then mret (-1)
  else match mh with
  | None =>
      nn_seterror NNG_EINVAL;;
      mret (-1)
  | Some mh =>
      if msg_iovlen mh <? 0 then
        nn_seterror NNG_EMSGSIZE;;
        mret (-1)
      else
        g ← sendmsg_message mh;
        match g with
        | Return z => mret z
        | Next (msg, keep) =>
            c ← sendmsg_control mh msg keep;
            match c with
            | Return z => mret z
            | Next cmsg =>
                sz ← nng_msg_len msg;
                rv ← nng_sendmsg s msg flags;
                if negb (rv =? 0) then
                  (if keep : bool then mret tt else nng_msg_free msg);;
                  nn_seterror rv;;
                  mret (-1)
                else
                  match cmsg with
                  | Some cm => nng_msg_free cm
                  | None => mret tt
                  end;;
                  mret (to_int sz)
            end
        end
  end.

(** ** Notions used to state that nn_sendmsg returns *)

(** A buffer the program may read: [iov_len] cells inside a block. *)
Definition readable (w : world) (v : nn_iovec) : Prop :=
  exists cs, load (iov_base v) (iov_len v) w = Some (cs, w).

(** A descriptor nn_sendmsg can read and whose message is not the
    control message [c]: the count is not negative and the array has
    that many entries; and either the only entry has the sentinel for
    length and points to a dynamic message that is live, or no entry
    has the sentinel for length, each can be read and the lengths add
    up to a [size_t]. *)
Definition sendable (w : world) (mh : nn_msghdr) (c : handle) : Prop :=
  let bufs := take (Z.to_nat (msg_iovlen mh)) (msg_iov mh) in
  (0 <= msg_iovlen mh) /\
  length bufs = Z.to_nat (msg_iovlen mh) /\
  ((exists v msg,
      bufs = [v] /\ iov_len v = NN_MSG /\
      load_handle (ptr_add (iov_base v) (- sizeof_ptr)) w = Some (msg, w) /\
      is_Some (w_heap w !! msg) /\ msg <> c) \/
   (Forall (fun v => readable w v /\ iov_len v <> NN_MSG) bufs /\
    foldr Z.add 0 (iov_len <$> bufs) < SIZE_MOD)).

(** ** nn_setsockopt (lines 538-656) *)

(** The two nested [switch]es of lines 546-636: the native option and
    [mscvt], or [None] where they end in
    [errno = ENOPROTOOPT; return (-1)].  The labels NN_DOMAIN,
    NN_PROTOCOL, NN_IPV4ONLY, NN_SOCKET_NAME, NN_SNDPRIO and NN_RCVPRIO
    share the [default] of the first inner switch.  The [case
    NN_SURVEYOR] has no [break] after its inner switch: when that one
    is left by its [break], control falls into the outer [default]. *)
Definition setsockopt_switch (nnlevel nnopt : Z) : option (Z * bool) :=
  if nnlevel =? NN_SOL_SOCKET then
    if nnopt =? NN_LINGER then Some (NNG_OPT_LINGER, false)
    else if nnopt =? NN_SNDBUF then Some (NNG_OPT_SNDBUF, false)
    else if nnopt =? NN_RCVBUF then Some (NNG_OPT_RCVBUF, false)
    else if nnopt =? NN_RECONNECT_IVL then Some (NNG_OPT_RECONN_TIME, true)
    else if nnopt =? NN_RECONNECT_IVL_MAX
      then Some (NNG_OPT_RECONN_MAXTIME, true)
    else if nnopt =? NN_SNDFD then Some (NNG_OPT_SNDFD, false)
    else if nnopt =? NN_RCVFD then Some (NNG_OPT_RCVFD, false)
    else if nnopt =? NN_RCVMAXSIZE then Some (NNG_OPT_RCVMAXSZ, false)
    else if nnopt =? NN_MAXTTL then Some (NNG_OPT_MAXTTL, false)
    else if nnopt =? NN_RCVTIMEO then Some (NNG_OPT_RCVTIMEO, true)
    else if nnopt =? NN_SNDTIMEO then Some (NNG_OPT_SNDTIMEO, true)
    else None
  else if nnlevel =? NN_REQ then
    if nnopt =? NN_REQ_RESEND_IVL then Some (NNG_OPT_RESENDTIME, true)
    else None
  else if nnlevel =? NN_SUB then
    if nnopt =? NN_SUB_SUBSCRIBE then Some (NNG_OPT_SUBSCRIBE, false)
    else if nnopt =? NN_SUB_UNSUBSCRIBE then Some (NNG_OPT_UNSUBSCRIBE, false)
    else None
  else if nnlevel =? NN_SURVEYOR then
    match (if nnopt =? NN_SURVEY_DEADLINE
           then Some (NNG_OPT_SURVEYTIME, true)
           else None) with
    | Some _ => None      (* falls through into [default] *)
    | None => None
    end
  else None.

(** The labels of the outer [switch] are distinct, as the compiler
    requires. *)
Definition levels_distinct : Prop :=
  NoDup [NN_SOL_SOCKET; NN_REQ; NN_SUB; NN_SURVEYOR].

(** The [int] that [valp] points to. *)
Definition read_int (valp : list Z) : option Z :=
  if decide (Z.to_nat sizeof_int <= length valp)%nat
  then Some (to_int (le_value (take (Z.to_nat sizeof_int) valp)))
  else None.

Definition nn_setsockopt (s nnlevel nnopt : Z) (valp : list Z) (sz : Z)
  : M Z :=
  match setsockopt_switch nnlevel nnopt with
  | None =>
      set_errno_to ENOPROTOOPT;;
      mret (-1)
  | Some (opt, mscvt) =>
      c ← (if mscvt : bool then
             if negb (sz =? sizeof_int) then
               set_errno_to EINVAL;;
               mret (Return (-1))
             else
               v ← lift (read_int valp);
               let usec := v mod 2 ^ 64 in
               let usec := (usec * 1000) mod 2 ^ 64 in
               mret (Next (le_bytes 8 usec, sizeof_uint64))
           else mret (Next (valp, sz)));
      match c with
      | Return z => mret z
      | Next (valp, sz) =>
          rv ← nng_setopt s opt valp sz;
          if negb (rv =? 0) then
            nn_seterror rv;;
            mret (-1)
          else mret 0
      end
  end.

(** ** nn_errno (lines 84-88) *)

Definition nn_errno : M Z := fun w => Some (w_errno w, w).

(** ** nn_send and nn_recv (lines 265-330)

    nng_send and nng_recv are declared in nng.h and implemented in the
    core of the library, neither of which is in src/, and the shim only
    passes its arguments on to them and looks at their return code: the
    two functions are parametric in them.  [nng_recv] yields its return
    code and the length it leaves in [*len]. *)

Section Transfer.

Variable nng_send : Z -> pointer -> Z -> Z -> M Z.
Variable nng_recv : Z -> pointer -> Z -> Z -> M (Z * Z).

Definition nn_send (s : Z) (buf : pointer) (len : Z) (flags : Z) : M Z :=
  flags ← nn_flags flags;
  if flags =? -1 then mret (-1)
  else
    '(len, rv) ←
      (if len =? NN_MSG then
         msg ← load_handle (ptr_add buf (- sizeof_ptr));
         len ← nng_msg_len msg;
         rv ← nng_sendmsg s msg flags;
         mret (len, rv)
       else
         rv ← nng_send s buf len flags;
         mret (len, rv));
    if negb (rv =? 0) then
      nn_seterror rv;;
      mret (-1)
    else mret (to_int len).

Definition nn_recv (s : Z) (buf : pointer) (len : Z) (flags : Z) : M Z :=
  flags ← nn_flags flags;
  if flags =? -1 then mret (-1)
  else if len =? NN_MSG then
    r ← nng_recvmsg s flags;
    match r with
    | Err rv =>
        nn_seterror rv;;
        mret (-1)
    | Ok msg =>
        rv ← nng_msg_prepend msg (ptr_cells (MsgPtr msg));
        if negb (rv =? 0) then
          nng_msg_free msg;;
          nn_seterror rv;;
          mret (-1)
        else
          _ ← nng_msg_trim msg sizeof_ptr;
          b ← nng_msg_body msg;
          store_ptr buf b;;
          len ← nng_msg_len msg;
          mret (to_int len)
    end
  else
    '(rv, len) ← nng_recv s buf len flags;
    if negb (rv =? 0) then
      nn_seterror rv;;
      mret (-1)
    else mret (to_int len).

End Transfer.

(** ** Notions used to state the properties of nn_setsockopt *)

(** The legacy options nn_setsockopt passes on, by level and option,
    each with the native option and whether its value is
    milliseconds. *)
Definition supported_options : list (Z * Z * (Z * bool)) := [
  (NN_SOL_SOCKET, NN_LINGER, (NNG_OPT_LINGER, false));
  (NN_SOL_SOCKET, NN_SNDBUF, (NNG_OPT_SNDBUF, false));
  (NN_SOL_SOCKET, NN_RCVBUF, (NNG_OPT_RCVBUF, false));
  (NN_SOL_SOCKET, NN_RECONNECT_IVL, (NNG_OPT_RECONN_TIME, true));
  (NN_SOL_SOCKET, NN_RECONNECT_IVL_MAX, (NNG_OPT_RECONN_MAXTIME, true));
  (NN_SOL_SOCKET, NN_SNDFD, (NNG_OPT_SNDFD, false));
  (NN_SOL_SOCKET, NN_RCVFD, (NNG_OPT_RCVFD, false));
  (NN_SOL_SOCKET, NN_RCVMAXSIZE, (NNG_OPT_RCVMAXSZ, false));
  (NN_SOL_SOCKET, NN_MAXTTL, (NNG_OPT_MAXTTL, false));
  (NN_SOL_SOCKET, NN_RCVTIMEO, (NNG_OPT_RCVTIMEO, true));
  (NN_SOL_SOCKET, NN_SNDTIMEO, (NNG_OPT_SNDTIMEO, true));
  (NN_REQ, NN_REQ_RESEND_IVL, (NNG_OPT_RESENDTIME, true));
  (NN_SUB, NN_SUB_SUBSCRIBE, (NNG_OPT_SUBSCRIBE, false));
  (NN_SUB, NN_SUB_UNSUBSCRIBE, (NNG_OPT_UNSUBSCRIBE, false))
].

(** ** nn_socket (lines 91-115)

    nng_open and nng_close are declared in nng.h and implemented in
    the core of the library, which is not in src/, and AF_SP,
    AF_SP_RAW, EAFNOSUPPORT and NNG_OPT_RAW are constants of headers
    that are not in src/ either: nn_socket is parametric in all of
    them.  [nng_open] yields its return code and the socket it stores
    through its pointer. *)

Section Facade.

Variables AF_SP AF_SP_RAW EAFNOSUPPORT NNG_OPT_RAW : Z.
Variable nng_open : Z -> M (Z * Z).
Variable nng_close : Z -> M Z.


End Facade.

(** ** Notions used to state the properties of the transfers *)

(** The message [m] received as handle [msg], once it has been made an
    envelope by the prepend and the trim of lines 310-319 and 360-365:
    the handle stands at the end of the room, before the body. *)
Definition enveloped (msg : handle) (m : nng_msg) : nng_msg :=
  {| msg_header := msg_header m;
     msg_room := take (msg_start m - 8) (msg_room m) ++ ptr_cells (MsgPtr msg);
     msg_body := msg_body m |}.

(** The buffers [bufs] hold [contents], in that order. *)
Definition holding (w : world) (bufs : list nn_iovec)
    (contents : list (list memval)) : Prop :=
  Forall2 (fun v cs => load (iov_base v) (iov_len v) w = Some (cs, w))
          bufs contents.

End Shim.

(** ** One assignment of the constants

    The POSIX codes are those of Linux, the legacy constants those of
    the nanomsg headers the compatibility header reproduces; the
    native codes count up from one.  It serves to run the functions on
    concrete inputs. *)

Definition sample_nng_h : nng_h := {|
  NNG_EINTR := 1; NNG_ENOMEM := 2; NNG_EINVAL := 3; NNG_EBUSY := 4;
  NNG_ETIMEDOUT := 5; NNG_ECONNREFUSED := 6; NNG_ECLOSED := 7;
  NNG_EAGAIN := 8; NNG_ENOTSUP := 9; NNG_EADDRINUSE := 10;
  NNG_ESTATE := 11; NNG_ENOENT := 12; NNG_EPROTO := 13;
  NNG_EUNREACHABLE := 14; NNG_EADDRINVAL := 15; NNG_EPERM := 16;
  NNG_EMSGSIZE := 17; NNG_ECONNABORTED := 18; NNG_ECONNRESET := 19;
  NNG_FLAG_NONBLOCK := 2;
  NNG_OPT_LINGER := 1; NNG_OPT_RCVBUF := 2; NNG_OPT_SNDBUF := 3;
  NNG_OPT_RCVTIMEO := 4; NNG_OPT_SNDTIMEO := 5; NNG_OPT_RECONN_TIME := 6;
  NNG_OPT_RECONN_MAXTIME := 7; NNG_OPT_RCVMAXSZ := 8; NNG_OPT_MAXTTL := 9;
  NNG_OPT_SUBSCRIBE := 11; NNG_OPT_UNSUBSCRIBE := 12;
  NNG_OPT_SURVEYTIME := 13; NNG_OPT_RESENDTIME := 14;
  NNG_OPT_RCVFD := 18; NNG_OPT_SNDFD := 19
|}.

Definition linux_errno_h : errno_h := {|
  EINTR := 4; ENOMEM := 12; EINVAL := 22; EBUSY := 16; ETIMEDOUT := 110;
  ECONNREFUSED := 111; EBADF := 9; EAGAIN := 11; ENOTSUP := 95;
  EADDRINUSE := 98; EFSM := 156384766; ENOENT := 2; EPROTO := 71;
  EHOSTUNREACH := 113; EADDRNOTAVAIL := 99; EACCES := 13; EMSGSIZE := 90;
  ECONNABORTED := 103; ECONNRESET := 104; EIO := 5; ENOPROTOOPT := 92
|}.

Definition nanomsg_compat_h : nng_compat_h := {|
  NN_MSG := 2 ^ 64 - 1;
  NN_DONTWAIT := 1;
  NN_SOL_SOCKET := 0; NN_REQ := 48; NN_SUB := 33; NN_SURVEYOR := 98;
  NN_LINGER := 1; NN_SNDBUF := 2; NN_RCVBUF := 3; NN_SNDTIMEO := 4;
  NN_RCVTIMEO := 5; NN_RECONNECT_IVL := 6; NN_RECONNECT_IVL_MAX := 7;
  NN_SNDFD := 10; NN_RCVFD := 11; NN_RCVMAXSIZE := 16; NN_MAXTTL := 17;
  NN_REQ_RESEND_IVL := 1;
  NN_SUB_SUBSCRIBE := 1; NN_SUB_UNSUBSCRIBE := 2;
  NN_SURVEY_DEADLINE := 1;
  PROTO_SP := 1; SP_HDR := 1;
  NN_CMSG_SPACE := fun len => (len + 7) / 8 * 8 + 16
|}.

(** A world with nothing in it. *)
Definition empty_world : world := {|
  w_errno := 0; w_heap := ∅; w_mem := ∅; w_rvs := []; w_inbox := [];
  w_log := []
|}.

(** ** Sample inputs

    Concrete descriptors and worlds on which the functions are run. *)

Definition demo_buf (b : positive) (len : Z) : nn_iovec :=
  {| iov_base := Ptr (UserBlk b) 0; iov_len := len |}.

Definition demo_msg (body : list Z) : nng_msg :=
  {| msg_header := []; msg_room := []; msg_body := bytes_cells body |}.

(** A world whose memory has the blocks [mem] and whose sockets will
    deliver [inbox]. *)
Definition demo_world (mem : list (positive * list memval))
    (inbox : list nng_msg) : world :=
  {| w_errno := 0; w_heap := ∅; w_mem := list_to_map mem; w_rvs := [];
     w_inbox := inbox; w_log := [] |}.

(** The spec's example: a message of ten bytes, two buffers of four
    and two bytes. *)
Definition demo_recv_hdr : nn_msghdr :=
  {| msg_iov := [demo_buf 1 4; demo_buf 2 2]; msg_iovlen := 2;
     msg_control := Null; msg_controllen := 0 |}.

Definition demo_recv_world : world :=
  demo_world [(1%positive, zeros 4); (2%positive, zeros 2)]
             [demo_msg [1; 2; 3; 4; 5; 6; 7; 8; 9; 10]].

(** A descriptor with a buffer of sentinel length after a fixed one. *)
Definition demo_mixed_hdr `{!nng_compat_h} : nn_msghdr :=
  {| msg_iov := [demo_buf 1 4; demo_buf 2 NN_MSG]; msg_iovlen := 2;
     msg_control := Null; msg_controllen := 0 |}.

Definition demo_mixed_world : world :=
  demo_world [(1%positive, zeros 4); (2%positive, zeros 8)]
             [demo_msg [1; 2; 3; 4; 5; 6]].

(** A descriptor with a negative count. *)
Definition demo_negative_hdr : nn_msghdr :=
  {| msg_iov := []; msg_iovlen := -1;
     msg_control := Null; msg_controllen := 0 |}.

(** The world after nn_allocmsg (5, 0). *)
Definition demo_alloc_world : world :=
  {| w_errno := 0;
     w_heap := {[ 1%positive := envelope 1 (fresh_msg 13) ]};
     w_mem := ∅; w_rvs := []; w_inbox := []; w_log := [] |}.

(** A dynamic message of three bytes with handle 1, as nn_allocmsg
    leaves it, a variable (block 3) that points to it, and a payload of
    two bytes (block 4); [rvs] are the answers of the native layer. *)
Definition demo_control_msg : nng_msg :=
  {| msg_header := []; msg_room := ptr_cells (MsgPtr 1);
     msg_body := bytes_cells [1; 2; 3] |}.

Definition demo_send_world (rvs : list Z) : world :=
  {| w_errno := 0;
     w_heap := {[ 1%positive := demo_control_msg ]};
     w_mem := list_to_map
                [(3%positive, ptr_cells (Ptr (BodyBlk 1) 8));
                 (4%positive, bytes_cells [104; 105])];
     w_rvs := rvs; w_inbox := []; w_log := [] |}.

Definition demo_send_hdr `{!nng_compat_h} : nn_msghdr :=
  {| msg_iov := [demo_buf 4 2]; msg_iovlen := 1;
     msg_control := Ptr (UserBlk 3) 0; msg_controllen := NN_MSG |}.

(** A dynamic message of ten bytes with handle 1, as nn_allocmsg leaves
    it once the caller has written its payload. *)
Definition demo_long_msg : nng_msg :=
  {| msg_header := []; msg_room := ptr_cells (MsgPtr 1);
     msg_body := bytes_cells [1; 2; 3; 4; 5; 6; 7; 8; 9; 10] |}.

Definition demo_long_world : world :=
  {| w_errno := 0;
     w_heap := {[ 1%positive := demo_long_msg ]};
     w_mem := ∅; w_rvs := []; w_inbox := []; w_log := [] |}.

(** A receiver that wants the message itself: one buffer of sentinel
    length whose base is a [void *] variable (block 2). *)
Definition demo_dynamic_hdr `{!nng_compat_h} : nn_msghdr :=
  {| msg_iov := [demo_buf 2 NN_MSG]; msg_iovlen := 1;
     msg_control := Null; msg_controllen := 0 |}.

(** A message of six bytes with a header of four, the buffers of the
    spec's example and a block (3) for the control information; [rvs]
    are the answers of the native layer. *)
Definition demo_routed_msg : nng_msg :=
  {| msg_header := bytes_cells [0; 0; 0; 7]; msg_room := [];
     msg_body := bytes_cells [1; 2; 3; 4; 5; 6] |}.

Definition demo_routed_world (rvs : list Z) : world :=
  {| w_errno := 0; w_heap := ∅;
     w_mem := list_to_map
                [(1%positive, zeros 4); (2%positive, zeros 2);
                 (3%positive, zeros 32)];
     w_rvs := rvs; w_inbox := [demo_routed_msg]; w_log := [] |}.

(** The descriptor of the spec's example with a control buffer of
    [clen] bytes at block 3. *)
Definition demo_routed_hdr (clen : Z) : nn_msghdr :=
  {| msg_iov := [demo_buf 1 4; demo_buf 2 2]; msg_iovlen := 2;
     msg_control := Ptr (UserBlk 3) 0; msg_controllen := clen |}.

(** A sender of fixed buffers without control data. *)
Definition demo_plain_hdr : nn_msghdr :=
  {| msg_iov := [demo_buf 4 2]; msg_iovlen := 1;
     msg_control := Null; msg_controllen := 0 |}.

(** A sender that hands over the dynamic message of [demo_send_world],
    with the control data [control], [clen]. *)
Definition demo_adopt_hdr `{!nng_compat_h} (control : pointer) (clen : Z)
  : nn_msghdr :=
  {| msg_iov := [{| iov_base := Ptr (BodyBlk 1) 8; iov_len := NN_MSG |}];
     msg_iovlen := 1;
     msg_control := control; msg_controllen := clen |}.

(** A native transfer of plain buffers that is never reached. *)
Definition no_send : Z -> pointer -> Z -> Z -> M Z :=
  fun _ _ _ _ => undefined.

Definition no_recv : Z -> pointer -> Z -> Z -> M (Z * Z) :=
  fun _ _ _ _ => undefined.



(** ** The one-time initializer (win_thread.c, lines 149-175)

    The two statics are shared by all threads; each access to them is
    one atomic step of a thread, and a run is an interleaving of such
    steps. *)

Module WinThread.

Record statics := {
  initing : Z;
  inited : Z;
  (** how many times [helper] has been entered, and has returned *)
  helper_calls : nat;
  helper_returns : nat
}.

(** Where a thread stands in nni_plat_init, by line. *)
Inductive pc :=
  | L156          (* if (inited) *)
  | L165          (* while ((old = InterlockedCompareExchange (..)) != 0) *)
  | L166          (* Sleep (1) *)
  | L168          (* if (!inited) *)
  | L169          (* helper (): the call *)
  | L169_running  (* helper (): the return *)
  | L170          (* inited = 1 *)
  | L172          (* InterlockedExchange (&initing, 0) *)
  | Returned.

Global Instance pc_eq_dec : EqDecision pc.
Proof. solve_decision. Defined.

(** Win32: [InterlockedCompareExchange (Destination, Exchange,
    Comperand)] stores [Exchange] in the destination when the
    destination equals [Comperand], and returns the destination's
    initial value.  The value is the pair of the destination
    afterwards and the result. *)
Definition InterlockedCompareExchange (destination exchange comperand : Z)
  : Z * Z :=
  if destination =? comperand then (exchange, destination)
  else (destination, destination).

(** [InterlockedExchange (Target, Value)] *)
Definition InterlockedExchange (target value : Z) : Z * Z :=
  (value, target).

Definition step (p : pc) (g : statics) : pc * statics :=
  match p with
  | L156 =>
      if negb (inited g =? 0) then (Returned, g) else (L165, g)
  | L165 =>
      let '(dest, old) := InterlockedCompareExchange (initing g) 0 1 in
      let g' := {| initing := dest; inited := inited g;
                   helper_calls := helper_calls g;
                   helper_returns := helper_returns g |} in
      if negb (old =? 0) then (L166, g') else (L168, g')
  | L166 => (L165, g)
  | L168 =>
      if inited g =? 0 then (L169, g) else (L172, g)
  | L169 =>
      (L169_running,
       {| initing := initing g; inited := inited g;
          helper_calls := S (helper_calls g);
          helper_returns := helper_returns g |})
  | L169_running =>
      (L170,
       {| initing := initing g; inited := inited g;
          helper_calls := helper_calls g;
          helper_returns := S (helper_returns g) |})
  | L170 =>
      (L172,
       {| initing := initing g; inited := 1;
          helper_calls := helper_calls g;
          helper_returns := helper_returns g |})
  | L172 =>
      let '(dest, _) := InterlockedExchange (initing g) 0 in
      (Returned,
       {| initing := dest; inited := inited g;
          helper_calls := helper_calls g;
          helper_returns := helper_returns g |})
  | Returned => (Returned, g)
  end.

(** The threads inside nni_plat_init and the statics. *)
Record system := {
  threads : list pc;
  globals : statics
}.

(** [n] threads enter before any initialization has happened. *)
Definition start (n : nat) : system := {|
  threads := replicate n L156;
  globals := {| initing := 0; inited := 0;
                helper_calls := 0; helper_returns := 0 |}
|}.

(** Thread [t] takes its next step. *)
Definition sched (t : nat) (s : system) : system :=
  match threads s !! t with
  | Some p =>
      let '(p', g') := step p (globals s) in
      {| threads := <[t := p']> (threads s); globals := g' |}
  | None => s
  end.

(** The threads step in the order the schedule gives. *)
Fixpoint run (schedule : list nat) (s : system) : system :=
  match schedule with
  | [] => s
  | t :: rest => run rest (sched t s)
  end.

Definition all_returned (s : system) : bool :=
  forallb (fun p => bool_decide (p = Returned)) (threads s).

(** What holds of the statics and the threads in every reachable
    state. *)
Definition invariant (s : system) : Prop :=
  initing (globals s) = 0 /\
  (inited (globals s) = 0 \/
   (inited (globals s) = 1 /\ (1 <= helper_returns (globals s))%nat)) /\
  Forall (fun p =>
            match p with
            | L166 => False
            | L170 => (1 <= helper_returns (globals s))%nat
            | L172 | Returned => inited (globals s) = 1
            | _ => True
            end) (threads s).

End WinThread.

(** *** Schedules and measures for the one-time initializer *)

(** The steps a thread has left at most, by where it stands. *)
Definition steps_left (p : WinThread.pc) : nat :=
  match p with
  | WinThread.L156 => 7
  | WinThread.L165 => 6
  | WinThread.L166 => 7
  | WinThread.L168 => 5
  | WinThread.L169 => 4
  | WinThread.L169_running => 3
  | WinThread.L170 => 2
  | WinThread.L172 => 1
  | WinThread.Returned => 0
  end.

(** How many steps the schedule gives thread [t]. *)
Fixpoint turns (t : nat) (schedule : list nat) : nat :=
  match schedule with
  | [] => 0
  | u :: rest => (if decide (u = t) then 1 else 0) + turns t rest
  end.

(** The threads that stand at a place for which [f] holds. *)
Fixpoint standing (f : WinThread.pc -> bool) (ths : list WinThread.pc) : nat :=
  match ths with
  | [] => 0
  | p :: rest => (if f p then 1 else 0) + standing f rest
  end.

(** A thread that has not called the helper and may still do so. *)
Definition before_helper (p : WinThread.pc) : bool :=
  match p with
  | WinThread.L156 | WinThread.L165 | WinThread.L166 | WinThread.L168
  | WinThread.L169 => true
  | _ => false
  end.

(** A thread that is inside the helper. *)
Definition in_helper (p : WinThread.pc) : bool :=
  match p with
  | WinThread.L169_running => true
  | _ => false
  end.

(** What the counters of the helper satisfy in every reachable
    state. *)
Definition accounted (s : WinThread.system) : Prop :=
  WinThread.helper_calls (WinThread.globals s)
  = (WinThread.helper_returns (WinThread.globals s)
     + standing in_helper (WinThread.threads s))%nat /\
  (WinThread.helper_calls (WinThread.globals s)
   + standing before_helper (WinThread.threads s)
   <= length (WinThread.threads s))%nat.

(** The calls do not overlap: each thread runs from its entry to its
    return before the next one enters. *)
Definition sequential (n : nat) : list nat :=
  flat_map (fun t => replicate 7 t) (seq 0 n).

(** The calls overlap entirely: the threads take their first step one
    after another, then their second, and so on. *)
Definition lockstep (n : nat) : list nat :=
  concat (replicate 7 (seq 0 n)).

(** ** The timed wait (win_thread.c, lines 86-103)

    [now] is what nni_plat_clock returns and [until] the deadline,
    both counts of microseconds of type nni_time; the type is declared
    in a header that is not in src/, and the model is that of a 64-bit
    count that stays below 2^63.  [msec] is a DWORD, 32 bits wide and
    unsigned.  The wait itself is the Win32 call
    SleepConditionVariableCS, whose outcome for the duration it is
    given is a parameter. *)



(** ** Tactics *)

Ltac munfold :=
  unfold mbind, M_bind, mret, M_ret, lift, modify, undefined.

Ltac not_in :=
  rewrite ?elem_of_app, ?elem_of_cons, ?elem_of_nil;
  let H := fresh in intros H;
  repeat (destruct H as [H|H]); try done; simplify_eq; try done.

(** * Properties *)

(** ** Encodings *)

Lemma le_bytes_length n v : length (le_bytes n v) = n.
Proof. revert v; induction n as [|n IH]; intros v; simpl; [done|by rewrite IH]. Qed.

Lemma le_value_le_bytes n v : le_value (le_bytes n v) = v mod 256 ^ Z.of_nat n.
Proof.
  revert v; induction n as [|n IH]; intros v.
  - simpl. by rewrite Z.mod_1_r.
  - cbn [le_bytes le_value]. rewrite IH.
    rewrite Nat2Z.inj_succ, Z.pow_succ_r by lia.
    rewrite Z.rem_mul_r by lia. lia.
Qed.

Lemma le_bytes_mod n v : le_bytes n (v mod 256 ^ Z.of_nat n) = le_bytes n v.
Proof.
  revert v; induction n as [|n IH]; intros v; [done|].
  cbn [le_bytes]. rewrite Nat2Z.inj_succ, Z.pow_succ_r by lia.
  assert (0 < 256 ^ Z.of_nat n) by (apply Z.pow_pos_nonneg; lia).
  f_equal.
  - apply Z.mod_mod_divide. by exists (256 ^ Z.of_nat n); lia.
  - rewrite <- (IH (v / 256)). f_equal.
    rewrite Z.rem_mul_r by lia.
    rewrite (Z.add_comm (v mod 256)), (Z.mul_comm 256), Z.div_add_l by lia.
    rewrite (Z.div_small (v mod 256)) by (apply Z.mod_pos_bound; lia). lia.
Qed.

Lemma to_signed_small bits z :
  0 < bits -> - 2 ^ (bits - 1) <= z < 2 ^ (bits - 1) ->
  to_signed bits (z mod 2 ^ bits) = z.
Proof.
  intros Hb Hz. unfold to_signed.
  assert (2 ^ bits = 2 * 2 ^ (bits - 1)) as E.
  { rewrite <- Z.pow_succ_r by lia. f_equal; lia. }
  rewrite Z.mod_mod by lia.
  destruct (Z.ltb_spec (z mod 2 ^ bits) (2 ^ (bits - 1))) as [H|H].
  - destruct (Z.le_gt_cases 0 z).
    + rewrite Z.mod_small; lia.
    + rewrite <- (Z.mod_add _ 1) in H by lia. rewrite Z.mod_small in H; lia.
  - destruct (Z.le_gt_cases 0 z).
    + rewrite Z.mod_small in H; lia.
    + rewrite <- (Z.mod_add _ 1) by lia. rewrite Z.mod_small; lia.
Qed.

(** ** The error table *)

Section ErrorTable.

Context `{!nng_h, !errno_h}.

Let terminator : nn_errno_entry := {| nerr := 0; perr := 0 |}.

Lemma seterror_loop_entry (tbl : list nn_errno_entry) e :
  NoDup (nerr <$> tbl ++ [terminator]) -> e ∈ tbl ->
  seterror_loop (tbl ++ [terminator]) (nerr e) = Some (perr e).
Proof.
  induction tbl as [|a tbl IH]; intros Hnd Hin; [by apply elem_of_nil in Hin|].
  rewrite <- app_comm_cons, fmap_cons in Hnd.
  apply NoDup_cons in Hnd as [Ha Hnd].
  cbn [app seterror_loop].
  assert (nerr a <> 0) as Hz.
  { intros E. apply Ha. rewrite E, fmap_app. apply elem_of_app; right.
    apply list_elem_of_singleton. done. }
  apply Z.eqb_neq in Hz; rewrite Hz.
  apply elem_of_cons in Hin as [->|Hin]; [by rewrite Z.eqb_refl|].
  destruct (Z.eqb_spec (nerr a) (nerr e)) as [E|_]; [|by apply IH].
  exfalso; apply Ha. rewrite E, fmap_app. apply elem_of_app; left.
  by apply list_elem_of_fmap_2.
Qed.

Lemma strerror_loop_entry (tbl : list nn_errno_entry) e :
  NoDup (perr <$> tbl ++ [terminator]) -> e ∈ tbl ->
  strerror_loop (tbl ++ [terminator]) (perr e) = Some (nng_strerror (nerr e)).
Proof.
  induction tbl as [|a tbl IH]; intros Hnd Hin; [by apply elem_of_nil in Hin|].
  rewrite <- app_comm_cons, fmap_cons in Hnd.
  apply NoDup_cons in Hnd as [Ha Hnd].
  cbn [app strerror_loop].
  assert (perr a <> 0) as Hz.
  { intros E. apply Ha. rewrite E, fmap_app. apply elem_of_app; right.
    apply list_elem_of_singleton. done. }
  apply Z.eqb_neq in Hz; rewrite Hz.
  apply elem_of_cons in Hin as [->|Hin]; [by rewrite Z.eqb_refl|].
  destruct (Z.eqb_spec (perr a) (perr e)) as [E|_]; [|by apply IH].
  exfalso; apply Ha. rewrite E, fmap_app. apply elem_of_app; left.
  by apply list_elem_of_fmap_2.
Qed.

(** An entry other than the one that ends the table stands before
    it. *)
Lemma mapped_entry e :
  e ∈ nn_errnos -> nerr e <> 0 ->
  exists tbl, nn_errnos = tbl ++ [terminator] /\ e ∈ tbl.
Proof.
  intros Hin Hz. exists (removelast nn_errnos). split; [reflexivity|].
  change nn_errnos with (removelast nn_errnos ++ [terminator]) in Hin.
  apply elem_of_app in Hin as [?|Hin]; [done|].
  apply list_elem_of_singleton in Hin. by subst e.
Qed.

Lemma nn_seterror_entry e w :
  codes_distinct -> e ∈ nn_errnos -> nerr e <> 0 ->
  nn_seterror (nerr e) w = Some (tt, set_errno (perr e) w).
Proof.
  intros [Hn _] Hin Hz. destruct (mapped_entry e Hin Hz) as (tbl & E & Hin').
  unfold nn_seterror. rewrite E in Hn |- *.
  by rewrite (seterror_loop_entry tbl e Hn Hin').
Qed.

Lemma nn_seterror_mapped e w :
  codes_distinct -> e ∈ removelast nn_errnos ->
  nn_seterror (nerr e) w = Some (tt, set_errno (perr e) w).
Proof.
  intros [Hn _] Hin. unfold nn_seterror.
  change nn_errnos with (removelast nn_errnos ++ [terminator]) in Hn |- *.
  by rewrite (seterror_loop_entry _ e Hn Hin).
Qed.

(** The codes the shim itself reports. *)
Lemma nn_seterror_EINVAL w :
  codes_distinct -> nn_seterror NNG_EINVAL w = Some (tt, set_errno EINVAL w).
Proof.
  intros Hd.
  apply (nn_seterror_mapped {| nerr := NNG_EINVAL; perr := EINVAL |}); [done|].
  apply list_elem_of_In. simpl. auto 25.
Qed.

Lemma nn_seterror_EMSGSIZE w :
  codes_distinct ->
  nn_seterror NNG_EMSGSIZE w = Some (tt, set_errno EMSGSIZE w).
Proof.
  intros Hd.
  apply (nn_seterror_mapped {| nerr := NNG_EMSGSIZE; perr := EMSGSIZE |});
    [done|].
  apply list_elem_of_In. simpl. auto 25.
Qed.

(** nn_seterror always stores some code and changes nothing else. *)
Lemma nn_seterror_total err w :
  exists e, nn_seterror err w = Some (tt, set_errno e w).
Proof. unfold nn_seterror. destruct (seterror_loop _ _); eauto. Qed.

(** C9: for every entry of the error table that maps a code (every
    entry but the all-zero one that ends the table), setting the error
    from its native code stores its POSIX code in errno, and looking
    that POSIX code up in nn_strerror selects the same entry: the text
    is the native library's text for the original native code. *)
Theorem C9_error_table_round_trip e w :
  codes_distinct -> e ∈ nn_errnos -> nerr e <> 0 ->
  nn_seterror (nerr e) w = Some (tt, set_errno (perr e) w) /\
  nn_strerror (perr e) = nng_strerror (nerr e).
Proof.
  intros Hd Hin Hz. split; [by apply nn_seterror_entry|].
  destruct Hd as [_ Hp]. destruct (mapped_entry e Hin Hz) as (tbl & E & Hin').
  unfold nn_strerror. rewrite E in Hp |- *.
  by rewrite (strerror_loop_entry tbl e Hp Hin').
Qed.

End ErrorTable.

Lemma C9_error_table_round_trip_witness :
  let e := {| nerr := 7; perr := 9 |} in
  @codes_distinct sample_nng_h linux_errno_h /\
  e ∈ @nn_errnos sample_nng_h linux_errno_h /\
  nerr e <> 0 /\
  @nn_seterror sample_nng_h linux_errno_h (nerr e) empty_world
    = Some (tt, set_errno (perr e) empty_world) /\
  @nn_strerror sample_nng_h linux_errno_h (perr e) = nng_strerror (nerr e).
Proof.
  intros e.
  assert (@codes_distinct sample_nng_h linux_errno_h) as Hd
    by (split; apply (bool_decide_unpack _); vm_compute; exact I).
  assert (e ∈ @nn_errnos sample_nng_h linux_errno_h) as Hin
    by (apply list_elem_of_In; simpl; auto 25).
  assert (nerr e <> 0) as Hz by (simpl; lia).
  split; [exact Hd|]. split; [exact Hin|]. split; [exact Hz|].
  exact (@C9_error_table_round_trip sample_nng_h linux_errno_h e empty_world
           Hd Hin Hz).
Defined.

(** ** Running the native primitives *)

Lemma zeros_length n : length (zeros n) = Z.to_nat n.
Proof. apply length_replicate. Qed.

Lemma ptr_cells_length p : length (ptr_cells p) = 8%nat.
Proof. reflexivity. Qed.

Lemma cells_ptr_cells p : cells_ptr (ptr_cells p) = Some p.
Proof.
  unfold cells_ptr.
  change (ptr_cells p) with (PtrFrag p 0 :: (PtrFrag p <$> seq 1 7)) at 1.
  cbv beta iota. by rewrite decide_True.
Qed.

Lemma nng_msg_body_live h m w :
  w_heap w !! h = Some m ->
  nng_msg_body h w = Some (Ptr (BodyBlk h) (Z.of_nat (msg_start m)), w).
Proof. intros E. unfold nng_msg_body, live. munfold. by rewrite E. Qed.

Lemma nng_msg_len_live h m w :
  w_heap w !! h = Some m -> nng_msg_len h w = Some (msg_len m, w).
Proof. intros E. unfold nng_msg_len, live. munfold. by rewrite E. Qed.

Lemma store_body h m off data cs w :
  w_heap w !! h = Some m ->
  wr off data (msg_chunk m) = Some cs ->
  store (Ptr (BodyBlk h) off) data w
  = Some (tt, set_heap (<[h := {| msg_header := msg_header m;
                                  msg_room := take (msg_start m) cs;
                                  msg_body := drop (msg_start m) cs |}]>
                          (w_heap w)) w).
Proof.
  intros E Hwr. unfold store. cbn [block_cells]. rewrite E. cbn [fmap option_fmap option_map].
  rewrite Hwr. unfold set_block. by rewrite E.
Qed.

Lemma load_body h m off n cs w :
  w_heap w !! h = Some m ->
  rd off n (msg_chunk m) = Some cs ->
  load (Ptr (BodyBlk h) off) n w = Some (cs, w).
Proof.
  intros E Hrd. unfold load. cbn [block_cells]. rewrite E. cbn [fmap option_fmap option_map].
  by rewrite Hrd.
Qed.

Lemma wr_at_body (room data body : list memval) :
  (length data <= length body)%nat ->
  wr (Z.of_nat (length room)) data (room ++ body)
  = Some (room ++ data ++ drop (length data) body).
Proof.
  intros Hl. unfold wr.
  rewrite (proj2 (Z.leb_le 0 _)) by lia.
  rewrite (proj2 (Z.leb_le _ _)) by (rewrite length_app; lia).
  cbn [andb]. rewrite Nat2Z.id, take_app_length, drop_app_add'; done.
Qed.

Lemma rd_mid (pre data body : list memval) off n :
  off = Z.of_nat (length pre) -> n = Z.of_nat (length data) ->
  rd off n ((pre ++ data) ++ body) = Some data.
Proof.
  intros -> ->. unfold rd. rewrite !length_app.
  rewrite (proj2 (Z.leb_le 0 _)) by lia.
  rewrite (proj2 (Z.leb_le 0 _)) by lia.
  rewrite (proj2 (Z.leb_le _ _)) by lia.
  cbn [andb]. f_equal.
  rewrite !Nat2Z.id, <- app_assoc, drop_app_length, take_app_length. done.
Qed.

Lemma bind_run {A B} (m : M A) (k : A -> M B) w :
  (m ≫= k) w = match m w with Some (a, w1) => k a w1 | None => None end.
Proof. reflexivity. Qed.

Lemma next_rv_run w : next_rv w = Some (answer w, answered w).
Proof.
  unfold next_rv, answer, answered. destruct w as [e hp mm rvs ib lg]; cbn.
  by destruct rvs.
Qed.

Lemma log_run e w : log e w = Some (tt, logged e w).
Proof. reflexivity. Qed.

Lemma block_cells_same b w w' :
  w_heap w' = w_heap w -> w_mem w' = w_mem w ->
  block_cells b w' = block_cells b w.
Proof. intros Hh Hm. destruct b; cbn; by rewrite ?Hh, ?Hm. Qed.

Lemma load_same_memory p n cs w w0 w' :
  w_heap w' = w_heap w -> w_mem w' = w_mem w ->
  load p n w = Some (cs, w0) -> load p n w' = Some (cs, w').
Proof.
  intros Hh Hm. unfold load. destruct p as [| |b off]; try done.
  rewrite (block_cells_same b w w') by done.
  destruct (block_cells b w); [|done]. destruct (rd off n l); [|done].
  by intros; simplify_eq.
Qed.

Lemma load_handle_same_memory p h w w0 w' :
  w_heap w' = w_heap w -> w_mem w' = w_mem w ->
  load_handle p w = Some (h, w0) -> load_handle p w' = Some (h, w').
Proof.
  intros Hh Hm. unfold load_handle, load_ptr. rewrite !bind_run.
  destruct (load p sizeof_ptr w) as [[cs w1]|] eqn:E; [|done].
  rewrite (load_same_memory _ _ _ _ _ w' Hh Hm E).
  assert (w1 = w) as ->.
  { revert E. unfold load. destruct p; try done.
    destruct (block_cells b w); [|done]. destruct (rd _ _ _); [|done].
    by intros; simplify_eq. }
  unfold lift. destruct (cells_ptr cs) as [[]|]; try done.
  unfold mret, M_ret. by intros; simplify_eq.
Qed.

Section Messages.
Context `{!nng_h, !errno_h}.

Lemma stamp_and_trim msg m w :
  w_heap w !! msg = Some m -> (8 <= length (msg_body m))%nat ->
  (b ← nng_msg_body msg;
   store_ptr b (MsgPtr msg);;
   _ ← nng_msg_trim msg sizeof_ptr;
   nng_msg_body msg) w
  = Some (Ptr (BodyBlk msg) (Z.of_nat (msg_start m) + 8),
          set_heap (<[msg := envelope msg m]> (w_heap w))
            (set_log (w_log w ++ [E_msg_trim msg 8]) w)).
Proof.
  intros E Hlen. munfold.
  rewrite (nng_msg_body_live msg m) by done.
  unfold store_ptr, msg_start.
  rewrite (store_body msg m _ _ _ w E (wr_at_body _ (ptr_cells (MsgPtr msg)) _ Hlen)).
  unfold msg_start. rewrite take_app_length, drop_app_length.
  unfold nng_msg_trim, log, live, put_msg. munfold.
  cbn [w_heap set_heap set_log]. rewrite lookup_insert_eq.
  unfold msg_len. cbn [msg_body msg_room msg_header].
  rewrite !ptr_cells_length.
  rewrite (proj2 (Z.ltb_ge _ _))
    by (rewrite length_app, ptr_cells_length; unfold sizeof_ptr; lia).
  change (Z.to_nat sizeof_ptr) with (length (ptr_cells (MsgPtr msg))).
  rewrite take_app_length, drop_app_length.
  erewrite nng_msg_body_live by (cbn [w_heap set_heap]; apply lookup_insert_eq).
  unfold msg_start. cbn [msg_room]. f_equal. f_equal.
  - f_equal. rewrite !length_app, ptr_cells_length. lia.
  - destruct w; cbn. unfold set_heap; cbn. f_equal.
    rewrite !insert_insert_eq. done.
Qed.

Lemma nng_msg_alloc_run sz w :
  nng_msg_alloc sz w =
  if answer w =? 0 then
    let h := fresh (dom (w_heap w)) in
    Some (Ok h, set_heap (<[h := fresh_msg sz]> (w_heap w))
                  (logged (E_msg_alloc sz 0) (answered w)))
  else Some (Err (answer w),
             logged (E_msg_alloc sz (answer w)) (answered w)).
Proof.
  unfold nng_msg_alloc. rewrite bind_run, next_rv_run, bind_run, log_run.
  destruct (Z.eqb_spec (answer w) 0) as [->|]; done.
Qed.

Lemma nn_allocmsg_invalid size type w :
  codes_distinct ->
  type <> 0 \/ size < 1 \/ size_add size sizeof_ptr < size ->
  nn_allocmsg size type w = Some (Null, set_errno EINVAL w).
Proof.
  intros Hd Hbad. unfold nn_allocmsg.
  replace (negb (type =? 0) || (size <? 1) || (size_add size sizeof_ptr <? size))
    with true.
  - rewrite bind_run. by rewrite nn_seterror_EINVAL.
  - symmetry. rewrite !orb_true_iff, negb_true_iff, Z.eqb_neq, !Z.ltb_lt. tauto.
Qed.

Lemma size_add_small a b :
  0 <= a -> 0 <= b -> a + b < SIZE_MOD -> size_add a b = a + b.
Proof. intros. unfold size_add. apply Z.mod_small; lia. Qed.

Lemma size_add_overflow a b :
  0 <= a < SIZE_MOD -> 0 <= b < SIZE_MOD ->
  (size_add a b < a <-> SIZE_MOD <= a + b).
Proof.
  intros Ha Hb. unfold size_add. split.
  - intros Hlt. destruct (Z.lt_ge_cases (a + b) SIZE_MOD); [|done].
    rewrite Z.mod_small in Hlt; lia.
  - intros Hge. replace (a + b) with ((a + b - SIZE_MOD) + 1 * SIZE_MOD) by lia.
    rewrite Z.mod_add by (unfold SIZE_MOD; lia). rewrite Z.mod_small; lia.
Qed.

Lemma nn_allocmsg_valid size w :
  0 < size -> size + sizeof_ptr < SIZE_MOD ->
  nn_allocmsg size 0 w =
  if answer w =? 0 then
    let h := fresh (dom (w_heap w)) in
    Some (Ptr (BodyBlk h) 8,
          set_heap (<[h := envelope h (fresh_msg (size + 8))]> (w_heap w))
            (logged (E_msg_trim h 8)
               (logged (E_msg_alloc (size + 8) 0) (answered w))))
  else
    (nn_seterror (answer w);; mret Null)
      (logged (E_msg_alloc (size + 8) (answer w)) (answered w)).
Proof.
  intros Hpos Hov. unfold nn_allocmsg.
  rewrite size_add_small by (unfold sizeof_ptr in *; lia).
  replace (negb (0 =? 0) || (size <? 1) || (size + sizeof_ptr <? size)) with false
    by (symmetry; rewrite !orb_false_iff; cbn; split; [split; [done|]|]; apply Z.ltb_ge; unfold sizeof_ptr; lia).
  rewrite bind_run, nng_msg_alloc_run. change (size + sizeof_ptr) with (size + 8).
  destruct (answer w =? 0); [|done].
  cbv beta iota zeta.
  rewrite stamp_and_trim with (m := fresh_msg (size + 8)).
  - cbn [msg_start fresh_msg msg_room length Z.of_nat Z.add]. do 2 f_equal.
    destruct w; cbn. unfold set_heap, logged; cbn. f_equal.
    by rewrite insert_insert_eq.
  - cbn [w_heap set_heap]. apply lookup_insert_eq.
  - cbn [fresh_msg msg_body]. rewrite zeros_length. lia.
Qed.

Lemma load_handle_envelope msg m w :
  w_heap w !! msg = Some (envelope msg m) ->
  load_handle (ptr_add (Ptr (BodyBlk msg) (Z.of_nat (msg_start m) + 8))
                       (- sizeof_ptr)) w = Some (msg, w).
Proof.
  intros E. unfold load_handle, load_ptr. rewrite !bind_run.
  cbn [ptr_add]. unfold msg_start.
  rewrite (load_body msg _ _ _ (ptr_cells (MsgPtr msg)) w E).
  - unfold lift. by rewrite cells_ptr_cells.
  - unfold sizeof_ptr, msg_chunk, envelope; cbn [msg_room msg_body].
    apply rd_mid; [lia|done].
Qed.

Lemma log_grows_ne (l : list event) x : l ++ [x] <> l.
Proof.
  intros E. apply (f_equal length) in E. rewrite length_app in E. cbn in E. lia.
Qed.

(** C10: for every size and every type other than 0, nn_allocmsg
    returns NULL with errno set to EINVAL, and nothing else changes:
    the native layer is not asked for anything, so no allocation is
    made.  Only type 0 can succeed. *)
Theorem C10_allocmsg_type size type w :
  codes_distinct -> type <> 0 ->
  nn_allocmsg size type w = Some (Null, set_errno EINVAL w).
Proof. intros Hd Ht. apply nn_allocmsg_invalid; auto. Qed.

(** C5: for a size that fits [size_t], nn_allocmsg (size, 0) fails with
    EINVAL, having asked nothing of the native layer, exactly when the
    size is zero or the size plus the width of the hidden handle
    overflows.  The call always returns.  On every successful call the
    pointer returned is the body pointer of a new native message whose
    visible length is exactly [size], and the word that precedes the
    pointer holds the handle of that message; the native calls made
    are the allocation of [size + sizeof_ptr] bytes and the trim.  For
    a size that passes the check, the call succeeds when the native
    allocation does, and otherwise returns NULL with the error the
    native layer reported, translated. *)
Theorem C5_allocmsg size w :
  codes_distinct -> 0 <= size < SIZE_MOD ->
  (nn_allocmsg size 0 w = Some (Null, set_errno EINVAL w)
   <-> size = 0 \/ SIZE_MOD <= size + sizeof_ptr) /\
  (exists p w', nn_allocmsg size 0 w = Some (p, w')) /\
  (forall p w', nn_allocmsg size 0 w = Some (p, w') -> p <> Null ->
     exists msg m,
       w_heap w !! msg = None /\
       w_heap w' !! msg = Some m /\
       nng_msg_body msg w' = Some (p, w') /\
       msg_len m = size /\
       load_handle (ptr_add p (- sizeof_ptr)) w' = Some (msg, w') /\
       w_log w' = w_log w ++ [E_msg_alloc (size + sizeof_ptr) 0;
                              E_msg_trim msg sizeof_ptr]) /\
  (0 < size -> size + sizeof_ptr < SIZE_MOD ->
   (answer w = 0 -> exists p w', nn_allocmsg size 0 w = Some (p, w') /\
                                 p <> Null) /\
   (answer w <> 0 ->
    nn_allocmsg size 0 w
    = (nn_seterror (answer w);; mret Null)
        (logged (E_msg_alloc (size + sizeof_ptr) (answer w)) (answered w)))).
Proof.
  intros Hd Hsz.
  assert (0 < size -> size + sizeof_ptr < SIZE_MOD ->
   (answer w = 0 -> exists p w', nn_allocmsg size 0 w = Some (p, w') /\
                                 p <> Null) /\
   (answer w <> 0 ->
    nn_allocmsg size 0 w
    = (nn_seterror (answer w);; mret Null)
        (logged (E_msg_alloc (size + sizeof_ptr) (answer w)) (answered w))))
    as Hpaths.
  { intros Hpos Hov. pose proof (nn_allocmsg_valid size w Hpos Hov) as E.
    split; intros Ha.
    - rewrite Ha in E. cbn [Z.eqb] in E. cbv zeta in E.
      eexists _, _. split; [exact E|done].
    - apply Z.eqb_neq in Ha. by rewrite Ha in E. }
  refine ((fun H => match H with
                    | conj H1 (conj H2 H3) => conj H1 (conj H2 (conj H3 Hpaths))
                    end) _).
  destruct (decide (size = 0 \/ SIZE_MOD <= size + sizeof_ptr)) as [Hbad|Hok].
  - assert (nn_allocmsg size 0 w = Some (Null, set_errno EINVAL w)) as E.
    { apply nn_allocmsg_invalid; [done|]. right.
      destruct Hbad as [->|Hov]; [left; lia|right].
      apply size_add_overflow; unfold sizeof_ptr, SIZE_MOD in *; lia. }
    split; [tauto|]. split; [eauto|].
    intros p w' E'. rewrite E in E'. injection E' as <- <-. by intros [].
  - assert (0 < size /\ size + sizeof_ptr < SIZE_MOD) as [Hpos Hov] by lia.
    pose proof (nn_allocmsg_valid size w Hpos Hov) as E.
    destruct (Z.eqb_spec (answer w) 0) as [Ha|Ha]; cbv zeta in E.
    + split; [|split].
      * split; [|tauto]. rewrite E. intros; simplify_eq.
      * eauto.
      * intros p w' E'. rewrite E in E'. simplify_eq. intros _.
        set (h := fresh (dom (w_heap w))).
        exists h, (envelope h (fresh_msg (size + 8))).
        assert (w_heap w !! h = None) as Hfresh.
        { apply not_elem_of_dom. apply is_fresh. }
        split; [done|]. split; [cbn; apply lookup_insert_eq|].
        split; [|split; [|split]].
        -- erewrite nng_msg_body_live by (cbn; apply lookup_insert_eq). done.
        -- unfold msg_len, envelope, fresh_msg; cbn [msg_body].
           rewrite length_drop, zeros_length. unfold sizeof_ptr. lia.
        -- apply (load_handle_envelope h (fresh_msg (size + 8))).
           cbn. apply lookup_insert_eq.
        -- cbn. unfold sizeof_ptr. by rewrite <- app_assoc.
    + rewrite bind_run in E.
      destruct (nn_seterror_total (answer w)
                  (logged (E_msg_alloc (size + 8) (answer w)) (answered w)))
        as [e He].
      rewrite He in E. cbn in E.
      split; [|split].
      * split; [|tauto]. rewrite E. intros Heq. exfalso.
        apply (f_equal (fun o => w_log <$> (snd <$> o))) in Heq. cbn in Heq.
        injection Heq as Heq. exact (log_grows_ne _ _ Heq).
      * eauto.
      * intros p w' E'. rewrite E in E'. injection E' as <- <-. by intros [].
Qed.

Lemma resized_length m sz : length (msg_body (resized m sz)) = Z.to_nat sz.
Proof.
  cbn [resized msg_body]. rewrite length_take, length_app, zeros_length. lia.
Qed.

Lemma nng_msg_realloc_run msg m sz w :
  w_heap w !! msg = Some m ->
  nng_msg_realloc msg sz w =
  if answer w =? 0 then
    Some (0, set_heap (<[msg := resized m sz]> (w_heap w))
               (logged (E_msg_realloc msg sz 0) (answered w)))
  else Some (answer w, logged (E_msg_realloc msg sz (answer w)) (answered w)).
Proof.
  intros E. unfold nng_msg_realloc.
  rewrite bind_run. unfold live at 1.
  rewrite E, bind_run, next_rv_run, bind_run, log_run.
  destruct (Z.eqb_spec (answer w) 0) as [->|]; done.
Qed.

(** C6: nn_reallocmsg (ptr, len) fails with EINVAL, having touched
    nothing, when [len] plus the width of the hidden handle overflows.
    Otherwise, for a pointer whose hidden word holds the handle of a
    live message: when the native resize fails, the call returns NULL,
    the heap and the caller's memory are what they were and the hidden
    word of [ptr] still holds the handle, so the caller still owns the
    message; when it succeeds, the pointer returned is the body
    pointer of the message, the visible length is exactly [len] and
    the word that precedes the new pointer holds the handle. *)
Theorem C6_reallocmsg ptr len w :
  codes_distinct -> 0 <= len < SIZE_MOD ->
  (SIZE_MOD <= len + sizeof_ptr ->
   nn_reallocmsg ptr len w = Some (Null, set_errno EINVAL w)) /\
  (forall msg m,
     len + sizeof_ptr < SIZE_MOD ->
     load_handle (ptr_add ptr (- sizeof_ptr)) w = Some (msg, w) ->
     w_heap w !! msg = Some m ->
     (answer w <> 0 ->
      exists w', nn_reallocmsg ptr len w = Some (Null, w') /\
        w_heap w' = w_heap w /\ w_mem w' = w_mem w /\
        load_handle (ptr_add ptr (- sizeof_ptr)) w' = Some (msg, w') /\
        w_log w' = w_log w ++ [E_msg_realloc msg (len + sizeof_ptr)
                                 (answer w)]) /\
     (answer w = 0 ->
      exists p w' m', nn_reallocmsg ptr len w = Some (p, w') /\
        p <> Null /\
        w_heap w' !! msg = Some m' /\
        nng_msg_body msg w' = Some (p, w') /\
        msg_len m' = len /\
        load_handle (ptr_add p (- sizeof_ptr)) w' = Some (msg, w'))).
Proof.
  intros Hd Hlen. split.
  - intros Hov. unfold nn_reallocmsg.
    rewrite (proj2 (Z.ltb_lt _ _))
      by (apply size_add_overflow; unfold sizeof_ptr, SIZE_MOD in *; lia).
    by rewrite bind_run, nn_seterror_EINVAL.
  - intros msg m Hov Hptr E.
    assert (nn_reallocmsg ptr len w =
            (rv ← nng_msg_realloc msg (len + sizeof_ptr);
             if negb (rv =? 0) then nn_seterror rv;; mret Null
             else b ← nng_msg_body msg;
                  store_ptr b (MsgPtr msg);;
                  _ ← nng_msg_trim msg sizeof_ptr;
                  nng_msg_body msg) w) as ->.
    { unfold nn_reallocmsg.
      rewrite size_add_small by (unfold sizeof_ptr in *; lia).
      rewrite (proj2 (Z.ltb_ge _ _)) by (unfold sizeof_ptr; lia).
      by rewrite bind_run, Hptr. }
    rewrite bind_run, (nng_msg_realloc_run msg m) by done.
    split.
    + intros Ha. apply Z.eqb_neq in Ha. rewrite Ha. cbv beta iota.
      rewrite Ha. cbn [negb]. rewrite bind_run.
      destruct (nn_seterror_total (answer w)
        (logged (E_msg_realloc msg (len + sizeof_ptr) (answer w))
           (answered w))) as [e ->].
      eexists. split; [reflexivity|]. split; [done|]. split; [done|].
      split; [|done].
      by apply (load_handle_same_memory _ _ w w).
    + intros Ha. rewrite Ha. cbn [Z.eqb negb]. cbv beta iota. cbn [Z.eqb negb].
      rewrite stamp_and_trim with (m := resized m (len + sizeof_ptr)).
      2:{ cbn. apply lookup_insert_eq. }
      2:{ rewrite resized_length. unfold sizeof_ptr. lia. }
      eexists _, _, _. split; [reflexivity|]. split; [done|].
      split; [cbn; apply lookup_insert_eq|]. split; [|split].
      * erewrite nng_msg_body_live by (cbn; apply lookup_insert_eq).
        do 3 f_equal. unfold msg_start, envelope; cbn [msg_room].
        rewrite length_app, ptr_cells_length. lia.
      * unfold msg_len, envelope. cbn [msg_body].
        rewrite length_drop, resized_length. unfold sizeof_ptr. lia.
      * apply load_handle_envelope. cbn. apply lookup_insert_eq.
Qed.
End Messages.

(** ** Scatter/gather receive *)

Lemma nng_msg_free_run h m w :
  w_heap w !! h = Some m ->
  nng_msg_free h w
  = Some (tt, set_heap (delete h (w_heap w)) (logged (E_msg_free h) w)).
Proof.
  intros E. unfold nng_msg_free. rewrite bind_run, log_run, bind_run.
  unfold live. change (w_heap (logged (E_msg_free h) w)) with (w_heap w).
  by rewrite E.
Qed.

Lemma nng_recvmsg_run s f w :
  nng_recvmsg s f w =
  if answer w =? 0 then
    let h := fresh (dom (w_heap w)) in
    Some (Ok h, set_heap (<[h := arriving w]> (w_heap w))
                  (arrived (logged (E_recvmsg s f 0) (answered w))))
  else Some (Err (answer w), logged (E_recvmsg s f (answer w)) (answered w)).
Proof.
  unfold nng_recvmsg. rewrite bind_run, next_rv_run, bind_run, log_run.
  destruct (Z.eqb_spec (answer w) 0) as [->|]; [|done].
  destruct w as [e hp mm rvs ib lg]. by destruct ib.
Qed.

Lemma user_buffer_poke mem p data v :
  user_buffer mem v -> user_buffer (poke p data mem) v.
Proof.
  unfold user_buffer, poke.
  destruct (iov_base v) as [| |[b| |] off]; try done.
  destruct p as [| |[b'| |] off']; try done.
  destruct (mem !! b') as [cs'|] eqn:E'; [|done].
  destruct (wr off' data cs') as [cs''|] eqn:Ewr; [|done].
  destruct (decide (b = b')) as [->|Hne].
  - rewrite E', lookup_insert_eq.
    unfold wr in Ewr. destruct (_ && _) eqn:Eb; [|done]. simplify_eq.
    apply andb_true_iff in Eb as [H1 H2]. apply Z.leb_le in H1, H2.
    rewrite !length_app, length_take, length_drop. lia.
  - by rewrite lookup_insert_ne.
Qed.

Lemma store_user p data mem w :
  w_mem w = mem ->
  user_buffer mem {| iov_base := p; iov_len := Z.of_nat (length data) |} ->
  store p data w = Some (tt, set_mem (poke p data mem) w).
Proof.
  intros <-. unfold user_buffer, store, poke. cbn [iov_base iov_len].
  destruct p as [| |[b| |] off]; try done. cbn [block_cells].
  destruct (w_mem w !! b) as [cs|] eqn:E; [|done].
  intros (H1 & H2 & H3). unfold wr.
  rewrite (proj2 (Z.leb_le _ _) H1), (proj2 (Z.leb_le _ _) H3). done.
Qed.

Lemma rd_body (room body : list memval) pos n :
  (pos + n <= length body)%nat ->
  rd (Z.of_nat (length room) + Z.of_nat pos) (Z.of_nat n) (room ++ body)
  = Some (take n (drop pos body)).
Proof.
  intros Hl. unfold rd. rewrite length_app.
  rewrite (proj2 (Z.leb_le 0 _)) by lia.
  rewrite (proj2 (Z.leb_le 0 _)) by lia.
  rewrite (proj2 (Z.leb_le _ _)) by lia.
  cbn [andb]. f_equal.
  rewrite Nat2Z.id, <- Nat2Z.inj_add, Nat2Z.id.
  by rewrite <- drop_drop, drop_app_length.
Qed.

Section Receive.
Context `{!nng_h, !errno_h, !nng_compat_h}.

Lemma scatter_cons v bufs body mem :
  scatter (v :: bufs) body mem
  = let n := Z.to_nat (Z.min (Z.of_nat (length body)) (iov_len v)) in
    scatter bufs (drop n body) (poke (iov_base v) (take n body) mem).
Proof. reflexivity. Qed.

Lemma nn_flags_pass flags f w :
  flags_pass flags f -> nn_flags flags w = Some (f, w) /\ (f =? -1) = false.
Proof.
  intros [Hf Hcase]. split; [|by apply Z.eqb_neq].
  unfold nn_flags. destruct Hcase as [[-> ->]|(Hnz & Hd & ->)]; [done|].
  apply Z.eqb_neq in Hnz. rewrite Hnz. apply Z.eqb_eq in Hd. by rewrite Hd.
Qed.

(** One turn of the copy loop on a buffer that can be filled. *)
Lemma recvmsg_copyout_step msg m iov count i pos w v :
  w_heap w !! msg = Some m ->
  (pos <= length (msg_body m))%nat ->
  iov !! i = Some v ->
  fixed_buffer (w_mem w) v ->
  let n := Z.to_nat (Z.min (Z.of_nat (length (drop pos (msg_body m))))
                           (iov_len v)) in
  recvmsg_copyout msg iov (S count) i
    (Ptr (BodyBlk msg) (Z.of_nat (msg_start m) + Z.of_nat pos))
    (Z.of_nat (length (msg_body m)) - Z.of_nat pos) w
  = recvmsg_copyout msg iov count (S i)
      (Ptr (BodyBlk msg) (Z.of_nat (msg_start m) + Z.of_nat (pos + n)))
      (Z.of_nat (length (msg_body m)) - Z.of_nat (pos + n))
      (set_mem (poke (iov_base v) (take n (drop pos (msg_body m))) (w_mem w))
         w)
  /\ (pos + n <= length (msg_body m))%nat.
Proof.
  intros E Hpos Hi [Hv Hn] n0.
  cbn [recvmsg_copyout]. rewrite bind_run. unfold lift at 1. rewrite Hi.
  apply Z.eqb_neq in Hn. rewrite Hn.
  set (len := Z.of_nat (length (msg_body m)) - Z.of_nat pos).
  set (n := if len <? iov_len v then len else iov_len v).
  assert (0 <= iov_len v) as Hcap.
  { unfold user_buffer in Hv. destruct (iov_base v) as [| |[b| |] off]; try done.
    destruct (w_mem w !! b); [lia|done]. }
  assert (n = Z.of_nat n0) as Hnmin.
  { unfold n, n0, len. rewrite length_drop.
    destruct (Z.ltb_spec (Z.of_nat (length (msg_body m)) - Z.of_nat pos)
                (iov_len v)); lia. }
  assert (pos + n0 <= length (msg_body m))%nat as Hnle.
  { unfold n0. rewrite length_drop. lia. }
  split; [|done].
  rewrite bind_run. unfold memcpy. rewrite bind_run.
  rewrite (load_body msg m _ _ (take n0 (drop pos (msg_body m))) w E).
  2:{ unfold msg_chunk, msg_start. rewrite Hnmin. by apply rd_body. }
  rewrite (store_user _ _ (w_mem w)); [|done|].
  2:{ unfold user_buffer in *. cbn [iov_base iov_len].
      destruct (iov_base v) as [| |[b| |] off]; try done.
      destruct (w_mem w !! b); [|done].
      rewrite length_take, length_drop.
      assert (Z.of_nat n0 <= iov_len v) by (unfold n0; lia). lia. }
  cbn [ptr_add].
  replace (Z.of_nat (msg_start m) + Z.of_nat pos + n)
    with (Z.of_nat (msg_start m) + Z.of_nat (pos + n0)) by lia.
  replace (len - n)
    with (Z.of_nat (length (msg_body m)) - Z.of_nat (pos + n0))
    by (unfold len; lia).
  done.
Qed.

Lemma fixed_buffer_poke mem p data v :
  fixed_buffer mem v -> fixed_buffer (poke p data mem) v.
Proof. intros [? ?]; split; [by apply user_buffer_poke|done]. Qed.

(** The whole loop, when every buffer can be filled. *)
Lemma recvmsg_copyout_run msg m iov bufs : forall i pos w,
  w_heap w !! msg = Some m ->
  (pos <= length (msg_body m))%nat ->
  (forall j v, bufs !! j = Some v -> iov !! (i + j)%nat = Some v) ->
  Forall (fixed_buffer (w_mem w)) bufs ->
  recvmsg_copyout msg iov (length bufs) i
    (Ptr (BodyBlk msg) (Z.of_nat (msg_start m) + Z.of_nat pos))
    (Z.of_nat (length (msg_body m)) - Z.of_nat pos) w
  = Some (Next tt,
          set_mem (scatter bufs (drop pos (msg_body m)) (w_mem w)) w).
Proof.
  induction bufs as [|v bufs IH]; intros i pos w E Hpos Hbufs Hok.
  - cbn. by destruct w.
  - assert (iov !! i = Some v) as Hi.
    { rewrite <- (Nat.add_0_r i). by apply Hbufs. }
    apply Forall_cons in Hok as [Hv Hok].
    cbn [length].
    destruct (recvmsg_copyout_step msg m iov (length bufs)
                i pos w v E Hpos Hi Hv) as [-> Hle].
    rewrite scatter_cons. cbv zeta. rewrite IH.
    + rewrite drop_drop. done.
    + done.
    + done.
    + intros j v' Hj. replace (S i + j)%nat with (i + S j)%nat by lia.
      by apply Hbufs.
    + cbn [w_mem set_mem]. eapply Forall_impl; [exact Hok|].
      intros. by apply fixed_buffer_poke.
Qed.

(** The loop, when a buffer of sentinel length follows buffers that
    can be filled. *)
Lemma recvmsg_copyout_sentinel msg m iov bufs v : forall count i pos w,
  w_heap w !! msg = Some m ->
  (pos <= length (msg_body m))%nat ->
  (forall j v, bufs !! j = Some v -> iov !! (i + j)%nat = Some v) ->
  Forall (fixed_buffer (w_mem w)) bufs ->
  iov !! (i + length bufs)%nat = Some v -> iov_len v = NN_MSG ->
  (length bufs < count)%nat ->
  recvmsg_copyout msg iov count i
    (Ptr (BodyBlk msg) (Z.of_nat (msg_start m) + Z.of_nat pos))
    (Z.of_nat (length (msg_body m)) - Z.of_nat pos) w
  = (nn_seterror NNG_EINVAL;; nng_msg_free msg;; mret (Return (-1)))
      (set_mem (scatter bufs (drop pos (msg_body m)) (w_mem w)) w).
Proof.
  induction bufs as [|v0 bufs IH]; intros count i pos w E Hpos Hbufs Hok Hv Hs Hc.
  - destruct count as [|count]; [cbn in Hc; lia|].
    cbn [recvmsg_copyout]. rewrite bind_run. unfold lift at 1.
    cbn [length] in Hv. rewrite Nat.add_0_r in Hv. rewrite Hv.
    apply Z.eqb_eq in Hs. rewrite Hs. cbn [scatter]. by destruct w.
  - destruct count as [|count]; [cbn in Hc; lia|].
    assert (iov !! i = Some v0) as Hi.
    { rewrite <- (Nat.add_0_r i). by apply Hbufs. }
    apply Forall_cons in Hok as [Hv0 Hok].
    destruct (recvmsg_copyout_step msg m iov count
                i pos w v0 E Hpos Hi Hv0) as [-> Hle].
    rewrite scatter_cons. cbv zeta. cbn [length] in Hv, Hc. rewrite IH.
    + rewrite drop_drop. done.
    + done.
    + done.
    + intros j v' Hj. replace (S i + j)%nat with (i + S j)%nat by lia.
      by apply Hbufs.
    + cbn [w_mem set_mem]. eapply Forall_impl; [exact Hok|].
      intros. by apply fixed_buffer_poke.
    + by replace (S i + length bufs)%nat with (i + S (length bufs))%nat by lia.
    + done.
    + lia.
Qed.

Lemma to_int_small z : 0 <= z < 2 ^ 31 -> to_int z = z.
Proof.
  intros Hz. unfold to_int, to_signed. rewrite Z.mod_small by lia.
  by rewrite (proj2 (Z.ltb_lt _ _)) by lia.
Qed.

Lemma take_lookup_prefix {A} (l : list A) n :
  forall j v, take n l !! j = Some v -> l !! (0 + j)%nat = Some v.
Proof.
  intros j v Hj. cbn. destruct (decide (j < n)%nat).
  - by rewrite lookup_take_lt in Hj.
  - rewrite lookup_take_ge in Hj by lia. done.
Qed.

Lemma wants_dynamic_fixed mh w :
  let bufs := take (Z.to_nat (msg_iovlen mh)) (msg_iov mh) in
  length bufs = Z.to_nat (msg_iovlen mh) ->
  Forall (fixed_buffer (w_mem w)) bufs ->
  wants_dynamic mh w = Some (false, w).
Proof.
  intros bufs Hlen Hok. unfold wants_dynamic.
  destruct (Z.eqb_spec (msg_iovlen mh) 1) as [E1|]; [|done].
  subst bufs. rewrite E1 in Hlen, Hok.
  destruct (msg_iov mh) as [|v rest]; [done|].
  rewrite bind_run. cbn. cbn in Hok. apply Forall_cons in Hok as [[_ Hn] _].
  apply Z.eqb_neq in Hn. by rewrite Hn.
Qed.

Lemma recvmsg_fixed_run msg m mh w :
  let bufs := take (Z.to_nat (msg_iovlen mh)) (msg_iov mh) in
  w_heap w !! msg = Some m ->
  length bufs = Z.to_nat (msg_iovlen mh) ->
  Forall (fixed_buffer (w_mem w)) bufs ->
  recvmsg_fixed msg mh w
  = Some (Next (msg_len m, false),
          set_mem (scatter bufs (msg_body m) (w_mem w)) w).
Proof.
  intros bufs E Hlen Hok. unfold recvmsg_fixed.
  rewrite bind_run, (nng_msg_body_live msg m) by done.
  rewrite bind_run, (nng_msg_len_live msg m) by done.
  rewrite bind_run. rewrite <- Hlen. unfold msg_len.
  pose proof (recvmsg_copyout_run msg m (msg_iov mh) bufs 0 0 w E) as Hrun.
  rewrite Z.add_0_r, Z.sub_0_r in Hrun. rewrite Hrun; clear Hrun.
  - rewrite bind_run, (nng_msg_len_live msg m) by done. done.
  - lia.
  - apply take_lookup_prefix.
  - done.
Qed.

Lemma pieces_concat caps : forall body,
  Forall (fun c => 0 <= c) caps ->
  concat (pieces caps body) = take (Z.to_nat (foldr Z.add 0 caps)) body.
Proof.
  induction caps as [|c caps IH]; intros body Hcaps; [done|].
  apply Forall_cons in Hcaps as [Hc Hcaps].
  cbn [pieces concat foldr]. rewrite IH by done.
  assert (0 <= foldr Z.add 0 caps) as Hsum.
  { clear -Hcaps. induction Hcaps; cbn; lia. }
  destruct (Z.le_gt_cases (Z.of_nat (length body)) c) as [Hle|Hgt].
  - rewrite Z.min_l, Nat2Z.id by done.
    rewrite drop_all, take_nil, app_nil_r.
    rewrite !take_ge by lia. done.
  - rewrite Z.min_r by lia.
    rewrite Z2Nat.inj_add by lia. by rewrite take_take_drop.
Qed.

Lemma poke_other p data mem b :
  (forall off, p <> Ptr (UserBlk b) off) -> poke p data mem !! b = mem !! b.
Proof.
  intros Hne. unfold poke. destruct p as [| |[b'| |] off]; try done.
  destruct (mem !! b') eqn:E; [|done]. destruct (wr off data l); [|done].
  rewrite lookup_insert_ne; [done|]. intros ->. by apply (Hne off).
Qed.

Lemma scatter_other bufs : forall body mem b,
  Some b ∉ buffer_block <$> bufs -> scatter bufs body mem !! b = mem !! b.
Proof.
  induction bufs as [|v bufs IH]; intros body mem b Hb; [done|].
  rewrite scatter_cons. cbv zeta. rewrite fmap_cons, not_elem_of_cons in Hb.
  destruct Hb as [Hv Hb]. rewrite IH by done. apply poke_other.
  intros off E. apply Hv. unfold buffer_block. by rewrite E.
Qed.

Lemma scatter_lookup bufs : forall body mem i v b off cs piece,
  NoDup (buffer_block <$> bufs) ->
  bufs !! i = Some v -> iov_base v = Ptr (UserBlk b) off ->
  mem !! b = Some cs ->
  user_buffer mem v ->
  pieces (iov_len <$> bufs) body !! i = Some piece ->
  scatter bufs body mem !! b
  = Some (take (Z.to_nat off) cs ++ piece
          ++ drop (Z.to_nat off + length piece) cs).
Proof.
  induction bufs as [|v0 bufs IH]; intros body mem i v b off cs piece
    Hnd Hi Hbase Hcs Hv Hp; [done|].
  rewrite fmap_cons in Hnd. apply NoDup_cons in Hnd as [Hv0 Hnd].
  rewrite scatter_cons. cbv zeta. destruct i as [|i]; cbn in Hi, Hp.
  - simplify_eq. rewrite scatter_other.
    2:{ unfold buffer_block in Hv0 at 1. by rewrite Hbase in Hv0. }
    unfold poke. rewrite Hbase, Hcs.
    unfold user_buffer in Hv. rewrite Hbase, Hcs in Hv.
    unfold wr.
    rewrite (proj2 (Z.leb_le 0 off)) by lia.
    rewrite (proj2 (Z.leb_le _ _)).
    2:{ rewrite length_take. lia. }
    cbn [andb]. by rewrite lookup_insert_eq.
  - assert (buffer_block v = Some b) as Hblk
      by (unfold buffer_block; by rewrite Hbase).
    assert (forall off0, iov_base v0 <> Ptr (UserBlk b) off0) as Hne.
    { intros off0 E. apply Hv0. apply list_elem_of_fmap.
      exists v. split; [|by eapply list_elem_of_lookup_2].
      unfold buffer_block at 1. rewrite E. done. }
    apply (IH _ _ i v b off cs piece); try done.
    + by rewrite poke_other.
    + by apply user_buffer_poke.
Qed.

(** The control block returns from the function only when the message
    for the control data cannot be allocated. *)
Lemma recvmsg_control_inv msg mh w z w' :
  recvmsg_control msg mh w = Some (Return z, w') ->
  z = -1 /\ msg_control mh <> Null /\ msg_controllen mh = NN_MSG.
Proof.
  unfold recvmsg_control. destruct (decide (msg_control mh = Null)) as [|Hnn].
  { unfold mret, M_ret. intros; simplify_eq. }
  rewrite bind_run.
  destruct (nng_msg_header_len msg w) as [[hlen w0]|]; [|done].
  rewrite bind_run.
  destruct (Z.eqb_spec (msg_controllen mh) NN_MSG) as [Hs|Hs].
  - rewrite bind_run, nng_msg_alloc_run.
    destruct (answer w0 =? 0); cbv zeta beta iota.
    + rewrite bind_run. destruct (nng_msg_body _ _) as [[b w1]|]; [|done].
      rewrite bind_run. destruct (store_ptr b _ w1) as [[[] w2]|]; [|done].
      rewrite bind_run. destruct (nng_msg_trim _ _ w2) as [[rv w3]|]; [|done].
      rewrite bind_run. destruct (nng_msg_body _ w3) as [[cdata w4]|]; [|done].
      rewrite bind_run. destruct (store_ptr _ cdata w4) as [[[] w5]|]; [|done].
      unfold mret at 1, M_ret at 1. cbv beta iota.
      destruct (_ <=? _); [|by unfold mret, M_ret; intros; simplify_eq].
      rewrite bind_run. destruct (nng_msg_header_len msg w5) as [[h1 w6]|]; [|done].
      rewrite bind_run. destruct (store cdata _ w6) as [[[] w7]|]; [|done].
      rewrite bind_run. destruct (nng_msg_header msg w7) as [[src w8]|]; [|done].
      rewrite bind_run. destruct (nng_msg_header_len msg w8) as [[h2 w9]|]; [|done].
      rewrite bind_run. destruct (memcpy _ _ _ w9) as [[[] w10]|]; [|done].
      unfold mret, M_ret. intros; simplify_eq.
    + rewrite bind_run. destruct (nng_msg_free msg _) as [[[] w1]|]; [|done].
      rewrite bind_run. destruct (nn_seterror_total (answer w0) w1) as [e ->].
      unfold mret, M_ret. cbv beta iota. intros; simplify_eq. done.
  - rewrite bind_run. destruct (store _ _ w0) as [[[] w1]|]; [|done].
    unfold mret at 1, M_ret at 1. cbv beta iota.
    destruct (_ <=? _); [|by unfold mret, M_ret; intros; simplify_eq].
    rewrite bind_run. destruct (nng_msg_header_len msg w1) as [[h1 w6]|]; [|done].
    rewrite bind_run. destruct (store _ _ w6) as [[[] w7]|]; [|done].
    rewrite bind_run. destruct (nng_msg_header msg w7) as [[src w8]|]; [|done].
    rewrite bind_run. destruct (nng_msg_header_len msg w8) as [[h2 w9]|]; [|done].
    rewrite bind_run. destruct (memcpy _ _ _ w9) as [[[] w10]|]; [|done].
    unfold mret, M_ret. intros; simplify_eq.
Qed.

(** nn_recvmsg up to the control information, when the buffers are
    fixed ones. *)
Lemma nn_recvmsg_fixed_prefix s mh flags f w :
  let bufs := take (Z.to_nat (msg_iovlen mh)) (msg_iov mh) in
  let m := arriving w in
  let msg := fresh (dom (w_heap w)) in
  flags_pass flags f ->
  0 <= msg_iovlen mh -> length bufs = Z.to_nat (msg_iovlen mh) ->
  Forall (fixed_buffer (w_mem w)) bufs ->
  answer w = 0 ->
  nn_recvmsg s (Some mh) flags w
  = (c ← recvmsg_control msg mh;
     match c with
     | Return z => mret z
     | Next _ => nng_msg_free msg;; mret (to_int (msg_len m))
     end)
      (set_mem (scatter bufs (msg_body m) (w_mem w))
         (set_heap (<[msg := m]> (w_heap w))
            (arrived (logged (E_recvmsg s f 0) (answered w))))).
Proof.
  intros bufs m msg Hf Hcount Hlen Hok Ha.
  unfold nn_recvmsg. rewrite bind_run.
  destruct (nn_flags_pass flags f w Hf) as [-> ->].
  rewrite (proj2 (Z.ltb_ge _ _)) by lia.
  rewrite bind_run, nng_recvmsg_run, Ha. cbn [Z.eqb]. cbv zeta beta iota.
  fold msg. fold m.
  set (w1 := set_heap _ _).
  assert (w_heap w1 !! msg = Some m) as E1 by apply lookup_insert_eq.
  rewrite bind_run, (wants_dynamic_fixed mh w1) by done.
  cbv beta iota.
  rewrite bind_run, (recvmsg_fixed_run msg m mh w1) by done.
  cbv beta iota. reflexivity.
Qed.

(** C7: nn_recvmsg with fixed buffers.  The flags are accepted, the
    count is not negative, the first [msg_iovlen] buffers are buffers
    of the caller none of which has the sentinel length, the native
    receive succeeds and delivers a message [m] whose body has a
    length [L] that an [int] can hold.  Then:
    - without a control buffer the call returns [L], the original
      length, and the caller's memory is the one [scatter] describes:
      the buffers, in order, have received the [pieces] of the body,
      each min (remaining, capacity) long; the message is freed;
    - when the buffers lie in distinct blocks, buffer [i] holds its
      piece where it starts and its old contents after it;
    - the pieces together are the body cut off at the summed capacity:
      the excess is dropped;
    - with a control buffer the length returned is still [L], unless
      the message for dynamic control data cannot be allocated. *)
Theorem C7_recvmsg_fixed_buffers s mh flags f w :
  let bufs := take (Z.to_nat (msg_iovlen mh)) (msg_iov mh) in
  let m := arriving w in
  let parts := pieces (iov_len <$> bufs) (msg_body m) in
  flags_pass flags f ->
  0 <= msg_iovlen mh -> length bufs = Z.to_nat (msg_iovlen mh) ->
  Forall (fixed_buffer (w_mem w)) bufs ->
  answer w = 0 ->
  msg_len m < 2 ^ 31 ->
  (msg_control mh = Null ->
   exists msg w',
     nn_recvmsg s (Some mh) flags w = Some (msg_len m, w') /\
     w_mem w' = scatter bufs (msg_body m) (w_mem w) /\
     w_heap w' = w_heap w /\
     w_errno w' = w_errno w /\
     w_log w' = w_log w ++ [E_recvmsg s f 0; E_msg_free msg]) /\
  (NoDup (buffer_block <$> bufs) ->
   forall i v b off cs piece,
     bufs !! i = Some v -> iov_base v = Ptr (UserBlk b) off ->
     w_mem w !! b = Some cs -> parts !! i = Some piece ->
     scatter bufs (msg_body m) (w_mem w) !! b
     = Some (take (Z.to_nat off) cs ++ piece
             ++ drop (Z.to_nat off + length piece) cs)) /\
  concat parts
  = take (Z.to_nat (foldr Z.add 0 (iov_len <$> bufs))) (msg_body m) /\
  (forall r w',
     nn_recvmsg s (Some mh) flags w = Some (r, w') ->
     r = msg_len m \/
     (r = -1 /\ msg_control mh <> Null /\ msg_controllen mh = NN_MSG)).
Proof.
  intros bufs m parts Hf Hcount Hlen Hok Ha HL.
  pose proof (nn_recvmsg_fixed_prefix s mh flags f w Hf Hcount Hlen Hok Ha)
    as Hrun. cbv zeta in Hrun. fold bufs m in Hrun.
  set (msg := fresh (dom (w_heap w))) in *.
  assert (w_heap w !! msg = None) as Hfresh
    by (apply not_elem_of_dom, is_fresh).
  assert (to_int (msg_len m) = msg_len m) as Hint
    by (apply to_int_small; unfold msg_len in *; lia).
  split; [|split; [|split]].
  - intros Hctl. exists msg. eexists. split; [|split; [|split; [|split]]].
    + rewrite Hrun, bind_run. unfold recvmsg_control.
      rewrite decide_True by done. unfold mret at 1, M_ret at 1.
      cbv beta iota. rewrite bind_run.
      rewrite (nng_msg_free_run msg m) by apply lookup_insert_eq.
      unfold mret, M_ret. rewrite Hint. reflexivity.
    + done.
    + cbn. by rewrite delete_insert_eq, delete_id.
    + done.
    + cbn. by rewrite <- app_assoc.
  - intros Hnd i v b off cs piece Hi Hbase Hcs Hp.
    apply (scatter_lookup bufs _ _ i v); try done.
    by destruct (Forall_lookup_1 _ _ _ _ Hok Hi).
  - apply pieces_concat. subst bufs.
    eapply Forall_fmap, Forall_impl; [exact Hok|].
    intros v [Hv _]. unfold user_buffer in Hv. cbn.
    destruct (iov_base v) as [| |[b| |] off]; try done.
    destruct (w_mem w !! b); [lia|done].
  - intros r w'. rewrite Hrun, bind_run.
    destruct (recvmsg_control msg mh _) as [[[z|[]] w2]|] eqn:Ec; [| |done].
    + apply recvmsg_control_inv in Ec as (-> & ? & ?).
      unfold mret, M_ret. intros; simplify_eq. by right.
    + rewrite bind_run. destruct (nng_msg_free msg w2) as [[[] w3]|]; [|done].
      unfold mret, M_ret. intros; simplify_eq. left. done.
Qed.

Lemma set_errno_same w : set_errno (w_errno w) w = w.
Proof. by destruct w. Qed.

(** Both calls check the flags, the descriptor and the count before
    anything else. *)
Lemma negative_count_rejected (body : Z -> nn_msghdr -> M Z) mh flags w :
  codes_distinct -> msg_iovlen mh < 0 ->
  exists e,
    (flags ← nn_flags flags;
     if flags =? -1 then mret (-1)
     else if msg_iovlen mh <? 0 then nn_seterror NNG_EMSGSIZE;; mret (-1)
          else body flags mh) w = Some (-1, set_errno e w) /\
    (forall f, flags_pass flags f -> e = EMSGSIZE).
Proof.
  intros Hd Hneg. apply Z.ltb_lt in Hneg.
  rewrite bind_run. unfold nn_flags.
  destruct (Z.eqb_spec flags 0) as [->|Hnz].
  - cbn. rewrite Hneg, bind_run, nn_seterror_EMSGSIZE by done. eauto.
  - destruct (Z.eqb_spec flags NN_DONTWAIT) as [->|Hnd].
    + unfold mret at 1, M_ret at 1.
      destruct (Z.eqb_spec NNG_FLAG_NONBLOCK (-1)) as [Em|Hm].
      * exists (w_errno w). rewrite set_errno_same. split; [done|].
        intros f [Hf [[? ?]|(_ & _ & ->)]]; done.
      * rewrite Hneg, bind_run, nn_seterror_EMSGSIZE by done. eauto.
    + rewrite bind_run, nn_seterror_EINVAL by done. cbn.
      exists EINVAL. split; [done|]. intros f [Hf [[? ?]|(_ & ? & _)]]; done.
Qed.

Lemma nn_recvmsg_negative_count s mh flags w :
  codes_distinct -> msg_iovlen mh < 0 ->
  exists e, nn_recvmsg s (Some mh) flags w = Some (-1, set_errno e w) /\
            (forall f, flags_pass flags f -> e = EMSGSIZE).
Proof.
  intros Hd Hneg.
  destruct (negative_count_rejected
              (fun _ _ => mret 0) mh flags w Hd Hneg) as (e & He & Hf).
  exists e. split; [|done]. revert He. unfold nn_recvmsg.
  rewrite !bind_run. destruct (nn_flags flags w) as [[f w1]|]; [|done].
  destruct (f =? -1); [done|].
  by rewrite (proj2 (Z.ltb_lt _ _) Hneg).
Qed.

Lemma nn_sendmsg_negative_count s mh flags w :
  codes_distinct -> msg_iovlen mh < 0 ->
  exists e, nn_sendmsg s (Some mh) flags w = Some (-1, set_errno e w) /\
            (forall f, flags_pass flags f -> e = EMSGSIZE).
Proof.
  intros Hd Hneg.
  destruct (negative_count_rejected
              (fun _ _ => mret 0) mh flags w Hd Hneg) as (e & He & Hf).
  exists e. split; [|done]. revert He. unfold nn_sendmsg.
  rewrite !bind_run. destruct (nn_flags flags w) as [[f w1]|]; [|done].
  destruct (f =? -1); [done|].
  by rewrite (proj2 (Z.ltb_lt _ _) Hneg).
Qed.

(** C3, amended: a negative buffer count makes nn_recvmsg and
    nn_sendmsg fail at once, nothing having been asked of the native
    layer (only errno changes; it is EMSGSIZE when the flags are
    accepted).  A buffer of sentinel length among several buffers makes
    nn_recvmsg fail with EINVAL, but only after the native receive has
    been made: the message received is freed and the buffers before
    the offending one have been filled. *)
Theorem C3_malformed_descriptor s mh flags w :
  codes_distinct ->
  (msg_iovlen mh < 0 ->
   exists e e',
     nn_recvmsg s (Some mh) flags w = Some (-1, set_errno e w) /\
     nn_sendmsg s (Some mh) flags w = Some (-1, set_errno e' w) /\
     (forall f, flags_pass flags f -> e = EMSGSIZE /\ e' = EMSGSIZE)) /\
  (forall f k v,
     flags_pass flags f -> answer w = 0 ->
     1 < msg_iovlen mh -> (k < Z.to_nat (msg_iovlen mh))%nat ->
     msg_iov mh !! k = Some v -> iov_len v = NN_MSG ->
     Forall (fixed_buffer (w_mem w)) (take k (msg_iov mh)) ->
     exists msg w',
       nn_recvmsg s (Some mh) flags w = Some (-1, w') /\
       w_errno w' = EINVAL /\
       w_log w' = w_log w ++ [E_recvmsg s f 0; E_msg_free msg] /\
       w_heap w' = w_heap w /\
       w_mem w' = scatter (take k (msg_iov mh)) (msg_body (arriving w))
                    (w_mem w)).
Proof.
  intros Hd. split.
  - intros Hneg.
    destruct (nn_recvmsg_negative_count s mh flags w Hd Hneg) as (e & He & Hf).
    destruct (nn_sendmsg_negative_count s mh flags w Hd Hneg)
      as (e' & He' & Hf').
    exists e, e'. split; [done|]. split; [done|]. intros f Hfp. split; eauto.
  - intros f k v Hf Ha Hmulti Hk Hv Hs Hok.
    set (m := arriving w). set (msg := fresh (dom (w_heap w))).
    assert (w_heap w !! msg = None) as Hfresh
      by (apply not_elem_of_dom, is_fresh).
    exists msg. eexists. split; [|split; [|split; [|split]]].
    + unfold nn_recvmsg. rewrite bind_run.
      destruct (nn_flags_pass flags f w Hf) as [-> ->].
      rewrite (proj2 (Z.ltb_ge _ _)) by lia.
      rewrite bind_run, nng_recvmsg_run, Ha. cbn [Z.eqb]. cbv zeta beta iota.
      fold msg. fold m.
      set (w1 := set_heap _ _).
      assert (w_heap w1 !! msg = Some m) as E1 by apply lookup_insert_eq.
      rewrite bind_run. unfold wants_dynamic.
      rewrite (proj2 (Z.eqb_neq _ _)) by lia.
      unfold mret at 1, M_ret at 1. cbv beta iota.
      rewrite bind_run. unfold recvmsg_fixed.
      rewrite bind_run, (nng_msg_body_live msg m) by done.
      rewrite bind_run, (nng_msg_len_live msg m) by done.
      rewrite bind_run. unfold msg_len.
      pose proof (recvmsg_copyout_sentinel msg m (msg_iov mh)
                    (take k (msg_iov mh)) v (Z.to_nat (msg_iovlen mh)) 0 0 w1 E1)
        as Hrun.
      rewrite Z.add_0_r, Z.sub_0_r in Hrun. rewrite Hrun; clear Hrun.
      * rewrite bind_run, nn_seterror_EINVAL by done.
        rewrite bind_run, (nng_msg_free_run msg m) by done.
        reflexivity.
      * lia.
      * apply take_lookup_prefix.
      * done.
      * rewrite length_take_le; [done|]. apply lookup_lt_Some in Hv. lia.
      * done.
      * rewrite length_take_le; [done|]. apply lookup_lt_Some in Hv. lia.
    + done.
    + cbn. by rewrite <- app_assoc.
    + cbn. by rewrite delete_insert_eq, delete_id.
    + done.
Qed.

End Receive.

(** ** Scatter/gather send *)

Lemma same_but_refl msg w : same_but msg w w.
Proof. by split. Qed.

Lemma same_but_trans msg w w1 w2 :
  same_but msg w w1 -> same_but msg w1 w2 -> same_but msg w w2.
Proof.
  intros [Hm1 Hh1] [Hm2 Hh2]. split; [congruence|].
  intros h Hne. by rewrite Hh2, Hh1.
Qed.

Lemma load_same_but msg p n cs w w1 :
  same_but msg w w1 -> w_heap w !! msg = None ->
  load p n w = Some (cs, w) -> load p n w1 = Some (cs, w1).
Proof.
  intros [Hm Hh] Hfresh. unfold load. destruct p as [| |b off]; try done.
  assert (forall cs0, block_cells b w = Some cs0 -> block_cells b w1 = Some cs0)
    as Hb.
  { intros cs0. destruct b as [u|h|h]; cbn; [by rewrite Hm| |];
      (destruct (decide (h = msg)) as [->|Hne];
       [by rewrite Hfresh|by rewrite Hh]). }
  destruct (block_cells b w) as [cs0|]; [|done].
  rewrite (Hb cs0 eq_refl). destruct (rd off n cs0); [|done].
  by intros; simplify_eq.
Qed.

Lemma load_world p n cs w w1 : load p n w = Some (cs, w1) -> w1 = w.
Proof.
  unfold load. destruct p as [| |b off]; try done.
  destruct (block_cells b w); [|done]. destruct (rd off n l); [|done].
  by intros; simplify_eq.
Qed.

Lemma load_length p n cs w w1 :
  load p n w = Some (cs, w1) -> Z.of_nat (length cs) = n /\ 0 <= n.
Proof.
  unfold load. destruct p as [| |b off]; try done.
  destruct (block_cells b w) as [cs0|]; [|done]. unfold rd.
  destruct (_ && _) eqn:Eb; [|done]. intros; simplify_eq.
  apply andb_true_iff in Eb as [Eb H3]. apply andb_true_iff in Eb as [H1 H2].
  apply Z.leb_le in H1, H2, H3.
  rewrite length_take, length_drop. lia.
Qed.

Lemma load_ptr_world p v w w1 : load_ptr p w = Some (v, w1) -> w1 = w.
Proof.
  unfold load_ptr. rewrite bind_run.
  destruct (load p sizeof_ptr w) as [[cs w2]|] eqn:E; [|done].
  apply load_world in E as ->. unfold lift.
  destruct (cells_ptr cs); [|done]. by intros; simplify_eq.
Qed.

Lemma load_handle_world p h w w1 : load_handle p w = Some (h, w1) -> w1 = w.
Proof.
  unfold load_handle. rewrite bind_run.
  destruct (load_ptr p w) as [[v w2]|] eqn:E; [|done].
  apply load_ptr_world in E as ->.
  destruct v; try done. unfold mret, M_ret. by intros; simplify_eq.
Qed.

Lemma load_ptr_same_but msg p v w w1 :
  same_but msg w w1 -> w_heap w !! msg = None ->
  load_ptr p w = Some (v, w) -> load_ptr p w1 = Some (v, w1).
Proof.
  intros Hs Hfresh. unfold load_ptr. rewrite !bind_run.
  destruct (load p sizeof_ptr w) as [[cs w2]|] eqn:E; [|done].
  pose proof (load_world _ _ _ _ _ E) as ->.
  rewrite (load_same_but msg _ _ _ w w1 Hs Hfresh E).
  unfold lift. destruct (cells_ptr cs); [|done]. by intros; simplify_eq.
Qed.

Lemma load_handle_same_but msg p h w w1 :
  same_but msg w w1 -> w_heap w !! msg = None ->
  load_handle p w = Some (h, w) -> load_handle p w1 = Some (h, w1).
Proof.
  intros Hs Hfresh. unfold load_handle. rewrite !bind_run.
  destruct (load_ptr p w) as [[v w2]|] eqn:E; [|done].
  pose proof (load_ptr_world _ _ _ _ E) as ->.
  rewrite (load_ptr_same_but msg _ _ w w1 Hs Hfresh E).
  destruct v; try done. unfold mret, M_ret. by intros; simplify_eq.
Qed.

Lemma store_body_same_but msg off data w w1 :
  store (Ptr (BodyBlk msg) off) data w = Some (tt, w1) ->
  same_but msg w w1 /\ w_log w1 = w_log w /\
  (is_Some (w_heap w !! msg) -> is_Some (w_heap w1 !! msg)).
Proof.
  unfold store. cbn [block_cells].
  destruct (w_heap w !! msg) as [m|] eqn:E; [|done]. cbn.
  destruct (wr off data (msg_chunk m)); [|done].
  unfold set_block. rewrite E. intros; simplify_eq. split; [|split].
  - split; [done|]. intros h Hne. cbn. by rewrite lookup_insert_ne.
  - done.
  - intros _. cbn. rewrite lookup_insert_eq. eauto.
Qed.

Section Send.
Context `{!nng_h, !errno_h, !nng_compat_h}.

Lemma sendmsg_gather_same_but iov msg : forall count i off w w1,
  sendmsg_gather iov count i (Ptr (BodyBlk msg) off) w = Some (tt, w1) ->
  same_but msg w w1 /\ w_log w1 = w_log w /\
  (is_Some (w_heap w !! msg) -> is_Some (w_heap w1 !! msg)).
Proof.
  induction count as [|count IH]; intros i off w w1.
  - cbn. unfold mret, M_ret. intros; simplify_eq.
    split; [apply same_but_refl|done].
  - cbn [sendmsg_gather]. rewrite bind_run. unfold lift at 1.
    destruct (iov !! i) as [v|]; [|done].
    rewrite bind_run. unfold memcpy. rewrite bind_run.
    destruct (load (iov_base v) (iov_len v) w) as [[cs w2]|] eqn:El; [|done].
    apply load_world in El as ->.
    destruct (store (Ptr (BodyBlk msg) off) cs w) as [[[] w2]|] eqn:Es; [|done].
    apply store_body_same_but in Es as (Hs & Hl & Hv).
    cbn [ptr_add]. intros Hrest. apply IH in Hrest as (Hs' & Hl' & Hv').
    split; [by eapply same_but_trans|]. split; [congruence|auto].
Qed.

Lemma live_inv h m w w1 : live h w = Some (m, w1) -> w_heap w !! h = Some m /\ w1 = w.
Proof. unfold live. destruct (w_heap w !! h); [|done]. by intros; simplify_eq. Qed.

Lemma nng_msg_free_inv h w w2 :
  nng_msg_free h w = Some (tt, w2) ->
  is_Some (w_heap w !! h) /\
  w2 = set_heap (delete h (w_heap w)) (logged (E_msg_free h) w).
Proof.
  unfold nng_msg_free. rewrite bind_run, log_run, bind_run.
  destruct (live h (logged (E_msg_free h) w)) as [[m w1]|] eqn:E; [|done].
  apply live_inv in E as [E ->]. unfold modify. intros; simplify_eq.
  split; [by eexists|done].
Qed.

Lemma nng_msg_len_inv h n w w1 :
  nng_msg_len h w = Some (n, w1) ->
  exists m, w_heap w !! h = Some m /\ n = msg_len m /\ w1 = w.
Proof.
  unfold nng_msg_len. rewrite bind_run.
  destruct (live h w) as [[m w2]|] eqn:E; [|done].
  apply live_inv in E as [E ->]. unfold mret, M_ret. intros; simplify_eq. eauto.
Qed.

Lemma nng_sendmsg_inv s msg f rv w w2 :
  nng_sendmsg s msg f w = Some (rv, w2) ->
  is_Some (w_heap w !! msg) /\
  ((rv <> 0 /\ w2 = logged (E_sendmsg s msg f rv) (answered w)) \/
   (rv = 0 /\
    w2 = set_heap (delete msg (w_heap w))
           (logged (E_sendmsg s msg f 0) (answered w)))).
Proof.
  unfold nng_sendmsg. rewrite bind_run.
  destruct (live msg w) as [[m w1]|] eqn:E; [|done].
  apply live_inv in E as [E ->].
  rewrite bind_run, next_rv_run, bind_run, log_run.
  destruct (Z.eqb_spec (answer w) 0) as [Ha|Ha].
  - rewrite bind_run. unfold modify, mret, M_ret. intros; simplify_eq.
    split; [by eexists|]. right. rewrite Ha. done.
  - unfold mret, M_ret. intros; simplify_eq. split; [by eexists|]. by left.
Qed.

Lemma nng_msg_append_header_inv msg src n rv w w2 :
  nng_msg_append_header msg src n w = Some (rv, w2) ->
  exists m, w_heap w !! msg = Some m /\
  ((rv <> 0 /\ w2 = logged (E_msg_append_header msg rv) (answered w)) \/
   (rv = 0 /\ exists data,
      w2 = set_heap (<[msg := {| msg_header := msg_header m ++ data;
                                 msg_room := msg_room m;
                                 msg_body := msg_body m |}]> (w_heap w))
             (logged (E_msg_append_header msg 0) (answered w)))).
Proof.
  unfold nng_msg_append_header. rewrite bind_run. intros Hrun.
  destruct (live msg w) as [[m w1]|] eqn:E; [|done].
  apply live_inv in E as [E ->]. exists m. split; [done|].
  revert Hrun. rewrite bind_run, next_rv_run, bind_run, log_run.
  destruct (Z.eqb_spec (answer w) 0) as [Ha|Ha].
  - rewrite bind_run.
    destruct (load src n _) as [[data w1]|] eqn:El; [|done].
    apply load_world in El as ->. rewrite bind_run. unfold live.
    cbn [w_heap logged answered set_log set_rvs]. rewrite E.
    rewrite bind_run. unfold put_msg, modify, mret, M_ret.
    intros; simplify_eq. right. split; [done|]. exists data. by rewrite Ha.
  - unfold mret, M_ret. intros; simplify_eq. by left.
Qed.

Lemma harmless_refl c w : harmless c [] w w.
Proof. split; [by rewrite app_nil_r|]. intros cm E. by exists cm. Qed.

Lemma harmless_trans c e1 e2 w w1 w2 :
  harmless c e1 w w1 -> harmless c e2 w1 w2 -> harmless c (e1 ++ e2) w w2.
Proof.
  intros [Hl1 Hc1] [Hl2 Hc2]. split; [by rewrite Hl2, Hl1, app_assoc|].
  intros cm E. destruct (Hc1 cm E) as (cm1 & E1 & [? ?]).
  destruct (Hc2 cm1 E1) as (cm2 & E2 & [? ?]).
  exists cm2. split; [done|]. split; congruence.
Qed.

Lemma harmless_errno c e w : harmless c [] w (set_errno e w).
Proof. split; [by rewrite app_nil_r|]. intros cm E. by exists cm. Qed.

Lemma nn_seterror_harmless c rv w u w1 :
  nn_seterror rv w = Some (u, w1) -> harmless c [] w w1.
Proof.
  destruct (nn_seterror_total rv w) as [e ->]. intros; simplify_eq.
  apply harmless_errno.
Qed.

Lemma nn_flags_inv flags f w w0 :
  nn_flags flags w = Some (f, w0) ->
  w0 = w \/ (f = -1 /\ exists e, w0 = set_errno e w).
Proof.
  unfold nn_flags.
  destruct (flags =? 0); [by unfold mret, M_ret; intros; simplify_eq; left|].
  destruct (flags =? NN_DONTWAIT);
    [by unfold mret, M_ret; intros; simplify_eq; left|].
  rewrite bind_run. destruct (nn_seterror_total NNG_EINVAL w) as [e ->].
  unfold mret, M_ret. intros; simplify_eq. right. eauto.
Qed.

Lemma sendmsg_size_world iov : forall count i sz w r w1,
  sendmsg_size iov count i sz w = Some (r, w1) -> w1 = w.
Proof.
  induction count as [|count IH]; intros i sz w r w1.
  - cbn. unfold mret, M_ret. by intros; simplify_eq.
  - cbn [sendmsg_size]. rewrite bind_run. unfold lift at 1.
    destruct (iov !! i); [|done]. apply IH.
Qed.

Lemma wants_dynamic_world mh w d w1 :
  wants_dynamic mh w = Some (d, w1) -> w1 = w.
Proof.
  unfold wants_dynamic. destruct (msg_iovlen mh =? 1).
  - rewrite bind_run. unfold lift. destruct (msg_iov mh !! 0%nat); [|done].
    unfold mret, M_ret. by intros; simplify_eq.
  - unfold mret, M_ret. by intros; simplify_eq.
Qed.

(** What lines 473-497 leave behind. *)
Lemma sendmsg_message_inv mh w g w1 :
  sendmsg_message mh w = Some (g, w1) ->
  (exists sz rv, g = Return (-1) /\ rv <> 0 /\
     forall c, harmless c [E_msg_alloc sz rv] w w1) \/
  (exists msg, g = Next (msg, true) /\ w1 = w) \/
  (exists msg sz, g = Next (msg, false) /\
     w_heap w !! msg = None /\ is_Some (w_heap w1 !! msg) /\
     same_but msg w w1 /\ w_log w1 = w_log w ++ [E_msg_alloc sz 0]).
Proof.
  unfold sendmsg_message. rewrite bind_run.
  destruct (wants_dynamic mh w) as [[d w0]|] eqn:Ed; [|done].
  apply wants_dynamic_world in Ed as ->. destruct d.
  - rewrite bind_run. unfold lift at 1.
    destruct (msg_iov mh !! 0%nat) as [v|]; [|done].
    rewrite bind_run.
    destruct (load_handle _ w) as [[msg w0]|] eqn:El; [|done].
    apply load_handle_world in El as ->.
    unfold mret, M_ret. intros; simplify_eq. right; left. eauto.
  - rewrite bind_run.
    destruct (sendmsg_size _ _ _ _ w) as [[sz w0]|] eqn:Es; [|done].
    apply sendmsg_size_world in Es as ->.
    rewrite bind_run, nng_msg_alloc_run.
    destruct (Z.eqb_spec (answer w) 0) as [Ha|Ha]; cbv zeta beta iota.
    + set (msg := fresh (dom (w_heap w))).
      assert (w_heap w !! msg = None) as Hfresh
        by (apply not_elem_of_dom, is_fresh).
      rewrite bind_run.
      erewrite nng_msg_body_live by (cbn; apply lookup_insert_eq).
      rewrite bind_run.
      destruct (sendmsg_gather _ _ _ _ _) as [[[] w2]|] eqn:Eg; [|done].
      apply sendmsg_gather_same_but in Eg as ([Hm Hh] & Hl & Hv).
      unfold mret, M_ret. intros; simplify_eq. right; right.
      exists msg, sz. split; [done|]. split; [done|]. split; [|split].
      * apply Hv. cbn. rewrite lookup_insert_eq. eauto.
      * split; [done|]. intros h Hne. rewrite Hh by done. cbn.
        by rewrite lookup_insert_ne.
      * rewrite Hl. done.
    + rewrite bind_run.
      destruct (nn_seterror_total (answer w)
                  (logged (E_msg_alloc sz (answer w)) (answered w))) as [e ->].
      unfold mret, M_ret. intros; simplify_eq. left.
      exists sz, (answer w). split; [done|]. split; [done|].
      intros c. split; [done|]. intros cm E. by exists cm.
Qed.

Lemma free_other_harmless c msg w w2 :
  msg <> c -> nng_msg_free msg w = Some (tt, w2) ->
  harmless c [E_msg_free msg] w w2.
Proof.
  intros Hne Hf. apply nng_msg_free_inv in Hf as [_ ->]. split; [done|].
  intros cm E. exists cm. split; [|done]. cbn. by rewrite lookup_delete_ne.
Qed.

(** Lines 512-534, once [cmsg] is known to be [c]. *)
Lemma sendmsg_finish c cm s f msg keep cdata clen w r w' :
  w_heap w !! c = Some cm ->
  (keep = false -> msg <> c) ->
  (c' ← (rv ← nng_msg_append_header msg cdata clen;
         if negb (rv =? 0) then
           (if keep then mret tt else nng_msg_free msg);;
           nn_seterror rv;;
           mret (Return (-1))
         else mret (Next (Some c)));
   match c' with
   | Return z => mret z
   | Next cmsg =>
       sz ← nng_msg_len msg;
       rv ← nng_sendmsg s msg f;
       if negb (rv =? 0) then
         (if keep : bool then mret tt else nng_msg_free msg);;
         nn_seterror rv;;
         mret (-1)
       else
         match cmsg with
         | Some cm => nng_msg_free cm
         | None => mret tt
         end;;
         mret (to_int sz)
   end) w = Some (r, w') ->
  exists evs, w_log w' = w_log w ++ evs /\
    ((r = -1 /\ not_released c evs /\
      exists cm', w_heap w' !! c = Some cm' /\ intact cm cm') \/
     (released_after_send c s evs /\ w_heap w' !! c = None)).
Proof.
  intros Ec Hkeep. rewrite bind_run, bind_run.
  destruct (nng_msg_append_header msg cdata clen w) as [[rv w1]|] eqn:Ea;
    [|done].
  apply nng_msg_append_header_inv in Ea as (m & Em & Ha).
  (* the clean-up of a failure: the message is freed unless kept *)
  assert (forall w1 w2 u,
            ((if keep then mret tt else nng_msg_free msg) w1 = Some (u, w2)) ->
            exists evs, harmless c evs w1 w2 /\ not_released c evs) as Hclean.
  { intros wa wb u. destruct keep.
    - unfold mret, M_ret. intros; simplify_eq. exists []. split.
      + apply harmless_refl.
      + split; [|intros ? ? ?]; not_in.
    - destruct u. intros Hf. exists [E_msg_free msg]. split.
      + apply free_other_harmless; auto.
      + specialize (Hkeep eq_refl). split; [|intros ? ? ?]; not_in. }
  destruct Ha as [[Hrv ->]|[-> (data & ->)]].
  - (* the header could not be appended *)
    apply Z.eqb_neq in Hrv as Hrv'. rewrite Hrv'. cbn [negb].
    rewrite !bind_run.
    destruct ((if keep then mret () else nng_msg_free msg) _)
      as [[u w2]|] eqn:Ek; [|done].
    destruct (Hclean _ _ _ Ek) as (evs & [Hl Hc] & [Hn1 Hn2]).
    cbv beta iota. rewrite ?bind_run.
    destruct (nn_seterror_total rv w2) as [e ->].
    unfold mret, M_ret. intros; simplify_eq.
    exists (E_msg_append_header msg rv :: evs). split.
    { cbn. rewrite Hl. cbn. by rewrite <- app_assoc. }
    left. split; [done|]. split.
    + split.
      * rewrite elem_of_cons. intros [?|?]; [done|by apply Hn1].
      * intros s' h' f'. rewrite elem_of_cons.
        intros [?|?]; [done|by eapply Hn2].
    + destruct (Hc cm) as (cm' & ? & ?); [done|]. by exists cm'.
  - (* the header is appended *)
    cbn [Z.eqb negb]. unfold mret at 1, M_ret at 1.
    cbv beta iota. rewrite bind_run.
    set (w1 := set_heap _ _).
    assert (exists cm1, w_heap w1 !! c = Some cm1 /\ intact cm cm1)
      as (cm1 & Ec1 & Hi1).
    { subst w1. cbn. destruct (decide (msg = c)) as [->|Hne].
      - rewrite lookup_insert_eq. eexists. split; [done|].
        rewrite Ec in Em. by simplify_eq.
      - rewrite lookup_insert_ne by done. by exists cm. }
    destruct (nng_msg_len msg w1) as [[sz w2]|] eqn:El; [|done].
    apply nng_msg_len_inv in El as (m1 & _ & _ & ->).
    rewrite bind_run.
    destruct (nng_sendmsg s msg f w1) as [[rv w2]|] eqn:Es; [|done].
    apply nng_sendmsg_inv in Es as [_ [[Hrv ->]|[-> ->]]].
    + (* the send failed *)
      apply Z.eqb_neq in Hrv as Hrv'. rewrite Hrv'. cbn [negb].
      rewrite !bind_run.
      destruct ((if keep then mret () else nng_msg_free msg) _)
        as [[u w2]|] eqn:Ek; [|done].
      destruct (Hclean _ _ _ Ek) as (evs & [Hl Hc] & [Hn1 Hn2]).
      cbv beta iota. rewrite ?bind_run.
      destruct (nn_seterror_total rv w2) as [e ->].
      unfold mret, M_ret. intros; simplify_eq.
      exists (E_msg_append_header msg 0 :: E_sendmsg s msg f rv :: evs).
      split.
      { cbn. rewrite Hl. cbn. by rewrite <- !app_assoc. }
      left. split; [done|]. split.
      * split.
        -- rewrite !elem_of_cons. intros [?|[?|?]]; [done|done|by apply Hn1].
        -- intros s' h' f'. rewrite !elem_of_cons.
           intros [?|[?|?]]; [done|by simplify_eq|by eapply Hn2].
      * destruct (Hc cm1) as (cm' & ? & [? ?]); [done|].
        exists cm'. split; [done|]. destruct Hi1. split; congruence.
    + (* the send succeeded *)
      cbn [Z.eqb negb]. rewrite bind_run.
      destruct (nng_msg_free c _) as [[[] w2]|] eqn:Ef; [|done].
      apply nng_msg_free_inv in Ef as [_ ->].
      unfold mret, M_ret. intros; simplify_eq.
      exists [E_msg_append_header msg 0; E_sendmsg s msg f 0; E_msg_free c].
      split.
      { cbn. by rewrite <- !app_assoc. }
      right. split.
      * exists [E_msg_append_header msg 0], msg, f. split; [done|].
        split; [|intros ? ? ? ?]; not_in.
      * cbn. apply lookup_delete_eq.
Qed.

Lemma sendmsg_size_run iov bufs : forall i sz w,
  (forall j v, bufs !! j = Some v -> iov !! (i + j)%nat = Some v) ->
  sendmsg_size iov (length bufs) i sz w
  = Some (foldl (fun a v => size_add a (iov_len v)) sz bufs, w).
Proof.
  induction bufs as [|v bufs IH]; intros i sz w Hbufs; [done|].
  cbn [length sendmsg_size foldl]. rewrite bind_run. unfold lift at 1.
  pose proof (Hbufs 0%nat v eq_refl) as Hhd. rewrite Nat.add_0_r in Hhd.
  rewrite Hhd.
  apply IH. intros j v' Hj. replace (S i + j)%nat with (i + S j)%nat by lia.
  by apply Hbufs.
Qed.

Lemma size_sum_exact bufs : forall sz,
  0 <= sz -> Forall (fun v => 0 <= iov_len v) bufs ->
  sz + foldr Z.add 0 (iov_len <$> bufs) < SIZE_MOD ->
  foldl (fun a v => size_add a (iov_len v)) sz bufs
  = sz + foldr Z.add 0 (iov_len <$> bufs).
Proof.
  induction bufs as [|v bufs IH]; intros sz Hsz Hpos Hsum; [cbn; lia|].
  apply Forall_cons in Hpos as [Hv Hpos]. cbn [foldl fmap list_fmap foldr] in *.
  assert (0 <= foldr Z.add 0 (iov_len <$> bufs)) as Hrest.
  { clear -Hpos. induction Hpos; cbn; lia. }
  rewrite size_add_small by lia. rewrite IH; [lia|lia|done|lia].
Qed.

Lemma sendmsg_gather_defined iov msg w0 bufs : forall i off w,
  w_heap w0 !! msg = None -> same_but msg w0 w ->
  (forall j v, bufs !! j = Some v -> iov !! (i + j)%nat = Some v) ->
  Forall (readable w0) bufs ->
  0 <= off ->
  (exists m, w_heap w !! msg = Some m /\ msg_room m = [] /\
     off + foldr Z.add 0 (iov_len <$> bufs) <= Z.of_nat (length (msg_body m))) ->
  exists w1,
    sendmsg_gather iov (length bufs) i (Ptr (BodyBlk msg) off) w = Some (tt, w1).
Proof.
  induction bufs as [|v bufs IH]; intros i off w Hfresh Hs Hbufs Hrd Hoff Hm.
  - cbn. eauto.
  - apply Forall_cons in Hrd as [[cs Hv] Hrd].
    destruct Hm as (m & Em & Hroom & Hfit).
    cbn [length sendmsg_gather]. rewrite bind_run. unfold lift at 1.
    pose proof (Hbufs 0%nat v eq_refl) as Hhd. rewrite Nat.add_0_r in Hhd.
    rewrite Hhd.
    rewrite bind_run. unfold memcpy. rewrite bind_run.
    rewrite (load_same_but msg _ _ _ w0 w Hs Hfresh Hv).
    destruct (load_length _ _ _ _ _ Hv) as [Hlen Hpos].
    assert (0 <= foldr Z.add 0 (iov_len <$> bufs)) as Hrest.
    { clear -Hrd. induction Hrd as [|v' l [cs' Hv'] _ IH']; cbn; [lia|].
      destruct (load_length _ _ _ _ _ Hv'). lia. }
    cbn [fmap list_fmap foldr] in Hfit.
    assert (exists cs', wr off cs (msg_chunk m) = Some cs' /\
                        length cs' = length (msg_body m)) as (cs' & Hwr & Hl').
    { unfold wr, msg_chunk. rewrite Hroom. cbn [app].
      rewrite (proj2 (Z.leb_le 0 off)) by done.
      rewrite (proj2 (Z.leb_le _ _)) by lia. cbn [andb].
      eexists. split; [done|].
      rewrite !length_app, length_take, length_drop. lia. }
    rewrite (store_body msg m off cs cs' w Em Hwr).
    cbn [ptr_add]. apply IH.
    + done.
    + eapply same_but_trans; [exact Hs|]. split; [done|].
      intros h Hne. cbn. by rewrite lookup_insert_ne.
    + intros j v' Hj. replace (S i + j)%nat with (i + S j)%nat by lia.
      by apply Hbufs.
    + done.
    + lia.
    + eexists. split; [cbn; apply lookup_insert_eq|].
      unfold msg_start. rewrite Hroom. cbn [length take drop msg_room msg_body].
      rewrite take_0, drop_0. split; [done|]. rewrite Hl'. lia.
Qed.

Lemma nng_msg_append_header_run msg m src n data w :
  w_heap w !! msg = Some m ->
  load src n w = Some (data, w) ->
  nng_msg_append_header msg src n w =
  if answer w =? 0 then
    Some (0, set_heap (<[msg := {| msg_header := msg_header m ++ data;
                                   msg_room := msg_room m;
                                   msg_body := msg_body m |}]> (w_heap w))
               (logged (E_msg_append_header msg 0) (answered w)))
  else Some (answer w, logged (E_msg_append_header msg (answer w)) (answered w)).
Proof.
  intros Em Hl. unfold nng_msg_append_header. rewrite bind_run.
  unfold live at 1. rewrite Em.
  rewrite bind_run, next_rv_run, bind_run, log_run.
  destruct (Z.eqb_spec (answer w) 0) as [Ha|Ha]; [|done].
  rewrite Ha, bind_run.
  rewrite (load_same_memory src n data w w
             (logged (E_msg_append_header msg 0) (answered w)) eq_refl eq_refl Hl).
  rewrite bind_run. unfold live.
  cbn [w_heap logged answered set_log set_rvs]. rewrite Em. done.
Qed.

Lemma nng_sendmsg_run s msg m f w :
  w_heap w !! msg = Some m ->
  nng_sendmsg s msg f w =
  if answer w =? 0 then
    Some (0, set_heap (delete msg (w_heap w))
               (logged (E_sendmsg s msg f 0) (answered w)))
  else Some (answer w, logged (E_sendmsg s msg f (answer w)) (answered w)).
Proof.
  intros Em. unfold nng_sendmsg. rewrite bind_run. unfold live. rewrite Em.
  rewrite bind_run, next_rv_run, bind_run, log_run.
  destruct (Z.eqb_spec (answer w) 0) as [Ha|Ha]; [|done]. by rewrite Ha.
Qed.

(** Lines 512-534 return. *)
Lemma sendmsg_finish_returns c cm s f msg keep cdata w :
  w_heap w !! c = Some cm ->
  is_Some (w_heap w !! msg) -> msg <> c ->
  readable w {| iov_base := cdata; iov_len := msg_len cm |} ->
  exists r w',
  (c' ← (rv ← nng_msg_append_header msg cdata (msg_len cm);
         if negb (rv =? 0) then
           (if keep then mret tt else nng_msg_free msg);;
           nn_seterror rv;;
           mret (Return (-1))
         else mret (Next (Some c)));
   match c' with
   | Return z => mret z
   | Next cmsg =>
       sz ← nng_msg_len msg;
       rv ← nng_sendmsg s msg f;
       if negb (rv =? 0) then
         (if keep : bool then mret tt else nng_msg_free msg);;
         nn_seterror rv;;
         mret (-1)
       else
         match cmsg with
         | Some cm => nng_msg_free cm
         | None => mret tt
         end;;
         mret (to_int sz)
   end) w = Some (r, w').
Proof.
  intros Ec [m Em] Hne [data Hd]. cbn [iov_base iov_len] in Hd.
  (* the clean-up of a failure returns *)
  assert (forall w1, is_Some (w_heap w1 !! msg) ->
            exists w2, (if keep then mret tt else nng_msg_free msg) w1
                       = Some (tt, w2)) as Hclean.
  { intros w1 [m1 E1]. destruct keep; [by eexists|].
    rewrite (nng_msg_free_run msg m1) by done. by eexists. }
  rewrite bind_run, bind_run.
  rewrite (nng_msg_append_header_run msg m cdata _ data) by done.
  destruct (Z.eqb_spec (answer w) 0) as [Ha|Ha].
  - (* the header is appended *)
    cbn [Z.eqb negb]. unfold mret at 1, M_ret at 1. cbv beta iota.
    set (w1 := set_heap _ _).
    assert (exists m1, w_heap w1 !! msg = Some m1) as [m1 E1]
      by (eexists; subst w1; cbn; apply lookup_insert_eq).
    assert (w_heap w1 !! c = Some cm) as Ec1
      by (subst w1; cbn; by rewrite lookup_insert_ne).
    rewrite bind_run, (nng_msg_len_live msg m1) by done.
    rewrite bind_run, (nng_sendmsg_run s msg m1) by done.
    destruct (Z.eqb_spec (answer w1) 0) as [Hb|Hb].
    + cbn [Z.eqb negb]. rewrite bind_run.
      rewrite (nng_msg_free_run c cm)
        by (cbn [w_heap set_heap]; by rewrite lookup_delete_ne).
      by eexists _, _.
    + apply Z.eqb_neq in Hb as Hb'. rewrite Hb'. cbn [negb].
      rewrite !bind_run.
      destruct (Hclean (logged (E_sendmsg s msg f (answer w1)) (answered w1)))
        as [w2 ->]; [by eexists|].
      cbv beta iota. rewrite ?bind_run.
      destruct (nn_seterror_total (answer w1) w2) as [e ->].
      by eexists _, _.
  - apply Z.eqb_neq in Ha as Ha'. rewrite Ha'. cbn [negb].
    rewrite !bind_run.
    destruct (Hclean (logged (E_msg_append_header msg (answer w)) (answered w)))
      as [w2 ->]; [by eexists|].
    cbv beta iota. rewrite ?bind_run.
    destruct (nn_seterror_total (answer w) w2) as [e ->].
    by eexists _, _.
Qed.

Lemma readable_same_but msg w w1 v :
  same_but msg w w1 -> w_heap w !! msg = None ->
  readable w v -> readable w1 v.
Proof.
  intros Hs Hfresh [cs Hv]. exists cs. by eapply load_same_but.
Qed.

(** nn_sendmsg returns on a descriptor it can read whose control data
    is the dynamic message [c]. *)
Lemma nn_sendmsg_returns s mh flags w c cm cdata :
  msg_controllen mh = NN_MSG ->
  load_ptr (msg_control mh) w = Some (cdata, w) ->
  load_handle (ptr_add cdata (- sizeof_ptr)) w = Some (c, w) ->
  w_heap w !! c = Some cm ->
  readable w {| iov_base := cdata; iov_len := msg_len cm |} ->
  sendable w mh c ->
  exists r w', nn_sendmsg s (Some mh) flags w = Some (r, w').
Proof.
  intros Hlen Hp Hc Ec Hcd (Hcount & Hbufs & Hcase).
  assert (msg_control mh <> Null) as Hnn.
  { intros E. rewrite E in Hp. done. }
  apply Z.eqb_eq in Hlen.
  unfold nn_sendmsg. rewrite bind_run.
  destruct (nn_flags flags w) as [[f w0]|] eqn:Ef.
  2:{ revert Ef. unfold nn_flags. destruct (flags =? 0); [done|].
      destruct (flags =? NN_DONTWAIT); [done|]. rewrite bind_run.
      by destruct (nn_seterror_total NNG_EINVAL w) as [e ->]. }
  apply nn_flags_inv in Ef as [Hw|[-> [e Hw]]]; subst w0.
  2:{ cbn. by eexists _, _. }
  destruct (f =? -1); [by eexists _, _|].
  rewrite (proj2 (Z.ltb_ge _ _)) by done.
  rewrite bind_run. unfold sendmsg_message. rewrite bind_run.
  destruct Hcase as [(v & msg & Hone & Hv & Hmsg & Hlive & Hne)|[Hrd Hsum]].
  - (* the message is the caller's *)
    assert (msg_iovlen mh = 1) as Hn1 by (rewrite Hone in Hbufs; cbn in Hbufs; lia).
    assert (msg_iov mh !! 0%nat = Some v) as Hfst.
    { rewrite Hn1 in Hone. change (Z.to_nat 1) with 1%nat in Hone.
      destruct (msg_iov mh); cbn in Hone; [done|]. by simplify_eq. }
    unfold wants_dynamic. rewrite Hn1. cbn [Z.eqb Pos.eqb].
    rewrite bind_run. unfold lift at 1. rewrite Hfst.
    unfold mret at 1, M_ret at 1. rewrite Hv, Z.eqb_refl.
    cbv beta iota. rewrite bind_run. unfold lift at 1. cbv beta iota.
    rewrite bind_run, Hmsg. unfold mret at 1, M_ret at 1.
    cbv beta iota. unfold sendmsg_control. rewrite decide_False by done.
    rewrite Hlen.
    rewrite bind_run, bind_run, bind_run, Hp. cbv beta iota.
    rewrite bind_run, Hc. cbv beta iota.
    rewrite bind_run, (nng_msg_len_live c cm) by done.
    unfold mret at 1, M_ret at 1. cbv beta iota.
    by apply (sendmsg_finish_returns c cm s f msg true cdata w).
  - (* the message is gathered from the buffers *)
    set (bufs := take (Z.to_nat (msg_iovlen mh)) (msg_iov mh)) in *.
    assert (forall j v, bufs !! j = Some v -> msg_iov mh !! (0 + j)%nat = Some v)
      as Hidx.
    { intros j v Hj. subst bufs. apply lookup_take_Some in Hj as [Hj _]. done. }
    assert (wants_dynamic mh w = Some (false, w)) as ->.
    { unfold wants_dynamic. destruct (msg_iovlen mh =? 1) eqn:E1; [|done].
      apply Z.eqb_eq in E1. rewrite E1 in Hbufs.
      destruct bufs as [|v bufs'] eqn:Eb; [done|].
      pose proof (Hidx 0%nat v eq_refl) as Hfst. cbn in Hfst.
      rewrite bind_run. unfold lift. rewrite Hfst.
      apply Forall_cons in Hrd as [[_ Hv] _].
      apply Z.eqb_neq in Hv. unfold mret, M_ret. by rewrite Hv. }
    cbv beta iota. rewrite bind_run, <- Hbufs.
    rewrite (sendmsg_size_run _ bufs 0 0 w Hidx).
    assert (Forall (fun v => 0 <= iov_len v) bufs) as Hpos.
    { eapply Forall_impl; [exact Hrd|]. intros v [[cs Hv] _].
      by destruct (load_length _ _ _ _ _ Hv). }
    rewrite (size_sum_exact bufs 0) by (done || lia).
    set (sz := 0 + _).
    rewrite bind_run, nng_msg_alloc_run.
    destruct (Z.eqb_spec (answer w) 0) as [Ha|Ha]; cbv zeta beta iota.
    + set (msg := fresh (dom (w_heap w))).
      assert (w_heap w !! msg = None) as Hfresh
        by (apply not_elem_of_dom, is_fresh).
      assert (msg <> c) as Hne by (intros ->; by rewrite Ec in Hfresh).
      rewrite bind_run.
      erewrite nng_msg_body_live by (cbn; apply lookup_insert_eq).
      rewrite bind_run. cbn [msg_start fresh_msg msg_room length Z.of_nat].
      set (w0 := set_heap _ _).
      assert (same_but msg w w0) as Hs0.
      { split; [done|]. intros h Hh. subst w0. cbn. by rewrite lookup_insert_ne. }
      destruct (sendmsg_gather_defined (msg_iov mh) msg w bufs 0 0 w0)
        as [w1 Hg]; [done|done|done| |lia| |].
      { eapply Forall_impl; [exact Hrd|]. by intros v [? _]. }
      { exists (fresh_msg sz). split; [subst w0; cbn; apply lookup_insert_eq|].
        split; [done|]. cbn [fresh_msg msg_body]. rewrite zeros_length.
        assert (0 <= foldr Z.add 0 (iov_len <$> bufs)).
        { clear -Hpos. induction Hpos; cbn; lia. }
        subst sz. lia. }
      change (Z.of_nat 0) with 0. rewrite Hg.
      unfold mret at 1, M_ret at 1. cbv beta iota.
      apply sendmsg_gather_same_but in Hg as (Hs1 & _ & Hv1).
      assert (same_but msg w w1) as Hs by (by eapply same_but_trans).
      assert (w_heap w1 !! c = Some cm) as Ec1.
      { destruct Hs as [_ Hh]. by rewrite Hh. }
      unfold sendmsg_control. rewrite decide_False by done. rewrite Hlen.
      rewrite bind_run, bind_run, bind_run.
      rewrite (load_ptr_same_but msg _ _ w w1 Hs Hfresh Hp). cbv beta iota.
      rewrite bind_run.
      rewrite (load_handle_same_but msg _ _ w w1 Hs Hfresh Hc). cbv beta iota.
      rewrite bind_run, (nng_msg_len_live c cm) by done.
      unfold mret at 1, M_ret at 1. cbv beta iota.
      apply (sendmsg_finish_returns c cm s f msg false cdata w1); try done.
      * apply Hv1. subst w0. cbn. rewrite lookup_insert_eq. eauto.
      * by eapply readable_same_but.
    + rewrite bind_run.
      destruct (nn_seterror_total (answer w)
                  (logged (E_msg_alloc sz (answer w)) (answered w))) as [e ->].
      by eexists _, _.
Qed.
(** C8: the control data of the descriptor is a dynamic message: its
    length is the sentinel, [msg_control] points to a pointer [cdata]
    and the hidden word before [cdata] holds the handle [c] of a live
    message.  nn_sendmsg returns when the body of [c] can be read at
    [cdata] and the descriptor can be read.  Whenever it returns,
    either it has failed and the native calls it made neither free [c]
    nor include a successful send, and [c] is still live with its
    hidden word and body as they were; or its native calls end with
    the successful send followed at once by the release of [c], and no
    earlier call frees [c] or sends. *)
Theorem C8_control_envelope s mh flags w c cm cdata :
  msg_controllen mh = NN_MSG ->
  load_ptr (msg_control mh) w = Some (cdata, w) ->
  load_handle (ptr_add cdata (- sizeof_ptr)) w = Some (c, w) ->
  w_heap w !! c = Some cm ->
  (readable w {| iov_base := cdata; iov_len := msg_len cm |} ->
   sendable w mh c ->
   exists r w', nn_sendmsg s (Some mh) flags w = Some (r, w')) /\
  (forall r w', nn_sendmsg s (Some mh) flags w = Some (r, w') ->
   exists evs, w_log w' = w_log w ++ evs /\
     ((r = -1 /\ not_released c evs /\
       exists cm', w_heap w' !! c = Some cm' /\ intact cm cm') \/
      (released_after_send c s evs /\ w_heap w' !! c = None))).
Proof.
  intros Hlen Hp Hc Ec.
  split; [intros; by eapply nn_sendmsg_returns|]. intros r w'.
  assert (forall e, exists evs, w_log (set_errno e w) = w_log w ++ evs /\
    ((-1 = -1 /\ not_released c evs /\
      exists cm', w_heap (set_errno e w) !! c = Some cm' /\ intact cm cm') \/
     (released_after_send c s evs /\ w_heap (set_errno e w) !! c = None)))
    as Hearly.
  { intros e. exists []. split; [by rewrite app_nil_r|]. left.
    split; [done|]. split; [split; [|intros ? ? ?]; not_in|by exists cm]. }
  unfold nn_sendmsg. rewrite bind_run.
  destruct (nn_flags flags w) as [[f w0]|] eqn:Ef; [|done].
  apply nn_flags_inv in Ef as [Hw|[-> [e Hw]]]; subst w0.
  2:{ cbn. unfold mret, M_ret. intros Hrun. injection Hrun as <- <-.
      apply Hearly. }
  destruct (f =? -1).
  { unfold mret, M_ret. intros Hrun. injection Hrun as <- <-.
    rewrite <- (set_errno_same w). apply Hearly. }
  destruct (msg_iovlen mh <? 0).
  { rewrite bind_run. destruct (nn_seterror_total NNG_EMSGSIZE w) as [e ->].
    unfold mret, M_ret. intros Hrun. injection Hrun as <- <-. apply Hearly. }
  rewrite bind_run.
  destruct (sendmsg_message mh w) as [[g w1]|] eqn:Eg; [|done].
  assert (msg_control mh <> Null) as Hnn.
  { intros E. rewrite E in Hp. done. }
  apply sendmsg_message_inv in Eg
    as [(sz & rv & -> & Hrv & Hh)|[(msg & -> & ->)|(msg & sz & -> & Hfresh & Hlive & Hs & Hl)]].
  - (* the message could not be allocated *)
    unfold mret, M_ret. intros Hrun. injection Hrun as <- <-.
    destruct (Hh c) as [Hl Hcm]. exists [E_msg_alloc sz rv]. split; [done|].
    left. split; [done|]. split; [split; [|intros ? ? ?]; not_in|].
    destruct (Hcm cm Ec) as (cm' & ? & ?). by exists cm'.
  - (* the message is the caller's *)
    cbv beta iota. unfold sendmsg_control. rewrite decide_False by done.
    apply Z.eqb_eq in Hlen. rewrite Hlen.
    rewrite bind_run, bind_run, bind_run, Hp. cbv beta iota.
    rewrite bind_run, Hc. cbv beta iota.
    rewrite bind_run, (nng_msg_len_live c cm) by done.
    unfold mret at 1, M_ret at 1. cbv beta iota.
    intros Hrun.
    by eapply (sendmsg_finish c cm s f msg true cdata (msg_len cm) w r w').
  - (* the message is a fresh one *)
    assert (msg <> c) as Hne by (intros ->; by rewrite Ec in Hfresh).
    assert (w_heap w1 !! c = Some cm) as Ec1.
    { destruct Hs as [_ Hh]. by rewrite Hh. }
    cbv beta iota. unfold sendmsg_control. rewrite decide_False by done.
    apply Z.eqb_eq in Hlen. rewrite Hlen.
    rewrite bind_run, bind_run, bind_run.
    rewrite (load_ptr_same_but msg _ _ w w1 Hs Hfresh Hp). cbv beta iota.
    rewrite bind_run.
    rewrite (load_handle_same_but msg _ _ w w1 Hs Hfresh Hc). cbv beta iota.
    rewrite bind_run, (nng_msg_len_live c cm) by done.
    unfold mret at 1, M_ret at 1. cbv beta iota.
    intros Hrun.
    destruct (sendmsg_finish c cm s f msg false cdata (msg_len cm) w1 r w'
                Ec1 (fun _ => Hne) Hrun) as (evs & Hl' & Hcase).
    exists (E_msg_alloc sz 0 :: evs). split.
    { rewrite Hl', Hl. by rewrite <- app_assoc. }
    destruct Hcase as [(-> & [Hn1 Hn2] & Hcm)|[(evs0 & m' & f' & -> & Hn1 & Hn2) Hgone]].
    + left. split; [done|]. split; [|done]. split.
      * rewrite elem_of_cons. intros [?|?]; [done|by apply Hn1].
      * intros s' h' f'. rewrite elem_of_cons.
        intros [?|?]; [done|by eapply Hn2].
    + right. split; [|done].
      exists (E_msg_alloc sz 0 :: evs0), m', f'. split; [done|]. split.
      * rewrite elem_of_cons. intros [?|?]; [done|by apply Hn1].
      * intros s' h' f'' rv'. rewrite elem_of_cons.
        intros [?|?]; [done|by eapply Hn2].
Qed.
End Send.

(** ** The option translator *)

Section Options.
Context `{!nng_h, !errno_h, !nng_compat_h}.

Lemma surveyor_level_unsupported nnopt :
  levels_distinct -> setsockopt_switch NN_SURVEYOR nnopt = None.
Proof.
  unfold levels_distinct. rewrite !NoDup_cons, !elem_of_cons.
  intros (Ha & Hb & Hc & _). unfold setsockopt_switch.
  destruct (Z.eqb_spec NN_SURVEYOR NN_SOL_SOCKET); [naive_solver|].
  destruct (Z.eqb_spec NN_SURVEYOR NN_REQ); [naive_solver|].
  destruct (Z.eqb_spec NN_SURVEYOR NN_SUB); [naive_solver|].
  rewrite Z.eqb_refl. by destruct (nnopt =? NN_SURVEY_DEADLINE).
Qed.

(** C1 does not hold of the code: the case NN_SURVEYOR lacks the break
    after its inner switch, so that for the survey deadline, as for
    every option of that level, nn_setsockopt fails with ENOPROTOOPT
    and forwards nothing. *)
Theorem C1_survey_deadline_unsupported s valp sz w :
  levels_distinct ->
  nn_setsockopt s NN_SURVEYOR NN_SURVEY_DEADLINE valp sz w
  = Some (-1, set_errno ENOPROTOOPT w).
Proof.
  intros Hd. unfold nn_setsockopt.
  by rewrite surveyor_level_unsupported.
Qed.

Lemma read_int_le_bytes v :
  - 2 ^ 31 <= v < 2 ^ 31 -> read_int (le_bytes 4 v) = Some v.
Proof.
  intros Hv. unfold read_int.
  rewrite decide_True by (rewrite le_bytes_length; done).
  rewrite take_ge by (rewrite le_bytes_length; done).
  rewrite le_value_le_bytes. f_equal. by apply (to_signed_small 32).
Qed.

Lemma usec_bytes v :
  le_bytes 8 ((v mod 2 ^ 64 * 1000) mod 2 ^ 64) = le_bytes 8 (v * 1000).
Proof.
  change (2 ^ 64) with (256 ^ Z.of_nat 8).
  rewrite le_bytes_mod, <- (le_bytes_mod 8 (_ * 1000)),
    Z.mul_mod_idemp_l, le_bytes_mod by done. done.
Qed.

(** C4: for every level and option that the switch translates with the
    millisecond conversion set, nn_setsockopt fails with EINVAL and
    forwards nothing when the size of the value is not that of an
    [int]; when it is and the value is the [int] [v], the native
    set-option call is made once, with 8 bytes that are [v * 1000] as
    a 64-bit quantity (two's complement, little-endian). *)
Theorem C4_millisecond_conversion s nnlevel nnopt opt valp sz w :
  setsockopt_switch nnlevel nnopt = Some (opt, true) ->
  (sz <> sizeof_int ->
   nn_setsockopt s nnlevel nnopt valp sz w = Some (-1, set_errno EINVAL w)) /\
  (forall v, - 2 ^ 31 <= v < 2 ^ 31 -> sz = sizeof_int -> valp = le_bytes 4 v ->
   exists w',
     nn_setsockopt s nnlevel nnopt valp sz w
     = Some (if answer w =? 0 then 0 else -1, w') /\
     w_log w' = w_log w ++ [E_setopt s opt (le_bytes 8 (v * 1000))
                              sizeof_uint64 (answer w)] /\
     length (le_bytes 8 (v * 1000)) = Z.to_nat sizeof_uint64 /\
     to_signed 64 (le_value (le_bytes 8 (v * 1000))) = v * 1000).
Proof.
  intros Hsw. split.
  - intros Hsz. unfold nn_setsockopt. rewrite Hsw.
    apply Z.eqb_neq in Hsz. unfold mbind, M_bind; simpl. by rewrite Hsz.
  - intros v Hv -> ->.
    assert (exists w',
      nn_setsockopt s nnlevel nnopt (le_bytes 4 v) sizeof_int w
      = Some (if answer w =? 0 then 0 else -1, w') /\
      w_log w' = w_log w ++ [E_setopt s opt (le_bytes 8 (v * 1000))
                               sizeof_uint64 (answer w)]) as (w' & Hrun & Hlog).
    { unfold nn_setsockopt. rewrite Hsw.
      rewrite bind_run, Z.eqb_refl. cbn [negb]. rewrite bind_run.
      unfold lift. rewrite read_int_le_bytes by done.
      unfold mret at 1, M_ret at 1. cbv beta iota zeta. rewrite usec_bytes.
      rewrite bind_run. unfold nng_setopt.
      rewrite bind_run, next_rv_run, bind_run, log_run.
      unfold mret at 1, M_ret at 1. cbv beta iota.
      destruct (Z.eqb_spec (answer w) 0) as [Ha|Ha]; cbn [negb].
      - eexists. split; [reflexivity|]. by rewrite Ha.
      - rewrite bind_run.
        destruct (nn_seterror_total (answer w)
                    (logged (E_setopt s opt (le_bytes 8 (v * 1000))
                               sizeof_uint64 (answer w)) (answered w)))
          as [e ->].
        eexists. split; [reflexivity|]. done. }
    exists w'. split; [done|]. split; [done|]. split.
    + apply le_bytes_length.
    + rewrite le_value_le_bytes. apply (to_signed_small 64); lia.
Qed.

End Options.

(** ** The one-time initializer *)

Section OneTimeInit.

Import WinThread.

(** The compare-and-exchange of line 165 compares with 1 and stores 0:
    on a flag that is 0 it changes nothing and reports 0. *)
Lemma acquire_never_acquires :
  InterlockedCompareExchange 0 0 1 = (0, 0).
Proof. reflexivity. Qed.

Lemma invariant_start n : invariant (start n).
Proof.
  split; [done|]. split; [by left|].
  unfold start; cbn. induction n; cbn; constructor; auto.
Qed.

Lemma invariant_sched t s : invariant s -> invariant (sched t s).
Proof.
  intros (Hi & Hd & Hth). unfold sched.
  destruct (threads s !! t) as [p|] eqn:Et; [|done].
  pose proof (Forall_lookup_1 _ _ _ _ Hth Et) as Hp.
  destruct s as [ths g]. cbn in Hi, Hd, Hth, Hp, Et.
  assert (forall g' p',
    initing g' = 0 ->
    (inited g' = 0 \/ inited g' = 1 /\ (1 <= helper_returns g')%nat) ->
    (inited g = 1 -> inited g' = 1) ->
    (helper_returns g <= helper_returns g')%nat ->
    match p' with
    | L166 => False
    | L170 => (1 <= helper_returns g')%nat
    | L172 | Returned => inited g' = 1
    | _ => True
    end ->
    invariant {| threads := <[t := p']> ths; globals := g' |}) as Hgo.
  { intros g' p' Hi' Hd' Hmono Hret Hp'. split; [done|]. split; [done|].
    cbn. apply Forall_insert; [|done].
    eapply Forall_impl; [exact Hth|]. intros []; cbn; auto; lia. }
  cbn [globals threads]. destruct p; cbn [step].
  - destruct (Z.eqb_spec (inited g) 0); cbn [negb]; cbv beta iota.
    + apply Hgo; auto; lia.
    + apply Hgo; auto; lia.
  - unfold InterlockedCompareExchange. rewrite Hi.
    cbn [Z.eqb negb]. cbv beta iota. apply Hgo; auto.
  - done.
  - destruct (Z.eqb_spec (inited g) 0); cbv beta iota; apply Hgo; auto; lia.
  - cbv beta iota. apply Hgo; cbn; auto.
  - cbv beta iota. apply Hgo; cbn; auto; lia.
  - cbv beta iota. apply Hgo; cbn; auto; lia.
  - unfold InterlockedExchange. cbv beta iota. apply Hgo; cbn; auto.
  - cbv beta iota. apply Hgo; cbn; auto.
Qed.

Lemma invariant_run schedule : forall s, invariant s -> invariant (run schedule s).
Proof.
  induction schedule as [|t rest IH]; intros s Hs; [done|].
  cbn. apply IH. by apply invariant_sched.
Qed.

(** X17: in every interleaving the flag [initing] stays 0, no thread
    ever waits, and a thread that has returned finds [inited] set after
    a run of the helper has completed. *)
Lemma nni_plat_init_returns_after_init n schedule t :
  let s := run schedule (start n) in
  initing (globals s) = 0 /\
  (L166 ∉ threads s) /\
  (threads s !! t = Some Returned ->
   inited (globals s) = 1 /\ (1 <= helper_returns (globals s))%nat).
Proof.
  intros s. destruct (invariant_run schedule (start n) (invariant_start n))
    as (Hi & Hd & Hth). fold s in Hi, Hd, Hth.
  split; [done|]. split.
  - intros Hin. rewrite Forall_forall in Hth. by apply Hth in Hin.
  - intros Et. pose proof (Forall_lookup_1 _ _ _ _ Hth Et) as Hp. cbn in Hp.
    destruct Hd as [?|?]; [lia|done].
Qed.

(** C2 does not hold of the code: two threads that enter together
    and take their steps in turn both find [inited] clear, both pass
    the compare-and-exchange, and both run the helper. *)
Theorem C2_helper_runs_twice :
  let s := run [0; 1; 0; 1; 0; 1; 0; 1; 0; 1; 0; 1; 0; 1]%nat (start 2) in
  helper_calls (globals s) = 2%nat /\ all_returned s = true.
Proof. vm_compute. done. Qed.
End OneTimeInit.

(** ** The theorems at concrete inputs

    The constants are those of [sample_nng_h], [linux_errno_h] and
    [nanomsg_compat_h]. *)

Section Samples.

#[local] Existing Instances sample_nng_h linux_errno_h nanomsg_compat_h.

Lemma sample_codes_distinct : codes_distinct.
Proof. split; apply (bool_decide_unpack _); vm_compute; exact I. Defined.

Lemma sample_flags_pass : flags_pass 0 0.
Proof. split; [lia|left; split; reflexivity]. Defined.

Lemma C1_survey_deadline_unsupported_witness :
  levels_distinct /\
  nn_setsockopt 0 NN_SURVEYOR NN_SURVEY_DEADLINE (le_bytes 4 1000) 4 empty_world
  = Some (-1, set_errno ENOPROTOOPT empty_world).
Proof.
  assert levels_distinct as Hd
    by (apply (bool_decide_unpack _); vm_compute; exact I).
  split; [exact Hd|].
  exact (C1_survey_deadline_unsupported 0 (le_bytes 4 1000) 4 empty_world Hd).
Defined.

(** C3, as stated, fails: with a buffer of sentinel length after a
    fixed one, nn_recvmsg does fail with EINVAL, but the native receive
    has been made by then; the message is taken from the socket and
    lost, and the first buffer has been written. *)
Lemma C3_receive_precedes_rejection :
  exists w',
    nn_recvmsg 0 (Some demo_mixed_hdr) 0 demo_mixed_world = Some (-1, w') /\
    w_errno w' = EINVAL /\
    w_log w' = [E_recvmsg 0 0 0; E_msg_free 1] /\
    w_log w' <> w_log demo_mixed_world /\
    w_inbox w' = [] /\
    w_mem w' !! 1%positive = Some (bytes_cells [1; 2; 3; 4]).
Proof.
  eexists. split; [vm_compute; reflexivity|].
  repeat split; try reflexivity. discriminate.
Qed.

Lemma C3_malformed_descriptor_witness :
  codes_distinct /\
  (exists e e',
     nn_recvmsg 0 (Some demo_negative_hdr) 0 empty_world
     = Some (-1, set_errno e empty_world) /\
     nn_sendmsg 0 (Some demo_negative_hdr) 0 empty_world
     = Some (-1, set_errno e' empty_world) /\
     e = EMSGSIZE /\ e' = EMSGSIZE) /\
  (exists msg w',
     nn_recvmsg 0 (Some demo_mixed_hdr) 0 demo_mixed_world = Some (-1, w') /\
     w_errno w' = EINVAL /\
     w_log w' = w_log demo_mixed_world ++ [E_recvmsg 0 0 0; E_msg_free msg] /\
     w_heap w' = w_heap demo_mixed_world /\
     w_mem w' = scatter (take 1 (msg_iov demo_mixed_hdr))
                  (msg_body (arriving demo_mixed_world))
                  (w_mem demo_mixed_world)).
Proof.
  pose proof sample_codes_distinct as Hd. split; [exact Hd|].
  pose proof sample_flags_pass as Hf.
  split.
  - destruct (C3_malformed_descriptor 0 demo_negative_hdr 0 empty_world Hd)
      as [Hneg _].
    destruct Hneg as (e & e' & Hr & Hs & He); [simpl; lia|].
    destruct (He 0 Hf) as [-> ->]. exists EMSGSIZE, EMSGSIZE.
    split; [exact Hr|]. split; [exact Hs|]. split; reflexivity.
  - destruct (C3_malformed_descriptor 0 demo_mixed_hdr 0 demo_mixed_world Hd)
      as [_ Hmix].
    apply (Hmix 0 1%nat (demo_buf 2 NN_MSG));
      first [ exact Hf | reflexivity | vm_compute; lia
            | repeat constructor; vm_compute; intros; discriminate ].
Defined.

Lemma C4_millisecond_conversion_witness :
  setsockopt_switch NN_SOL_SOCKET NN_RCVTIMEO = Some (NNG_OPT_RCVTIMEO, true) /\
  nn_setsockopt 7 NN_SOL_SOCKET NN_RCVTIMEO (le_bytes 4 250) 2 empty_world
  = Some (-1, set_errno EINVAL empty_world) /\
  exists w',
    nn_setsockopt 7 NN_SOL_SOCKET NN_RCVTIMEO (le_bytes 4 250) 4 empty_world
    = Some (0, w') /\
    w_log w' = [E_setopt 7 NNG_OPT_RCVTIMEO (le_bytes 8 250000) 8 0].
Proof.
  assert (setsockopt_switch NN_SOL_SOCKET NN_RCVTIMEO
          = Some (NNG_OPT_RCVTIMEO, true)) as Hsw by reflexivity.
  split; [exact Hsw|].
  destruct (C4_millisecond_conversion 7 NN_SOL_SOCKET NN_RCVTIMEO
              NNG_OPT_RCVTIMEO (le_bytes 4 250) 2 empty_world Hsw) as [Hbad _].
  split; [apply Hbad; vm_compute; discriminate|].
  destruct (C4_millisecond_conversion 7 NN_SOL_SOCKET NN_RCVTIMEO
              NNG_OPT_RCVTIMEO (le_bytes 4 250) 4 empty_world Hsw) as [_ Hok].
  destruct (Hok 250) as (w' & Hrun & Hlog & _); [lia|reflexivity|reflexivity|].
  exists w'. split; [exact Hrun|exact Hlog].
Defined.

Lemma C5_allocmsg_witness :
  codes_distinct /\ 0 <= 5 < SIZE_MOD /\
  exists p w' msg m,
    nn_allocmsg 5 0 empty_world = Some (p, w') /\
    w_heap w' !! msg = Some m /\
    nng_msg_body msg w' = Some (p, w') /\
    msg_len m = 5 /\
    load_handle (ptr_add p (- sizeof_ptr)) w' = Some (msg, w').
Proof.
  pose proof sample_codes_distinct as Hd.
  assert (0 <= 5 < SIZE_MOD) as Hs by (unfold SIZE_MOD; lia).
  split; [exact Hd|]. split; [exact Hs|].
  destruct (C5_allocmsg 5 empty_world Hd Hs) as (_ & _ & Hsucc & _).
  destruct (Hsucc (Ptr (BodyBlk 1) 8)
              (set_heap {[ 1%positive := envelope 1 (fresh_msg 13) ]}
                 (logged (E_msg_trim 1 8)
                    (logged (E_msg_alloc 13 0) (answered empty_world)))))
    as (msg & m & _ & Hm & Hb & Hl & Hh & _);
    [vm_compute; reflexivity | discriminate |].
  eexists _, _, msg, m. split; [vm_compute; reflexivity|]. auto.
Defined.

Lemma C6_reallocmsg_witness :
  codes_distinct /\ 0 <= 3 < SIZE_MOD /\
  exists p w' m',
    nn_reallocmsg (Ptr (BodyBlk 1) 8) 3 demo_alloc_world = Some (p, w') /\
    p <> Null /\
    w_heap w' !! 1%positive = Some m' /\
    nng_msg_body 1 w' = Some (p, w') /\
    msg_len m' = 3 /\
    load_handle (ptr_add p (- sizeof_ptr)) w' = Some (1%positive, w').
Proof.
  pose proof sample_codes_distinct as Hd.
  assert (0 <= 3 < SIZE_MOD) as Hs by (unfold SIZE_MOD; lia).
  split; [exact Hd|]. split; [exact Hs|].
  destruct (C6_reallocmsg (Ptr (BodyBlk 1) 8) 3 demo_alloc_world Hd Hs)
    as [_ Hok].
  destruct (Hok 1%positive (envelope 1 (fresh_msg 13))) as [_ Hsucc];
    [vm_compute; reflexivity | reflexivity | reflexivity |].
  apply Hsucc. reflexivity.
Defined.

Lemma C7_recvmsg_fixed_buffers_witness :
  let mh := demo_recv_hdr in
  let w := demo_recv_world in
  let bufs := take (Z.to_nat (msg_iovlen mh)) (msg_iov mh) in
  let m := arriving w in
  (flags_pass 0 0 /\
   0 <= msg_iovlen mh /\ length bufs = Z.to_nat (msg_iovlen mh) /\
   Forall (fixed_buffer (w_mem w)) bufs /\
   answer w = 0 /\ msg_len m < 2 ^ 31) /\
  (exists msg w',
     nn_recvmsg 0 (Some mh) 0 w = Some (10, w') /\
     w_mem w' = scatter bufs (msg_body m) (w_mem w) /\
     w_heap w' = w_heap w /\
     w_errno w' = w_errno w /\
     w_log w' = w_log w ++ [E_recvmsg 0 0 0; E_msg_free msg]) /\
  scatter bufs (msg_body m) (w_mem w) !! 1%positive
  = Some (bytes_cells [1; 2; 3; 4]) /\
  scatter bufs (msg_body m) (w_mem w) !! 2%positive
  = Some (bytes_cells [5; 6]).
Proof.
  intros mh w bufs m.
  pose proof sample_flags_pass as H1.
  assert (0 <= msg_iovlen mh) as H2 by (simpl; lia).
  assert (length bufs = Z.to_nat (msg_iovlen mh)) as H3 by reflexivity.
  assert (Forall (fixed_buffer (w_mem w)) bufs) as H4.
  { repeat constructor; vm_compute; intros; discriminate. }
  assert (answer w = 0) as H5 by reflexivity.
  assert (msg_len m < 2 ^ 31) as H6 by (vm_compute; reflexivity).
  split; [tauto|].
  destruct (C7_recvmsg_fixed_buffers 0 mh 0 0 w H1 H2 H3 H4 H5 H6)
    as (Hcall & Hbuf & _ & _).
  split; [exact (Hcall eq_refl)|].
  assert (NoDup (buffer_block <$> bufs)) as Hnd
    by (apply (bool_decide_unpack _); vm_compute; exact I).
  split.
  - exact (Hbuf Hnd 0%nat (demo_buf 1 4) 1%positive 0 (zeros 4)
             (bytes_cells [1; 2; 3; 4]) eq_refl eq_refl eq_refl eq_refl).
  - exact (Hbuf Hnd 1%nat (demo_buf 2 2) 2%positive 0 (zeros 2)
             (bytes_cells [5; 6]) eq_refl eq_refl eq_refl eq_refl).
Defined.

Lemma C8_control_envelope_witness :
  msg_controllen demo_send_hdr = NN_MSG /\
  load_ptr (msg_control demo_send_hdr) (demo_send_world [])
  = Some (Ptr (BodyBlk 1) 8, demo_send_world []) /\
  load_handle (ptr_add (Ptr (BodyBlk 1) 8) (- sizeof_ptr))
    (demo_send_world [])
  = Some (1%positive, demo_send_world []) /\
  w_heap (demo_send_world []) !! 1%positive = Some demo_control_msg /\
  readable (demo_send_world [])
    {| iov_base := Ptr (BodyBlk 1) 8; iov_len := msg_len demo_control_msg |} /\
  sendable (demo_send_world []) demo_send_hdr 1 /\
  exists r w',
    nn_sendmsg 0 (Some demo_send_hdr) 0 (demo_send_world []) = Some (r, w') /\
    exists evs, w_log w' = w_log (demo_send_world []) ++ evs /\
      ((r = -1 /\ not_released 1 evs /\
        exists cm', w_heap w' !! 1%positive = Some cm' /\
                    intact demo_control_msg cm') \/
       (released_after_send 1 0 evs /\ w_heap w' !! 1%positive = None)).
Proof.
  assert (msg_controllen demo_send_hdr = NN_MSG) as H1 by reflexivity.
  assert (load_ptr (msg_control demo_send_hdr) (demo_send_world [])
          = Some (Ptr (BodyBlk 1) 8, demo_send_world [])) as H2
    by (vm_compute; reflexivity).
  assert (load_handle (ptr_add (Ptr (BodyBlk 1) 8) (- sizeof_ptr))
            (demo_send_world [])
          = Some (1%positive, demo_send_world [])) as H3
    by (vm_compute; reflexivity).
  assert (w_heap (demo_send_world []) !! 1%positive = Some demo_control_msg)
    as H4 by reflexivity.
  assert (readable (demo_send_world [])
            {| iov_base := Ptr (BodyBlk 1) 8;
               iov_len := msg_len demo_control_msg |}) as H5
    by (exists (bytes_cells [1; 2; 3]); vm_compute; reflexivity).
  assert (sendable (demo_send_world []) demo_send_hdr 1) as H6.
  { split; [vm_compute; discriminate|]. split; [reflexivity|]. right.
    split; [|vm_compute; reflexivity].
    repeat constructor.
    - exists (bytes_cells [104; 105]). vm_compute. reflexivity.
    - vm_compute. discriminate. }
  destruct (C8_control_envelope 0 demo_send_hdr 0 (demo_send_world [])
              1%positive _ _ H1 H2 H3 H4) as [Hreturns Hall].
  destruct (Hreturns H5 H6) as (r & w' & Hrun).
  split; [exact H1|]. split; [exact H2|]. split; [exact H3|].
  split; [exact H4|]. split; [exact H5|]. split; [exact H6|].
  exists r, w'. split; [exact Hrun|]. exact (Hall r w' Hrun).
Defined.

Lemma C10_allocmsg_type_witness :
  codes_distinct /\ 1 <> 0 /\
  nn_allocmsg 16 1 empty_world = Some (Null, set_errno EINVAL empty_world).
Proof.
  pose proof sample_codes_distinct as Hd.
  assert (1 <> 0) as Ht by lia.
  split; [exact Hd|]. split; [exact Ht|].
  exact (C10_allocmsg_type 16 1 empty_world Hd Ht).
Defined.

(** The spec's example, run: ten bytes arrive, six are copied, four and
    two, and the length reported is ten. *)
Example recvmsg_truncates :
  match nn_recvmsg 0 (Some demo_recv_hdr) 0 demo_recv_world with
  | Some (r, w') =>
      r = 10 /\
      w_mem w' !! 1%positive = Some (bytes_cells [1; 2; 3; 4]) /\
      w_mem w' !! 2%positive = Some (bytes_cells [5; 6])
  | None => False
  end.
Proof. vm_compute. auto. Qed.

(** A send whose native send times out: the call fails and the control
    message is still there. *)
Example sendmsg_failure_keeps_control :
  match nn_sendmsg 0 (Some demo_send_hdr) 0
          (demo_send_world [0; 0; NNG_ETIMEDOUT]) with
  | Some (r, w') =>
      r = -1 /\ w_errno w' = ETIMEDOUT /\
      w_heap w' !! 1%positive = Some demo_control_msg /\
      w_log w' = [E_msg_alloc 2 0; E_msg_append_header 2 0;
                  E_sendmsg 0 2 0 NNG_ETIMEDOUT; E_msg_free 2]
  | None => False
  end.
Proof. vm_compute. auto. Qed.

(** The same send when it succeeds: the control message is freed after
    the send. *)
Example sendmsg_success_frees_control :
  match nn_sendmsg 0 (Some demo_send_hdr) 0 (demo_send_world []) with
  | Some (r, w') =>
      r = 2 /\ w_heap w' = ∅ /\
      w_log w' = [E_msg_alloc 2 0; E_msg_append_header 2 0;
                  E_sendmsg 0 2 0 0; E_msg_free 1]
  | None => False
  end.
Proof. vm_compute. auto. Qed.

(** Every level and option the shim supports, and the survey deadline. *)
Example setsockopt_levels :
  setsockopt_switch NN_SOL_SOCKET NN_SNDTIMEO = Some (NNG_OPT_SNDTIMEO, true) /\
  setsockopt_switch NN_REQ NN_REQ_RESEND_IVL = Some (NNG_OPT_RESENDTIME, true) /\
  setsockopt_switch NN_SUB NN_SUB_SUBSCRIBE = Some (NNG_OPT_SUBSCRIBE, false) /\
  setsockopt_switch NN_SURVEYOR NN_SURVEY_DEADLINE = None.
Proof. vm_compute. auto. Qed.

End Samples.

(** * Further properties of the code *)

(** ** The error table: codes it does not list *)

Section ErrorFallbacks.
Context `{!nng_h, !errno_h}.

Lemma seterror_loop_unknown (tbl : list nn_errno_entry) err :
  err = 0 \/ err ∉ (nerr <$> tbl) -> seterror_loop tbl err = None.
Proof.
  induction tbl as [|e tbl IH]; intros Hu; [done|].
  cbn [seterror_loop]. destruct (Z.eqb_spec (nerr e) 0) as [|Hz]; [done|].
  destruct (Z.eqb_spec (nerr e) err) as [E|Hne].
  - exfalso. destruct Hu as [->|Hu]; [done|].
    apply Hu. rewrite fmap_cons, E. apply elem_of_cons. by left.
  - apply IH. destruct Hu as [?|Hu]; [by left|right].
    intros Hin. apply Hu. rewrite fmap_cons. apply elem_of_cons. by right.
Qed.

Lemma strerror_loop_unknown (tbl : list nn_errno_entry) err :
  err = 0 \/ err ∉ (perr <$> tbl) -> strerror_loop tbl err = None.
Proof.
  induction tbl as [|e tbl IH]; intros Hu; [done|].
  cbn [strerror_loop]. destruct (Z.eqb_spec (perr e) 0) as [|Hz]; [done|].
  destruct (Z.eqb_spec (perr e) err) as [E|Hne].
  - exfalso. destruct Hu as [->|Hu]; [done|].
    apply Hu. rewrite fmap_cons, E. apply elem_of_cons. by left.
  - apply IH. destruct Hu as [?|Hu]; [by left|right].
    intros Hin. apply Hu. rewrite fmap_cons. apply elem_of_cons. by right.
Qed.

(** X1: a native code the table does not list, and the success code 0,
    are reported as EIO: nn_seterror stores EIO in errno and changes
    nothing else. *)
Theorem X1_seterror_unknown_is_EIO err w :
  err = 0 \/ err ∉ (nerr <$> nn_errnos) ->
  nn_seterror err w = Some (tt, set_errno EIO w).
Proof.
  intros Hu. unfold nn_seterror. by rewrite seterror_loop_unknown.
Qed.

(** X2: for a POSIX code the table does not list (and for 0),
    nn_strerror gives the fixed text "Unknown I/O error" when the code
    is EIO and the text formatted from "Unknown error %d" otherwise. *)
Theorem X2_strerror_fallback err :
  err = 0 \/ err ∉ (perr <$> nn_errnos) ->
  nn_strerror err
  = (if err =? EIO then literal "Unknown I/O error"
     else snprintf_d "Unknown error %d" err).
Proof.
  intros Hu. unfold nn_strerror. by rewrite strerror_loop_unknown.
Qed.

(** X3: when the table does not list EIO among its POSIX codes, a
    native code it does not list reads back as "Unknown I/O error":
    nn_seterror stores EIO, nn_errno returns it and nn_strerror gives
    the fixed text for it. *)
Theorem X3_unknown_error_text err w :
  EIO ∉ (perr <$> nn_errnos) ->
  err = 0 \/ err ∉ (nerr <$> nn_errnos) ->
  (nn_seterror err;; e ← nn_errno; mret (nn_strerror e)) w
  = Some (literal "Unknown I/O error", set_errno EIO w).
Proof.
  intros Hio Hu.
  rewrite bind_run. unfold nn_seterror. rewrite seterror_loop_unknown by done.
  unfold modify. cbv beta iota. rewrite bind_run. unfold nn_errno.
  cbv beta iota. change (w_errno (set_errno EIO w)) with EIO.
  unfold nn_strerror. rewrite strerror_loop_unknown by (by right).
  by rewrite Z.eqb_refl.
Qed.
End ErrorFallbacks.

(** ** Dynamic messages: release and resize *)

Section MessageRoundTrips.
Context `{!nng_h, !errno_h}.

Lemma load_handle_dead p msg w :
  w_heap w !! msg = None ->
  (exists off, p = Ptr (BodyBlk msg) off) ->
  load_handle p w = None.
Proof.
  intros E [off ->]. unfold load_handle, load_ptr. rewrite !bind_run.
  unfold load. cbn [block_cells]. by rewrite E.
Qed.

(** X4: nn_freemsg undoes nn_allocmsg.  After a successful
    nn_allocmsg (size, 0), nn_freemsg of the pointer returns 0, frees
    the message that was allocated and leaves the heap of native
    messages, the caller's memory and errno as they were before the
    allocation; the native calls made are the allocation, the trim
    and the release.  The pointer is dangling afterwards: a second
    nn_freemsg of it is undefined. *)
Theorem X4_freemsg_undoes_allocmsg size w p w1 :
  nn_allocmsg size 0 w = Some (p, w1) -> p <> Null ->
  0 < size -> size + sizeof_ptr < SIZE_MOD ->
  exists msg w2,
    nn_freemsg p w1 = Some (0, w2) /\
    w_heap w2 = w_heap w /\ w_mem w2 = w_mem w /\ w_errno w2 = w_errno w /\
    w_log w2 = w_log w ++ [E_msg_alloc (size + sizeof_ptr) 0;
                           E_msg_trim msg sizeof_ptr; E_msg_free msg] /\
    nn_freemsg p w2 = None.
Proof.
  intros Hrun Hp Hpos Hov.
  rewrite (nn_allocmsg_valid size w Hpos Hov) in Hrun.
  destruct (Z.eqb_spec (answer w) 0) as [Ha|Ha]; cbv zeta in Hrun.
  2:{ rewrite bind_run in Hrun.
      destruct (nn_seterror_total (answer w)
                  (logged (E_msg_alloc (size + 8) (answer w)) (answered w)))
        as [e He].
      rewrite He in Hrun. cbn in Hrun. injection Hrun as <- <-. by destruct Hp. }
  set (msg := fresh (dom (w_heap w))) in *.
  assert (w_heap w !! msg = None) as Hfresh
    by (apply not_elem_of_dom, is_fresh).
  injection Hrun as <- <-.
  set (w1 := set_heap _ _).
  assert (w_heap w1 !! msg = Some (envelope msg (fresh_msg (size + 8)))) as E1
    by apply lookup_insert_eq.
  pose proof (load_handle_envelope msg (fresh_msg (size + 8)) w1 E1) as Hl.
  change (Z.of_nat (msg_start (fresh_msg (size + 8))) + 8) with 8 in Hl.
  exists msg. eexists. split; [|split; [|split; [|split; [|split]]]].
  - unfold nn_freemsg. rewrite bind_run, Hl, bind_run.
    rewrite (nng_msg_free_run msg _ w1 E1). reflexivity.
  - cbn. by rewrite delete_insert_eq, delete_id.
  - done.
  - done.
  - cbn. unfold sizeof_ptr. by rewrite <- !app_assoc.
  - unfold nn_freemsg. rewrite bind_run.
    rewrite (load_handle_dead _ msg); [done| |by eexists].
    cbn. apply lookup_delete_eq.
Qed.

(** The visible bytes of a message after nn_reallocmsg. *)
Lemma realloc_bytes (body : list memval) len :
  0 <= len ->
  drop 8 (take (Z.to_nat (len + 8)) (body ++ zeros (len + 8)))
  = take (Z.to_nat len) (drop 8 body ++ zeros len).
Proof.
  intros Hlen. unfold zeros.
  replace (Z.to_nat (len + 8)) with (8 + Z.to_nat len)%nat at 1 by lia.
  rewrite <- take_drop_commute. rewrite drop_app, drop_replicate.
  destruct (decide (8 <= length body)%nat) as [Hb|Hb].
  - replace (8 - length body)%nat with 0%nat by lia.
    rewrite Nat.sub_0_r.
    rewrite !take_app. rewrite !take_replicate. f_equal. f_equal. lia.
  - rewrite (drop_ge body) by lia. cbn [app].
    rewrite !take_replicate. f_equal. lia.
Qed.

(** X5: nn_reallocmsg does not keep the start of the payload.  On
    success the handle is stamped over the first [sizeof_ptr] bytes of
    the old payload and trimmed away with them: the [len] bytes at the
    pointer returned are the old payload from its ninth byte on, cut
    or padded with zero bytes. *)
Theorem X5_reallocmsg_drops_payload_start ptr len w msg m :
  0 <= len -> len + sizeof_ptr < SIZE_MOD ->
  load_handle (ptr_add ptr (- sizeof_ptr)) w = Some (msg, w) ->
  w_heap w !! msg = Some m ->
  answer w = 0 ->
  exists p w',
    nn_reallocmsg ptr len w = Some (p, w') /\
    load p len w'
    = Some (take (Z.to_nat len)
              (drop (Z.to_nat sizeof_ptr) (msg_body m) ++ zeros len), w').
Proof.
  intros Hlen Hov Hptr E Ha. unfold nn_reallocmsg.
  rewrite size_add_small by (unfold sizeof_ptr in *; lia).
  rewrite (proj2 (Z.ltb_ge _ _)) by (unfold sizeof_ptr; lia).
  rewrite bind_run, Hptr.
  rewrite bind_run, (nng_msg_realloc_run msg m) by done.
  rewrite Ha. cbn [Z.eqb negb]. cbv beta iota. cbn [Z.eqb negb].
  rewrite stamp_and_trim with (m := resized m (len + sizeof_ptr)).
  2:{ cbn. apply lookup_insert_eq. }
  2:{ rewrite resized_length. unfold sizeof_ptr. lia. }
  eexists _, _. split; [reflexivity|].
  eapply load_body; [cbn; apply lookup_insert_eq|].
  unfold msg_chunk, envelope. cbn [msg_room msg_body resized].
  change (Z.to_nat sizeof_ptr) with 8%nat. unfold sizeof_ptr.
  rewrite realloc_bytes by done.
  rewrite <- (app_nil_r ((_ ++ _) ++ _)). apply rd_mid.
  - unfold msg_start. cbn [msg_room resized]. rewrite length_app, ptr_cells_length. lia.
  - rewrite length_take, length_app, length_drop, zeros_length. lia.
Qed.
End MessageRoundTrips.


(** ** nn_recvmsg: the message itself, and the control information *)

Section ReceiveDynamic.
Context `{!nng_h, !errno_h, !nng_compat_h}.

Lemma nng_msg_prepend_run msg m data w :
  w_heap w !! msg = Some m ->
  nng_msg_prepend msg data w =
  if answer w =? 0 then
    Some (0, set_heap (<[msg := {| msg_header := msg_header m;
                                   msg_room := take (msg_start m - length data)
                                                 (msg_room m);
                                   msg_body := data ++ msg_body m |}]>
                         (w_heap w))
               (logged (E_msg_prepend msg 0) (answered w)))
  else Some (answer w, logged (E_msg_prepend msg (answer w)) (answered w)).
Proof.
  intros E. unfold nng_msg_prepend. rewrite bind_run. unfold live at 1.
  rewrite E, bind_run, next_rv_run, bind_run, log_run.
  destruct (Z.eqb_spec (answer w) 0) as [->|]; done.
Qed.

Lemma nng_msg_trim_run msg m n w :
  w_heap w !! msg = Some m ->
  nng_msg_trim msg n w =
  if msg_len m <? n then Some (NNG_EINVAL, logged (E_msg_trim msg n) w)
  else
    Some (0, set_heap (<[msg := {| msg_header := msg_header m;
                                   msg_room := msg_room m
                                                 ++ take (Z.to_nat n) (msg_body m);
                                   msg_body := drop (Z.to_nat n) (msg_body m) |}]>
                         (w_heap w))
               (logged (E_msg_trim msg n) w)).
Proof.
  intros E. unfold nng_msg_trim. rewrite bind_run, log_run, bind_run.
  unfold live. change (w_heap (logged (E_msg_trim msg n) w)) with (w_heap w).
  rewrite E. by destruct (msg_len m <? n).
Qed.

Lemma prepend_then_trim msg m w :
  w_heap w !! msg = Some m -> answer w = 0 ->
  exists w1,
    nng_msg_prepend msg (ptr_cells (MsgPtr msg)) w = Some (0, w1) /\
    exists w2,
      nng_msg_trim msg sizeof_ptr w1 = Some (0, w2) /\
      w2 = set_heap (<[msg := enveloped msg m]> (w_heap w))
             (logged (E_msg_trim msg sizeof_ptr)
                (logged (E_msg_prepend msg 0) (answered w))).
Proof.
  intros E Ha. rewrite (nng_msg_prepend_run msg m) by done. rewrite Ha.
  cbn [Z.eqb]. eexists. split; [reflexivity|].
  erewrite nng_msg_trim_run by (cbn [w_heap set_heap]; apply lookup_insert_eq).
  unfold msg_len. cbn [msg_body msg_room msg_header].
  rewrite (proj2 (Z.ltb_ge _ _))
    by (rewrite length_app, ptr_cells_length; unfold sizeof_ptr; lia).
  eexists. split; [reflexivity|].
  change (Z.to_nat sizeof_ptr) with (length (ptr_cells (MsgPtr msg))).
  rewrite take_app_length, drop_app_length, ptr_cells_length.
  unfold enveloped. destruct w; cbn. unfold set_heap, logged; cbn. f_equal.
  by rewrite insert_insert_eq.
Qed.

Lemma load_handle_enveloped msg m w :
  w_heap w !! msg = Some (enveloped msg m) ->
  load_handle (ptr_add (Ptr (BodyBlk msg)
                          (Z.of_nat (msg_start (enveloped msg m))))
                       (- sizeof_ptr)) w = Some (msg, w).
Proof.
  intros E. unfold load_handle, load_ptr. rewrite !bind_run.
  cbn [ptr_add].
  rewrite (load_body msg _ _ _ (ptr_cells (MsgPtr msg)) w E).
  - unfold lift. by rewrite cells_ptr_cells.
  - unfold sizeof_ptr, msg_chunk, msg_start, enveloped; cbn [msg_room msg_body].
    apply rd_mid; [|done]. rewrite length_app, ptr_cells_length. lia.
Qed.

Lemma load_whole_body h m w :
  w_heap w !! h = Some m ->
  load (Ptr (BodyBlk h) (Z.of_nat (msg_start m))) (msg_len m) w
  = Some (msg_body m, w).
Proof.
  intros E. eapply load_body; [exact E|].
  unfold msg_chunk, msg_start, msg_len.
  rewrite <- (app_nil_r (_ ++ msg_body m)). by apply rd_mid.
Qed.

Lemma load_enveloped_body msg m w :
  w_heap w !! msg = Some (enveloped msg m) ->
  load (Ptr (BodyBlk msg) (Z.of_nat (msg_start (enveloped msg m))))
       (msg_len m) w = Some (msg_body m, w).
Proof.
  intros E. eapply load_body; [exact E|].
  unfold msg_chunk, msg_start, msg_len, enveloped. cbn [msg_room msg_body].
  rewrite <- (app_nil_r (_ ++ msg_body m)). by apply rd_mid.
Qed.

Lemma load_poke p data mem w :
  w_mem w = poke p data mem ->
  user_buffer mem {| iov_base := p; iov_len := Z.of_nat (length data) |} ->
  load p (Z.of_nat (length data)) w = Some (data, w).
Proof.
  intros Hm. unfold user_buffer, load. cbn [iov_base iov_len].
  destruct p as [| |[b| |] off]; try done. cbn [block_cells].
  rewrite Hm. unfold poke.
  destruct (mem !! b) as [cs|] eqn:E; [|done].
  intros (Ha & Hb & Hc). unfold wr.
  rewrite (proj2 (Z.leb_le _ _) Ha), (proj2 (Z.leb_le _ _) Hc). cbn [andb].
  rewrite lookup_insert_eq.
  pose proof (rd_mid (take (Z.to_nat off) cs) data
                (drop (Z.to_nat off + length data) cs) off
                (Z.of_nat (length data))) as Hr.
  rewrite <- app_assoc in Hr. rewrite Hr; [done| |done].
  rewrite length_take. lia.
Qed.

Lemma load_ptr_poke p v mem w :
  w_mem w = poke p (ptr_cells v) mem ->
  user_buffer mem {| iov_base := p; iov_len := sizeof_ptr |} ->
  load_ptr p w = Some (v, w).
Proof.
  intros Hm Hu. unfold load_ptr. rewrite bind_run.
  change sizeof_ptr with (Z.of_nat (length (ptr_cells v))).
  rewrite (load_poke _ _ mem) by done. unfold lift. by rewrite cells_ptr_cells.
Qed.

(** The world after a successful native receive. *)
Lemma received_world s f w :
  answer w = 0 ->
  let msg := fresh (dom (w_heap w)) in
  nng_recvmsg s f w
  = Some (Ok msg, set_heap (<[msg := arriving w]> (w_heap w))
                    (arrived (logged (E_recvmsg s f 0) (answered w)))) /\
  w_heap w !! msg = None.
Proof.
  intros Ha msg. rewrite nng_recvmsg_run, Ha. split; [done|].
  apply not_elem_of_dom, is_fresh.
Qed.

Lemma wants_dynamic_sole mh v w :
  msg_iovlen mh = 1 -> msg_iov mh !! 0%nat = Some v -> iov_len v = NN_MSG ->
  wants_dynamic mh w = Some (true, w).
Proof.
  intros Hone Hfst Hv. unfold wants_dynamic. rewrite Hone. cbn [Z.eqb Pos.eqb].
  rewrite bind_run. unfold lift. rewrite Hfst. unfold mret, M_ret.
  by rewrite Hv, Z.eqb_refl.
Qed.

(** X6: nn_recvmsg into a sole buffer of sentinel length hands the
    message over as an envelope.  The buffer's base points to a
    [void *] variable of the caller; the native receive and the prepend
    succeed.  The call returns the length of the body; the variable
    then holds a pointer at which the body can be read, the word before
    it holds the handle of the received message, which stays live; and
    nn_freemsg of that pointer releases it, leaving the heap as it was
    before the call. *)
Theorem X6_recvmsg_dynamic_envelope s mh flags f v w :
  flags_pass flags f ->
  msg_iovlen mh = 1 -> msg_iov mh !! 0%nat = Some v -> iov_len v = NN_MSG ->
  msg_control mh = Null ->
  user_buffer (w_mem w) {| iov_base := iov_base v; iov_len := sizeof_ptr |} ->
  answer w = 0 -> answer (answered w) = 0 ->
  msg_len (arriving w) < 2 ^ 31 ->
  exists msg p w',
    nn_recvmsg s (Some mh) flags w = Some (msg_len (arriving w), w') /\
    w_heap w !! msg = None /\
    is_Some (w_heap w' !! msg) /\
    load_ptr (iov_base v) w' = Some (p, w') /\
    load_handle (ptr_add p (- sizeof_ptr)) w' = Some (msg, w') /\
    load p (msg_len (arriving w)) w' = Some (msg_body (arriving w), w') /\
    w_log w' = w_log w ++ [E_recvmsg s f 0; E_msg_prepend msg 0;
                           E_msg_trim msg sizeof_ptr] /\
    exists w2, nn_freemsg p w' = Some (0, w2) /\ w_heap w2 = w_heap w.
Proof.
  intros Hf Hn Hv Hs Hctl Hvar Ha Hb HL.
  destruct (received_world s f w Ha) as [Hrecv Hfresh]. cbv zeta in Hrecv.
  set (msg := fresh (dom (w_heap w))) in *.
  set (m := arriving w) in *.
  set (w1 := set_heap _ _) in Hrecv.
  assert (w_heap w1 !! msg = Some m) as E1 by apply lookup_insert_eq.
  assert (answer w1 = 0) as Ha1 by exact Hb.
  destruct (prepend_then_trim msg m w1 E1 Ha1) as (w2 & Hpre & w3 & Htrim & Hw3).
  assert (w_heap w3 !! msg = Some (enveloped msg m)) as E3
    by (rewrite Hw3; apply lookup_insert_eq).
  assert (w_mem w3 = w_mem w) as Hm3 by (by rewrite Hw3).
  set (p := Ptr (BodyBlk msg) (Z.of_nat (msg_start (enveloped msg m)))).
  set (w4 := set_mem (poke (iov_base v) (ptr_cells p) (w_mem w)) w3).
  assert (w_heap w4 !! msg = Some (enveloped msg m)) as E4 by exact E3.
  assert (to_int (msg_len m) = msg_len m) as Hint
    by (apply to_int_small; unfold msg_len in *; lia).
  exists msg, p, w4. split; [|split; [|split; [|split; [|split; [|split; [|split]]]]]].
  - unfold nn_recvmsg. rewrite bind_run.
    destruct (nn_flags_pass flags f w Hf) as [-> ->].
    rewrite (proj2 (Z.ltb_ge _ _)) by lia.
    rewrite bind_run, Hrecv. cbv beta iota.
    rewrite bind_run, (wants_dynamic_sole mh v) by done. cbv beta iota.
    rewrite bind_run. unfold recvmsg_dynamic.
    rewrite bind_run, Hpre. cbn [Z.eqb negb]. cbv beta iota.
    rewrite bind_run, Htrim. cbv beta iota.
    rewrite bind_run. unfold lift at 1. rewrite Hv.
    rewrite bind_run, (nng_msg_body_live msg (enveloped msg m)) by done.
    rewrite bind_run. unfold store_ptr.
    rewrite (store_user _ _ (w_mem w)) by done. fold p. fold w4.
    rewrite bind_run, (nng_msg_len_live msg (enveloped msg m)) by done.
    unfold mret at 1, M_ret at 1. cbv beta iota.
    rewrite bind_run. unfold recvmsg_control. rewrite decide_True by done.
    unfold mret at 1, M_ret at 1. cbv beta iota.
    rewrite bind_run. unfold mret, M_ret.
    change (msg_len (enveloped msg m)) with (msg_len m). by rewrite Hint.
  - done.
  - by eexists.
  - by apply (load_ptr_poke _ _ (w_mem w)).
  - by apply load_handle_enveloped.
  - by apply load_enveloped_body.
  - change (w_log w4) with (w_log w3). rewrite Hw3. cbn.
    unfold sizeof_ptr. by rewrite <- !app_assoc.
  - unfold nn_freemsg. rewrite bind_run.
    pose proof (load_handle_enveloped msg m w4 E4) as Hlh. fold p in Hlh.
    rewrite Hlh, bind_run.
    rewrite (nng_msg_free_run msg _ w4 E4). eexists. split; [reflexivity|].
    cbn [w_heap set_heap logged set_log w4 set_mem]. rewrite Hw3.
    cbn [w_heap set_heap logged set_log answered set_rvs].
    rewrite delete_insert_eq. subst w1. cbn [w_heap set_heap].
    by rewrite delete_insert_eq, delete_id.
Qed.

(** X7: the failures of the receive leave no message behind.  When
    the native receive fails, nn_recvmsg returns -1 and only errno and
    the record of the native layer change: no buffer is touched.  When
    the receiver wants the message itself and the prepend of the
    handle fails, the message received is freed: the call returns -1,
    the heap and the caller's memory are as before, and the message is
    lost. *)
Theorem X7_recvmsg_failures_free_the_message s mh flags f w :
  flags_pass flags f -> 0 <= msg_iovlen mh ->
  (answer w <> 0 ->
   exists e,
     nn_recvmsg s (Some mh) flags w
     = Some (-1, set_errno e
                   (logged (E_recvmsg s f (answer w)) (answered w)))) /\
  (forall v,
     msg_iovlen mh = 1 -> msg_iov mh !! 0%nat = Some v -> iov_len v = NN_MSG ->
     answer w = 0 -> answer (answered w) <> 0 ->
     exists msg w',
       nn_recvmsg s (Some mh) flags w = Some (-1, w') /\
       w_heap w' = w_heap w /\ w_mem w' = w_mem w /\
       w_inbox w' = tail (w_inbox w) /\
       w_log w' = w_log w ++ [E_recvmsg s f 0;
                              E_msg_prepend msg (answer (answered w));
                              E_msg_free msg]).
Proof.
  intros Hf Hcount. split.
  - intros Ha. unfold nn_recvmsg. rewrite bind_run.
    destruct (nn_flags_pass flags f w Hf) as [-> ->].
    rewrite (proj2 (Z.ltb_ge _ _)) by lia.
    rewrite bind_run, nng_recvmsg_run.
    apply Z.eqb_neq in Ha. rewrite Ha. rewrite bind_run.
    destruct (nn_seterror_total (answer w)
                (logged (E_recvmsg s f (answer w)) (answered w))) as [e ->].
    by exists e.
  - intros v Hn Hv Hs Ha Hb.
    destruct (received_world s f w Ha) as [Hrecv Hfresh]. cbv zeta in Hrecv.
    set (msg := fresh (dom (w_heap w))) in *.
    set (m := arriving w) in *.
    set (w1 := set_heap _ _) in Hrecv.
    assert (w_heap w1 !! msg = Some m) as E1 by apply lookup_insert_eq.
    assert (answer w1 = answer (answered w)) as Ha1 by reflexivity.
    set (w2 := set_heap (delete msg (w_heap w1))
                 (logged (E_msg_free msg)
                    (logged (E_msg_prepend msg (answer (answered w)))
                       (answered w1)))).
    destruct (nn_seterror_total (answer (answered w)) w2) as [e He].
    exists msg, (set_errno e w2). split; [|split; [|split; [|split]]].
    + unfold nn_recvmsg. rewrite bind_run.
      destruct (nn_flags_pass flags f w Hf) as [-> ->].
      rewrite (proj2 (Z.ltb_ge _ _)) by lia.
      rewrite bind_run, Hrecv. cbv beta iota.
      rewrite bind_run, (wants_dynamic_sole mh v) by done. cbv beta iota.
      rewrite bind_run. unfold recvmsg_dynamic.
      rewrite bind_run, (nng_msg_prepend_run msg m) by done.
      rewrite Ha1. apply Z.eqb_neq in Hb. rewrite Hb. cbv beta iota.
      rewrite Hb. cbn [negb]. rewrite bind_run.
      rewrite (nng_msg_free_run msg m) by exact E1.
      rewrite bind_run.
      change (w_heap (logged (E_msg_prepend msg (answer (answered w)))
                        (answered w1))) with (w_heap w1).
      fold w2. rewrite He. reflexivity.
    + cbn. by rewrite delete_insert_eq, delete_id.
    + done.
    + destruct w as [e0 hp mm rvs ib lg]; cbn. by destruct ib.
    + cbn. by rewrite <- !app_assoc.
Qed.

Lemma user_buffer_scatter bufs : forall body mem v,
  user_buffer mem v -> user_buffer (scatter bufs body mem) v.
Proof.
  induction bufs as [|v0 bufs IH]; intros body mem v Hv; [done|].
  rewrite scatter_cons. cbv zeta. apply IH. by apply user_buffer_poke.
Qed.

(** Two stores at the same place: the second, when it is as long as
    the first, is the one that stays. *)
Lemma poke_poke_same p d1 d2 mem :
  length d1 = length d2 ->
  poke p d2 (poke p d1 mem) = poke p d2 mem.
Proof.
  intros Hl. unfold poke. destruct p as [| |[b| |] off]; try done.
  destruct (mem !! b) as [cs|] eqn:E; [|by rewrite E].
  unfold wr. rewrite Hl.
  destruct ((0 <=? off) && (off + Z.of_nat (length d2) <=? Z.of_nat (length cs)))
    eqn:Eb; [|by rewrite E, Eb].
  apply andb_true_iff in Eb as [Hoff Hfit]. apply Z.leb_le in Hoff, Hfit.
  rewrite lookup_insert_eq.
  rewrite !length_app, length_take, length_drop.
  rewrite (proj2 (Z.leb_le 0 off)) by done.
  rewrite (proj2 (Z.leb_le _ _)) by lia. cbn [andb].
  rewrite insert_insert_eq. f_equal. f_equal.
  - rewrite take_app_le by (rewrite length_take; lia).
    rewrite take_take. f_equal. lia.
  - f_equal. rewrite drop_app_ge by (rewrite length_take; lia).
    rewrite length_take, drop_app_ge by lia.
    rewrite drop_drop. f_equal. lia.
Qed.

(** Two stores side by side are one store of the two pieces. *)
Lemma poke_poke_next b off d1 d2 mem cs :
  mem !! b = Some cs ->
  0 <= off ->
  off + Z.of_nat (length d1) + Z.of_nat (length d2) <= Z.of_nat (length cs) ->
  poke (Ptr (UserBlk b) (off + Z.of_nat (length d1))) d2
    (poke (Ptr (UserBlk b) off) d1 mem)
  = poke (Ptr (UserBlk b) off) (d1 ++ d2) mem.
Proof.
  intros E Hoff Hfit. unfold poke. rewrite E. unfold wr.
  rewrite (proj2 (Z.leb_le 0 off)) by done.
  rewrite (proj2 (Z.leb_le (off + Z.of_nat (length d1)) _)) by lia.
  cbn [andb]. rewrite lookup_insert_eq.
  rewrite !length_app, length_take, length_drop.
  rewrite (proj2 (Z.leb_le 0 _)) by lia.
  rewrite (proj2 (Z.leb_le _ _)) by lia.
  rewrite (proj2 (Z.leb_le _ _)) by (rewrite Nat2Z.inj_add; lia).
  cbn [andb]. rewrite insert_insert_eq. f_equal.
  rewrite <- app_assoc. 
  replace (Z.to_nat (off + Z.of_nat (length d1)))
    with (Z.to_nat off + length d1)%nat by lia.
  rewrite take_app_ge by (rewrite length_take; lia).
  rewrite length_take.
  replace (Z.to_nat off + length d1 - Z.to_nat off `min` length cs)%nat
    with (length d1) by lia.
  rewrite take_app_length. rewrite <- !app_assoc. f_equal. f_equal. f_equal.
  rewrite drop_app_ge by (rewrite length_take; lia).
  rewrite length_take, drop_app_ge by lia.
  rewrite drop_drop. f_equal. lia.
Qed.

Lemma user_buffer_part mem p n a k :
  user_buffer mem {| iov_base := p; iov_len := n |} ->
  0 <= a -> 0 <= k -> a + k <= n ->
  user_buffer mem {| iov_base := ptr_add p a; iov_len := k |}.
Proof.
  unfold user_buffer. cbn [iov_base iov_len].
  destruct p as [| |[b| |] off]; try done. cbn [ptr_add].
  destruct (mem !! b); [lia|done].
Qed.

Lemma ptr_add_0 p : ptr_add p 0 = p.
Proof. destruct p as [| |b off]; try done. cbn. by rewrite Z.add_0_r. Qed.

Lemma user_buffer_prefix mem p n k :
  user_buffer mem {| iov_base := p; iov_len := n |} ->
  0 <= k <= n ->
  user_buffer mem {| iov_base := p; iov_len := k |}.
Proof.
  intros Hu Hk. rewrite <- (ptr_add_0 p).
  apply (user_buffer_part mem p n 0 k); [done|lia..].
Qed.

Lemma nng_msg_header_len_live h m w :
  w_heap w !! h = Some m ->
  nng_msg_header_len h w = Some (Z.of_nat (length (msg_header m)), w).
Proof. intros E. unfold nng_msg_header_len, live. munfold. by rewrite E. Qed.

Lemma nng_msg_header_live h m w :
  w_heap w !! h = Some m ->
  nng_msg_header h w = Some (Ptr (HeaderBlk h) 0, w).
Proof. intros E. unfold nng_msg_header, live. munfold. by rewrite E. Qed.

Lemma load_header h m w :
  w_heap w !! h = Some m ->
  load (Ptr (HeaderBlk h) 0) (Z.of_nat (length (msg_header m))) w
  = Some (msg_header m, w).
Proof.
  intros E. unfold load. cbn [block_cells]. rewrite E.
  cbn [fmap option_fmap option_map]. unfold rd.
  change (0 + ?x) with x.
  rewrite (proj2 (Z.leb_le 0 (Z.of_nat _))) by lia. cbn [andb Z.leb Z.compare].
  rewrite Z.leb_refl, Nat2Z.id. change (Z.to_nat 0) with 0%nat.
  by rewrite drop_0, firstn_all.
Qed.

Lemma cmsghdr_cells_length a b c : length (cmsghdr_cells a b c) = 16%nat.
Proof.
  unfold cmsghdr_cells, bytes_cells.
  by rewrite length_fmap, !length_app, !le_bytes_length.
Qed.

Lemma set_mem_set_mem m1 m2 w : set_mem m1 (set_mem m2 w) = set_mem m1 w.
Proof. by destruct w. Qed.

(** The control block of nn_recvmsg on a buffer of the caller. *)
Lemma recvmsg_control_fixed_run msg m mh w :
  let hlen := Z.of_nat (length (msg_header m)) in
  let record := cmsghdr_cells hlen PROTO_SP SP_HDR ++ msg_header m in
  w_heap w !! msg = Some m ->
  msg_controllen mh <> NN_MSG ->
  user_buffer (w_mem w)
    {| iov_base := msg_control mh; iov_len := msg_controllen mh |} ->
  (NN_CMSG_SPACE hlen <= msg_controllen mh ->
   sizeof_cmsghdr + hlen <= NN_CMSG_SPACE hlen) ->
  recvmsg_control msg mh w
  = Some (Next tt,
          set_mem
            (if NN_CMSG_SPACE hlen <=? msg_controllen mh
             then poke (msg_control mh) record (w_mem w)
             else poke (msg_control mh)
                    (zeros (Z.min (msg_controllen mh) sizeof_cmsghdr))
                    (w_mem w)) w).
Proof.
  intros hlen record E Hs Hu Hmacro.
  assert (exists cb coff cs,
            msg_control mh = Ptr (UserBlk cb) coff /\
            w_mem w !! cb = Some cs /\ 0 <= coff /\
            0 <= msg_controllen mh /\
            coff + msg_controllen mh <= Z.of_nat (length cs))
    as (cb & coff & cs & Hctl & Hcs & Hoff & Htl & Hend).
  { unfold user_buffer in Hu. cbn [iov_base iov_len] in Hu.
    destruct (msg_control mh) as [| |[cb| |] coff]; try done.
    destruct (w_mem w !! cb) as [cs|] eqn:Ecs; [|done].
    exists cb, coff, cs. tauto. }
  set (tlen := msg_controllen mh) in *.
  set (k := if sizeof_cmsghdr <? tlen then sizeof_cmsghdr else tlen).
  assert (k = Z.min tlen sizeof_cmsghdr) as Hk.
  { unfold k. destruct (Z.ltb_spec sizeof_cmsghdr tlen); lia. }
  assert (0 <= k <= tlen) as Hkr by (unfold sizeof_cmsghdr in *; lia).
  unfold recvmsg_control.
  rewrite decide_False by (rewrite Hctl; done).
  rewrite bind_run, (nng_msg_header_len_live msg m) by done. fold hlen.
  apply Z.eqb_neq in Hs. fold tlen. rewrite Hs.
  rewrite bind_run, bind_run. fold k.
  rewrite (store_user _ _ (w_mem w)); [|done|].
  2:{ rewrite zeros_length. apply (user_buffer_prefix _ _ tlen); [done|lia]. }
  unfold mret at 1, M_ret at 1. cbv beta iota.
  set (mem1 := poke (msg_control mh) (zeros k) (w_mem w)).
  set (w1 := set_mem mem1 w).
  assert (w_heap w1 !! msg = Some m) as E1 by exact E.
  destruct (Z.leb_spec (NN_CMSG_SPACE hlen) tlen) as [Hfit|Hsmall].
  2:{ unfold mret, M_ret. subst w1 mem1. by rewrite Hk. }
  specialize (Hmacro Hfit).
  assert (k = 16) as Hk16 by (unfold sizeof_cmsghdr in *; lia).
  rewrite bind_run, (nng_msg_header_len_live msg m) by done. fold hlen.
  rewrite bind_run.
  rewrite (store_user _ _ mem1); [|done|].
  2:{ rewrite cmsghdr_cells_length. apply user_buffer_poke.
      apply (user_buffer_prefix _ _ tlen); [done|].
      unfold sizeof_cmsghdr in *. lia. }
  set (hdr := cmsghdr_cells hlen PROTO_SP SP_HDR).
  assert (length hdr = 16%nat) as Hhdr by apply cmsghdr_cells_length.
  set (mem2 := poke (msg_control mh) hdr mem1).
  set (w2 := set_mem mem2 w1).
  assert (w_heap w2 !! msg = Some m) as E2 by exact E.
  rewrite bind_run, (nng_msg_header_live msg m) by done.
  rewrite bind_run, (nng_msg_header_len_live msg m) by done. fold hlen.
  rewrite bind_run. unfold memcpy. rewrite bind_run.
  unfold hlen at 1. rewrite (load_header msg m w2 E2).
  unfold NN_CMSG_DATA.
  rewrite (store_user _ _ mem2); [|done|].
  2:{ do 2 apply user_buffer_poke.
      apply (user_buffer_part _ _ tlen); [done|unfold sizeof_cmsghdr; lia|lia|].
      fold hlen. lia. }
  unfold mret, M_ret. do 2 f_equal.
  change (w_mem w2) with mem2.
  subst w2 w1. rewrite !set_mem_set_mem. f_equal.
  subst mem2 mem1.
  rewrite Hk16, Hctl. cbn [ptr_add].
  rewrite poke_poke_same by (by rewrite zeros_length, Hhdr).
  replace sizeof_cmsghdr with (Z.of_nat (length hdr))
    by (by rewrite Hhdr).
  rewrite (poke_poke_next cb coff hdr (msg_header m) (w_mem w) cs);
    [done|done|done|].
  rewrite Hhdr. fold hlen. unfold sizeof_cmsghdr in *. lia.
Qed.

(** X8: the control information nn_recvmsg gives in a buffer of the
    caller.  The buffers are fixed ones and the native receive
    succeeds, as for C7; [msg_control] is a buffer of [msg_controllen]
    bytes.  When the room [NN_CMSG_SPACE] asks for the header of the
    message fits the buffer, the buffer receives at its start the
    record (length of the header, PROTO_SP, SP_HDR) followed by the
    header of the message, and can be read back so.  When it does not
    fit, the first min (msg_controllen, sizeof record) bytes are
    zeroed, nothing more is written, and the call succeeds all the
    same.  Either way the call returns the length of the body and the
    message is freed. *)
Theorem X8_recvmsg_control_buffer s mh flags f w :
  let bufs := take (Z.to_nat (msg_iovlen mh)) (msg_iov mh) in
  let m := arriving w in
  let hlen := Z.of_nat (length (msg_header m)) in
  let record := cmsghdr_cells hlen PROTO_SP SP_HDR ++ msg_header m in
  let filled := scatter bufs (msg_body m) (w_mem w) in
  flags_pass flags f ->
  0 <= msg_iovlen mh -> length bufs = Z.to_nat (msg_iovlen mh) ->
  Forall (fixed_buffer (w_mem w)) bufs ->
  answer w = 0 ->
  msg_len m < 2 ^ 31 ->
  msg_controllen mh <> NN_MSG ->
  user_buffer (w_mem w)
    {| iov_base := msg_control mh; iov_len := msg_controllen mh |} ->
  (NN_CMSG_SPACE hlen <= msg_controllen mh ->
   sizeof_cmsghdr + hlen <= NN_CMSG_SPACE hlen) ->
  exists msg w',
    nn_recvmsg s (Some mh) flags w = Some (msg_len m, w') /\
    w_heap w' = w_heap w /\
    w_log w' = w_log w ++ [E_recvmsg s f 0; E_msg_free msg] /\
    (NN_CMSG_SPACE hlen <= msg_controllen mh ->
     w_mem w' = poke (msg_control mh) record filled /\
     load (msg_control mh) (sizeof_cmsghdr + hlen) w' = Some (record, w')) /\
    (msg_controllen mh < NN_CMSG_SPACE hlen ->
     w_mem w' = poke (msg_control mh)
                  (zeros (Z.min (msg_controllen mh) sizeof_cmsghdr)) filled).
Proof.
  intros bufs m hlen record filled Hf Hcount Hlen Hok Ha HL Hs Hu Hmacro.
  pose proof (nn_recvmsg_fixed_prefix s mh flags f w Hf Hcount Hlen Hok Ha)
    as Hrun. cbv zeta in Hrun. fold bufs m filled in Hrun.
  set (msg := fresh (dom (w_heap w))) in *.
  assert (w_heap w !! msg = None) as Hfresh
    by (apply not_elem_of_dom, is_fresh).
  assert (to_int (msg_len m) = msg_len m) as Hint
    by (apply to_int_small; unfold msg_len in *; lia).
  set (w1 := set_mem filled _) in Hrun.
  assert (w_heap w1 !! msg = Some m) as E1 by apply lookup_insert_eq.
  assert (user_buffer (w_mem w1)
            {| iov_base := msg_control mh; iov_len := msg_controllen mh |})
    as Hu1 by (by apply user_buffer_scatter).
  pose proof (recvmsg_control_fixed_run msg m mh w1 E1 Hs Hu1 Hmacro) as Hc.
  cbv zeta in Hc. fold hlen record in Hc.
  change (w_mem w1) with filled in Hc.
  exists msg. eexists. split; [|split; [|split; [|split]]].
  - rewrite Hrun, bind_run, Hc. cbv beta iota. rewrite bind_run.
    rewrite (nng_msg_free_run msg m) by exact E1.
    unfold mret, M_ret. rewrite Hint. reflexivity.
  - cbn. by rewrite delete_insert_eq, delete_id.
  - cbn. by rewrite <- app_assoc.
  - intros Hfit. apply Z.leb_le in Hfit as Hfit'.
    cbn [w_mem set_heap logged set_log set_mem]. rewrite Hfit'.
    split; [done|].
    assert (Z.of_nat (length record) = sizeof_cmsghdr + hlen) as Hrl.
    { unfold record. rewrite length_app, cmsghdr_cells_length.
      unfold sizeof_cmsghdr, hlen. lia. }
    rewrite <- Hrl.
    apply (load_poke _ _ filled).
    { done. }
    apply (user_buffer_prefix _ _ (msg_controllen mh)); [done|].
    specialize (Hmacro Hfit). lia.
  - intros Hsmall. apply Z.leb_gt in Hsmall.
    cbn [w_mem set_heap logged set_log set_mem]. by rewrite Hsmall.
Qed.

Lemma stamp_and_trim_then {A} msg (k : pointer -> M A) w :
  (b ← nng_msg_body msg;
   store_ptr b (MsgPtr msg);;
   _ ← nng_msg_trim msg sizeof_ptr;
   c ← nng_msg_body msg;
   k c) w
  = ((b ← nng_msg_body msg;
      store_ptr b (MsgPtr msg);;
      _ ← nng_msg_trim msg sizeof_ptr;
      nng_msg_body msg) ≫= k) w.
Proof.
  rewrite !bind_run. destruct (nng_msg_body msg w) as [[b w1]|]; [|done].
  rewrite !bind_run. destruct (store_ptr b (MsgPtr msg) w1) as [[[] w2]|]; [|done].
  rewrite !bind_run. destruct (nng_msg_trim msg sizeof_ptr w2) as [[rv w3]|]; [|done].
  by rewrite bind_run.
Qed.

(** The control block of nn_recvmsg when the control data is to be a
    dynamic message. *)
Lemma recvmsg_control_dynamic_run msg m mh w :
  let hlen := Z.of_nat (length (msg_header m)) in
  let clen := NN_CMSG_SPACE hlen in
  let record := cmsghdr_cells hlen PROTO_SP SP_HDR ++ msg_header m in
  let nmsg := fresh (dom (w_heap w)) in
  let p := Ptr (BodyBlk nmsg) 8 in
  w_heap w !! msg = Some m ->
  msg_controllen mh = NN_MSG ->
  msg_control mh <> Null ->
  user_buffer (w_mem w)
    {| iov_base := msg_control mh; iov_len := sizeof_ptr |} ->
  sizeof_cmsghdr + hlen <= clen -> clen + sizeof_ptr < SIZE_MOD ->
  answer w = 0 ->
  recvmsg_control msg mh w
  = Some (Next tt,
          set_mem (poke (msg_control mh) (ptr_cells p) (w_mem w))
            (set_heap
               (<[nmsg := {| msg_header := [];
                             msg_room := ptr_cells (MsgPtr nmsg);
                             msg_body := record
                               ++ zeros (clen - sizeof_cmsghdr - hlen) |}]>
                  (w_heap w))
               (logged (E_msg_trim nmsg 8)
                  (logged (E_msg_alloc (clen + 8) 0) (answered w))))).
Proof.
  intros hlen clen record nmsg p E Hs Hnn Hu Hroom Hov Ha.
  assert (w_heap w !! nmsg = None) as Hfresh
    by (apply not_elem_of_dom, is_fresh).
  assert (nmsg <> msg) as Hne by (intros ->; by rewrite E in Hfresh).
  unfold recvmsg_control. rewrite decide_False by done.
  rewrite bind_run, (nng_msg_header_len_live msg m) by done. fold hlen clen.
  apply Z.eqb_eq in Hs. rewrite Hs.
  rewrite bind_run, bind_run, nng_msg_alloc_run, Ha. cbn [Z.eqb].
  cbv zeta beta iota. fold nmsg.
  rewrite size_add_small by (unfold sizeof_ptr, sizeof_cmsghdr in *; lia).
  change (clen + sizeof_ptr) with (clen + 8).
  rewrite stamp_and_trim_then, bind_run.
  rewrite stamp_and_trim with (m := fresh_msg (clen + 8)).
  2:{ cbn [w_heap set_heap]. apply lookup_insert_eq. }
  2:{ cbn [fresh_msg msg_body]. rewrite zeros_length.
      unfold sizeof_cmsghdr in *. lia. }
  change (Z.of_nat (msg_start (fresh_msg (clen + 8))) + 8) with 8. fold p.
  rewrite bind_run. unfold store_ptr at 1.
  rewrite (store_user _ _ (w_mem w)) by done.
  unfold mret at 1, M_ret at 1. cbv beta iota.
  rewrite Z.leb_refl.
  set (me := envelope nmsg (fresh_msg (clen + 8))).
  set (w3 := set_mem _ _).
  assert (w_heap w3 !! msg = Some m) as E3.
  { subst w3. cbn. rewrite !lookup_insert_ne by done. done. }
  assert (w_heap w3 !! nmsg = Some me) as En3.
  { subst w3. cbn. apply lookup_insert_eq. }
  rewrite bind_run, (nng_msg_header_len_live msg m) by done. fold hlen.
  set (hdr := cmsghdr_cells hlen PROTO_SP SP_HDR).
  assert (length hdr = 16%nat) as Hhdr by apply cmsghdr_cells_length.
  set (body0 := msg_body me).
  assert (length body0 = Z.to_nat clen) as Hb0.
  { subst body0 me. cbn [envelope msg_body fresh_msg].
    rewrite length_drop, zeros_length. unfold sizeof_ptr. lia. }
  rewrite bind_run. subst p.
  rewrite (store_body nmsg me 8 hdr
             (ptr_cells (MsgPtr nmsg) ++ hdr ++ drop (length hdr) body0) w3 En3).
  2:{ change 8 with (Z.of_nat (length (ptr_cells (MsgPtr nmsg)))).
      unfold msg_chunk. change (msg_room me) with (ptr_cells (MsgPtr nmsg)).
      apply wr_at_body. rewrite Hhdr, Hb0.
      unfold sizeof_cmsghdr in *. lia. }
  change (msg_start me) with (length (ptr_cells (MsgPtr nmsg))).
  rewrite take_app_length, drop_app_length.
  set (me1 := {| msg_header := msg_header me |}).
  set (w4 := set_heap _ w3).
  assert (w_heap w4 !! msg = Some m) as E4.
  { subst w4. cbn [w_heap set_heap]. by rewrite lookup_insert_ne. }
  assert (w_heap w4 !! nmsg = Some me1) as En4.
  { subst w4. cbn [w_heap set_heap]. apply lookup_insert_eq. }
  rewrite bind_run, (nng_msg_header_live msg m) by done.
  rewrite bind_run, (nng_msg_header_len_live msg m) by done. fold hlen.
  rewrite bind_run. unfold memcpy. rewrite bind_run.
  unfold hlen at 1. rewrite (load_header msg m w4 E4).
  unfold NN_CMSG_DATA. cbn [ptr_add].
  rewrite (store_body nmsg me1 (8 + sizeof_cmsghdr) (msg_header m)
             ((ptr_cells (MsgPtr nmsg) ++ hdr) ++ msg_header m
                ++ drop (length (msg_header m)) (drop (length hdr) body0))
             w4 En4).
  2:{ replace (8 + sizeof_cmsghdr)
        with (Z.of_nat (length (ptr_cells (MsgPtr nmsg) ++ hdr)))
        by (rewrite length_app, Hhdr; reflexivity).
      unfold msg_chunk, me1. cbn [msg_room msg_body].
      rewrite app_assoc. apply wr_at_body.
      rewrite length_drop, Hhdr, Hb0. unfold sizeof_cmsghdr, hlen in *. lia. }
  unfold mret, M_ret. do 2 f_equal.
  change (msg_start me1) with (length (ptr_cells (MsgPtr nmsg))).
  rewrite <- (app_assoc (ptr_cells _) hdr).
  rewrite take_app_length, drop_app_length.
  subst w4 w3. destruct w as [e0 hp mm rvs ib lg].
  unfold set_mem, set_heap, logged, set_log, answered, set_rvs.
  cbn [w_errno w_heap w_mem w_rvs w_inbox w_log]. f_equal.
  rewrite !insert_insert_eq. f_equal. unfold me1. cbn [msg_header me envelope fresh_msg].
  f_equal. unfold record. fold hdr. rewrite <- app_assoc. do 2 f_equal.
  rewrite drop_drop. subst body0 me. cbn [envelope msg_body fresh_msg].
  unfold zeros. rewrite !drop_replicate. f_equal.
  rewrite Hhdr. unfold sizeof_ptr, sizeof_cmsghdr, hlen in *. lia.
Qed.

(** X9: the control information nn_recvmsg gives as a dynamic
    message.  The buffers are fixed ones and the native receive
    succeeds, as for C7; [msg_controllen] is the sentinel and
    [msg_control] points to a [void *] variable of the caller.  When
    the allocation succeeds, the variable receives a pointer to a new
    envelope: the word before it holds the handle of a new message of
    visible length [NN_CMSG_SPACE (header length)], which starts with
    the record and the header of the message received and is zero
    after them; the message received is freed, and nn_freemsg of the
    pointer frees the new one.  When the allocation fails, the call
    returns -1 after the buffers have been filled, and the message
    received is freed. *)
Theorem X9_recvmsg_control_dynamic s mh flags f w :
  let bufs := take (Z.to_nat (msg_iovlen mh)) (msg_iov mh) in
  let m := arriving w in
  let hlen := Z.of_nat (length (msg_header m)) in
  let clen := NN_CMSG_SPACE hlen in
  let record := cmsghdr_cells hlen PROTO_SP SP_HDR ++ msg_header m in
  let filled := scatter bufs (msg_body m) (w_mem w) in
  flags_pass flags f ->
  0 <= msg_iovlen mh -> length bufs = Z.to_nat (msg_iovlen mh) ->
  Forall (fixed_buffer (w_mem w)) bufs ->
  answer w = 0 ->
  msg_len m < 2 ^ 31 ->
  msg_controllen mh = NN_MSG ->
  user_buffer (w_mem w)
    {| iov_base := msg_control mh; iov_len := sizeof_ptr |} ->
  sizeof_cmsghdr + hlen <= clen -> clen + sizeof_ptr < SIZE_MOD ->
  (answer (answered w) = 0 ->
   exists msg nmsg nm p w',
     nn_recvmsg s (Some mh) flags w = Some (msg_len m, w') /\
     w_heap w !! nmsg = None /\
     w_heap w' = <[nmsg := nm]> (w_heap w) /\
     msg_len nm = clen /\
     load_ptr (msg_control mh) w' = Some (p, w') /\
     load_handle (ptr_add p (- sizeof_ptr)) w' = Some (nmsg, w') /\
     load p clen w'
     = Some (record ++ zeros (clen - sizeof_cmsghdr - hlen), w') /\
     w_log w' = w_log w ++ [E_recvmsg s f 0; E_msg_alloc (clen + sizeof_ptr) 0;
                            E_msg_trim nmsg sizeof_ptr; E_msg_free msg] /\
     exists w2, nn_freemsg p w' = Some (0, w2) /\ w_heap w2 = w_heap w) /\
  (answer (answered w) <> 0 ->
   exists msg w',
     nn_recvmsg s (Some mh) flags w = Some (-1, w') /\
     w_heap w' = w_heap w /\ w_mem w' = filled /\
     w_log w' = w_log w ++ [E_recvmsg s f 0;
                            E_msg_alloc (clen + sizeof_ptr) (answer (answered w));
                            E_msg_free msg]).
Proof.
  intros bufs m hlen clen record filled Hf Hcount Hlen Hok Ha HL Hs Hu Hroom Hov.
  pose proof (nn_recvmsg_fixed_prefix s mh flags f w Hf Hcount Hlen Hok Ha)
    as Hrun. cbv zeta in Hrun. fold bufs m filled in Hrun.
  set (msg := fresh (dom (w_heap w))) in *.
  assert (w_heap w !! msg = None) as Hfresh
    by (apply not_elem_of_dom, is_fresh).
  assert (to_int (msg_len m) = msg_len m) as Hint
    by (apply to_int_small; unfold msg_len in *; lia).
  set (w1 := set_mem filled _) in Hrun.
  assert (w_heap w1 !! msg = Some m) as E1 by apply lookup_insert_eq.
  assert (user_buffer (w_mem w1)
            {| iov_base := msg_control mh; iov_len := sizeof_ptr |})
    as Hu1 by (by apply user_buffer_scatter).
  assert (msg_control mh <> Null) as Hnn.
  { intros En. unfold user_buffer in Hu. cbn in Hu. by rewrite En in Hu. }
  assert (answer w1 = answer (answered w)) as Ha1 by reflexivity.
  split.
  - intros Hb. rewrite <- Ha1 in Hb.
    pose proof (recvmsg_control_dynamic_run msg m mh w1 E1 Hs Hnn Hu1 Hroom Hov Hb)
      as Hc. cbv zeta in Hc. fold hlen clen record in Hc.
    set (nmsg := fresh (dom (w_heap w1))) in *.
    assert (w_heap w1 !! nmsg = None) as Hn1
      by (apply not_elem_of_dom, is_fresh).
    assert (nmsg <> msg) as Hne by (intros En; by rewrite En, E1 in Hn1).
    assert (w_heap w !! nmsg = None) as Hn0.
    { subst w1. cbn in Hn1. by rewrite lookup_insert_ne in Hn1. }
    set (nm := {| msg_header := []; msg_room := ptr_cells (MsgPtr nmsg);
                  msg_body := record ++ zeros (clen - sizeof_cmsghdr - hlen) |})
      in *.
    set (p := Ptr (BodyBlk nmsg) 8) in *.
    set (w2 := set_mem _ _) in Hc.
    assert (w_heap w2 !! msg = Some m) as E2.
    { subst w2. cbn. by rewrite lookup_insert_ne. }
    set (w3 := set_heap (delete msg (w_heap w2)) (logged (E_msg_free msg) w2)).
    assert (w_heap w3 = <[nmsg := nm]> (w_heap w)) as Hh3.
    { subst w3 w2 w1. cbn.
      rewrite delete_insert_ne by done.
      by rewrite delete_insert_eq, delete_id. }
    assert (w_heap w3 !! nmsg = Some nm) as En3
      by (rewrite Hh3; apply lookup_insert_eq).
    assert (Z.of_nat (length (msg_body nm)) = clen) as Hnl.
    { unfold nm. cbn [msg_body]. unfold record.
      rewrite !length_app, cmsghdr_cells_length, zeros_length.
      unfold sizeof_cmsghdr, hlen in *. lia. }
    assert (load_handle (ptr_add p (- sizeof_ptr)) w3 = Some (nmsg, w3)) as Hlh.
    { unfold load_handle, load_ptr. rewrite !bind_run. cbn [ptr_add p].
      rewrite (load_body nmsg nm _ _ (ptr_cells (MsgPtr nmsg)) w3 En3).
      - unfold lift. by rewrite cells_ptr_cells.
      - unfold msg_chunk, nm. cbn [msg_room msg_body].
        change (8 + - sizeof_ptr) with (Z.of_nat (@length memval [])).
        rewrite <- (app_nil_l (ptr_cells _ ++ _)), app_assoc.
        by apply rd_mid. }
    exists msg, nmsg, nm, p, w3.
    split; [|split; [|split; [|split; [|split; [|split; [|split; [|split]]]]]]].
    + rewrite Hrun, bind_run, Hc. cbv beta iota. rewrite bind_run.
      rewrite (nng_msg_free_run msg m) by exact E2.
      unfold mret, M_ret. by rewrite Hint.
    + done.
    + done.
    + done.
    + apply (load_ptr_poke _ _ filled); [done|]. exact Hu1.
    + done.
    + replace (load p clen w3) with (load p (msg_len nm) w3)
        by (unfold msg_len; by rewrite Hnl).
      exact (load_whole_body nmsg nm w3 En3).
    + subst w3 w2 w1. cbn. unfold sizeof_ptr. by rewrite <- !app_assoc.
    + unfold nn_freemsg. rewrite bind_run, Hlh, bind_run.
      rewrite (nng_msg_free_run nmsg nm w3 En3). eexists. split; [reflexivity|].
      cbn [w_heap set_heap]. rewrite Hh3.
      by rewrite delete_insert_eq, delete_id.
  - intros Hb. rewrite <- Ha1 in Hb.
    set (w2 := set_heap (delete msg (w_heap w1))
                 (logged (E_msg_free msg)
                    (logged (E_msg_alloc (clen + 8) (answer w1)) (answered w1)))).
    destruct (nn_seterror_total (answer w1) w2) as [e He].
    exists msg, (set_errno e w2). split; [|split; [|split]].
    + rewrite Hrun, bind_run. unfold recvmsg_control.
      rewrite decide_False by done.
      rewrite bind_run, (nng_msg_header_len_live msg m) by done.
      fold hlen clen. apply Z.eqb_eq in Hs. rewrite Hs.
      rewrite bind_run, bind_run, nng_msg_alloc_run.
      apply Z.eqb_neq in Hb. rewrite Hb.
      rewrite size_add_small by (unfold sizeof_ptr, sizeof_cmsghdr in *; lia).
      change (clen + sizeof_ptr) with (clen + 8).
      rewrite bind_run.
      rewrite (nng_msg_free_run msg m) by exact E1.
      rewrite bind_run.
      change (w_heap (logged (E_msg_alloc (clen + 8) (answer w1)) (answered w1)))
        with (w_heap w1).
      fold w2. rewrite He. reflexivity.
    + subst w2 w1. cbn. by rewrite delete_insert_eq, delete_id.
    + done.
    + subst w2 w1. cbn. unfold sizeof_ptr. by rewrite <- !app_assoc.
Qed.
End ReceiveDynamic.


(** ** nn_sendmsg: buffers gathered, messages adopted *)

Lemma set_heap_set_heap h1 h2 w : set_heap h1 (set_heap h2 w) = set_heap h1 w.
Proof. by destruct w. Qed.

Lemma set_heap_same w : set_heap (w_heap w) w = w.
Proof. by destruct w. Qed.

Section SendGather.
Context `{!nng_h, !errno_h, !nng_compat_h}.

Lemma holding_total w bufs contents :
  holding w bufs contents ->
  foldr Z.add 0 (iov_len <$> bufs) = Z.of_nat (length (concat contents)) /\
  Forall (fun v => readable w v) bufs.
Proof.
  induction 1 as [|v cs bufs contents Hv _ [IH1 IH2]]; [by split|].
  destruct (load_length _ _ _ _ _ Hv) as [Hl _].
  split.
  - cbn [fmap list_fmap foldr concat]. rewrite length_app, IH1. lia.
  - constructor; [by exists cs|done].
Qed.

(** The copy loop of lines 492-496 on a message whose body has room
    left for the buffers. *)
Lemma sendmsg_gather_run iov msg hd w0 bufs contents :
  holding w0 bufs contents ->
  w_heap w0 !! msg = None ->
  forall i pre rest w,
    same_but msg w0 w ->
    (forall j v, bufs !! j = Some v -> iov !! (i + j)%nat = Some v) ->
    w_heap w !! msg = Some {| msg_header := hd; msg_room := [];
                              msg_body := pre ++ rest |} ->
    (length (concat contents) <= length rest)%nat ->
    sendmsg_gather iov (length bufs) i
      (Ptr (BodyBlk msg) (Z.of_nat (length pre))) w
    = Some (tt,
            set_heap
              (<[msg := {| msg_header := hd; msg_room := [];
                           msg_body := pre ++ concat contents
                             ++ drop (length (concat contents)) rest |}]>
                 (w_heap w)) w).
Proof.
  intros Hh Hfresh.
  induction Hh as [|v cs bufs contents Hv _ IH]; intros i pre rest w Hs Hidx E Hfit.
  - cbn. unfold mret, M_ret. do 2 f_equal.
    rewrite insert_id by done. by rewrite set_heap_same.
  - destruct (load_length _ _ _ _ _ Hv) as [Hl _].
    cbn [concat] in Hfit. rewrite length_app in Hfit.
    cbn [length sendmsg_gather]. rewrite bind_run. unfold lift at 1.
    pose proof (Hidx 0%nat v eq_refl) as Hhd. rewrite Nat.add_0_r in Hhd.
    rewrite Hhd.
    rewrite bind_run. unfold memcpy. rewrite bind_run.
    rewrite (load_same_but msg _ _ _ w0 w Hs Hfresh Hv).
    rewrite (store_body msg _ _ cs (pre ++ cs ++ drop (length cs) rest) w E).
    2:{ unfold msg_chunk. cbn [msg_room msg_body app].
        apply wr_at_body. lia. }
    cbn [msg_start msg_room length take drop msg_header ptr_add].
    rewrite <- Hl, <- Nat2Z.inj_add, <- length_app.
    rewrite (app_assoc pre cs).
    rewrite (IH (S i) (pre ++ cs) (drop (length cs) rest)).
    + rewrite set_heap_set_heap. cbn [w_heap set_heap].
      rewrite insert_insert_eq. do 3 f_equal.
      cbn [concat]. rewrite <- !app_assoc. do 2 f_equal.
      rewrite drop_drop, length_app. done.
    + eapply same_but_trans; [exact Hs|]. split; [done|].
      intros h Hne. cbn. by rewrite lookup_insert_ne.
    + intros j v' Hj. replace (S i + j)%nat with (i + S j)%nat by lia.
      by apply Hidx.
    + cbn [w_heap set_heap]. apply lookup_insert_eq.
    + rewrite length_drop. lia.
Qed.

Lemma wants_dynamic_none mh w :
  let bufs := take (Z.to_nat (msg_iovlen mh)) (msg_iov mh) in
  length bufs = Z.to_nat (msg_iovlen mh) ->
  Forall (fun v => iov_len v <> NN_MSG) bufs ->
  wants_dynamic mh w = Some (false, w).
Proof.
  intros bufs Hlen Hok. unfold wants_dynamic.
  destruct (Z.eqb_spec (msg_iovlen mh) 1) as [E1|]; [|done].
  subst bufs. rewrite E1 in Hlen, Hok.
  destruct (msg_iov mh) as [|v rest]; [done|].
  rewrite bind_run. cbn. cbn in Hok. apply Forall_cons in Hok as [Hn _].
  apply Z.eqb_neq in Hn. by rewrite Hn.
Qed.

(** Lines 477-497 when the allocation succeeds. *)
Lemma sendmsg_message_run mh contents w :
  let bufs := take (Z.to_nat (msg_iovlen mh)) (msg_iov mh) in
  let total := Z.of_nat (length (concat contents)) in
  let msg := fresh (dom (w_heap w)) in
  0 <= msg_iovlen mh -> length bufs = Z.to_nat (msg_iovlen mh) ->
  Forall (fun v => iov_len v <> NN_MSG) bufs ->
  holding w bufs contents ->
  total < SIZE_MOD ->
  sendmsg_message mh w
  = if answer w =? 0 then
      Some (Next (msg, false),
            set_heap (<[msg := {| msg_header := []; msg_room := [];
                                  msg_body := concat contents |}]> (w_heap w))
              (logged (E_msg_alloc total 0) (answered w)))
    else
      (nn_seterror (answer w);; mret (Return (-1)))
        (logged (E_msg_alloc total (answer w)) (answered w)).
Proof.
  intros bufs total msg Hcount Hlen Hns Hh Hsum.
  destruct (holding_total w bufs contents Hh) as [Htot Hrd].
  assert (w_heap w !! msg = None) as Hfresh
    by (apply not_elem_of_dom, is_fresh).
  unfold sendmsg_message.
  rewrite bind_run, (wants_dynamic_none mh w) by done. cbv beta iota.
  rewrite bind_run, <- Hlen.
  rewrite (sendmsg_size_run _ bufs 0 0 w (take_lookup_prefix _ _)).
  rewrite (size_sum_exact bufs 0); [|done| |fold bufs; rewrite Htot; lia].
  2:{ eapply Forall_impl; [exact Hrd|]. intros v [cs Hv].
      by destruct (load_length _ _ _ _ _ Hv). }
  fold bufs. rewrite Htot. fold total. change (0 + total) with total.
  rewrite bind_run, nng_msg_alloc_run.
  destruct (Z.eqb_spec (answer w) 0) as [Ha|Ha]; cbv zeta beta iota; [|done].
  fold msg. rewrite bind_run.
  erewrite nng_msg_body_live by (cbn; apply lookup_insert_eq).
  rewrite bind_run. change (Z.of_nat (msg_start (fresh_msg total))) with 0.
  set (w1 := set_heap _ _).
  pose proof (sendmsg_gather_run (msg_iov mh) msg [] w bufs contents Hh Hfresh
                0 [] (zeros total) w1) as Hg.
  cbn [app length] in Hg. change (Z.of_nat 0) with 0 in Hg.
  rewrite Hg; clear Hg.
  - unfold mret, M_ret. do 2 f_equal. subst w1.
    rewrite set_heap_set_heap. cbn [w_heap set_heap].
    rewrite insert_insert_eq. do 3 f_equal.
    rewrite drop_ge by (rewrite zeros_length; lia). by rewrite app_nil_r.
  - split; [done|]. intros h Hne. subst w1. cbn. by rewrite lookup_insert_ne.
  - apply take_lookup_prefix.
  - subst w1. cbn. apply lookup_insert_eq.
  - rewrite zeros_length. lia.
Qed.

(** X10: the message nn_sendmsg makes of fixed buffers.  The count is
    not negative, no buffer has the sentinel for length, the buffers
    hold [contents] and the native allocation succeeds.  Lines 477-497
    allocate one new message, whose size is the sum of the lengths,
    and leave in its body the contents of the buffers, in order;
    nothing else changes. *)
Theorem X10_sendmsg_gathers_buffers mh contents w :
  let bufs := take (Z.to_nat (msg_iovlen mh)) (msg_iov mh) in
  let total := Z.of_nat (length (concat contents)) in
  0 <= msg_iovlen mh -> length bufs = Z.to_nat (msg_iovlen mh) ->
  Forall (fun v => iov_len v <> NN_MSG) bufs ->
  holding w bufs contents ->
  total < SIZE_MOD ->
  answer w = 0 ->
  exists msg w1,
    sendmsg_message mh w = Some (Next (msg, false), w1) /\
    w_heap w !! msg = None /\
    w_heap w1 = <[msg := {| msg_header := []; msg_room := [];
                            msg_body := concat contents |}]> (w_heap w) /\
    w_mem w1 = w_mem w /\
    w_log w1 = w_log w ++ [E_msg_alloc total 0] /\
    foldr Z.add 0 (iov_len <$> bufs) = total.
Proof.
  intros bufs total Hcount Hlen Hns Hh Hsum Ha.
  pose proof (sendmsg_message_run mh contents w Hcount Hlen Hns Hh Hsum) as Hrun.
  cbv zeta in Hrun. rewrite Ha in Hrun. cbn [Z.eqb] in Hrun.
  eexists _, _. split; [exact Hrun|].
  split; [apply not_elem_of_dom, is_fresh|].
  split; [done|]. split; [done|]. split; [done|].
  by destruct (holding_total w bufs contents Hh).
Qed.

Lemma sendmsg_no_control mh msg keep w :
  msg_control mh = Null -> sendmsg_control mh msg keep w = Some (Next None, w).
Proof. intros E. unfold sendmsg_control. by rewrite decide_True. Qed.

(** X11: nn_sendmsg of fixed buffers, without control data, leaves
    nothing behind.  The flags are accepted and the buffers are as in
    X10, with a total an [int] can hold.  When the allocation fails the
    call returns -1 and only errno and the record of the native layer
    change.  When the native send succeeds the call returns the total
    length; when it fails the call returns -1 and the message is
    freed.  In both cases the heap of messages and the caller's memory
    are what they were. *)
Theorem X11_sendmsg_buffers_outcome s mh flags f contents w :
  let bufs := take (Z.to_nat (msg_iovlen mh)) (msg_iov mh) in
  let total := Z.of_nat (length (concat contents)) in
  flags_pass flags f ->
  0 <= msg_iovlen mh -> length bufs = Z.to_nat (msg_iovlen mh) ->
  Forall (fun v => iov_len v <> NN_MSG) bufs ->
  holding w bufs contents ->
  total < 2 ^ 31 ->
  msg_control mh = Null ->
  (answer w <> 0 ->
   exists e,
     nn_sendmsg s (Some mh) flags w
     = Some (-1, set_errno e
                   (logged (E_msg_alloc total (answer w)) (answered w)))) /\
  (answer w = 0 -> answer (answered w) = 0 ->
   exists msg w',
     nn_sendmsg s (Some mh) flags w = Some (total, w') /\
     w_heap w' = w_heap w /\ w_mem w' = w_mem w /\
     w_log w' = w_log w ++ [E_msg_alloc total 0; E_sendmsg s msg f 0]) /\
  (answer w = 0 -> answer (answered w) <> 0 ->
   exists msg w',
     nn_sendmsg s (Some mh) flags w = Some (-1, w') /\
     w_heap w' = w_heap w /\ w_mem w' = w_mem w /\
     w_log w' = w_log w ++ [E_msg_alloc total 0;
                            E_sendmsg s msg f (answer (answered w));
                            E_msg_free msg]).
Proof.
  intros bufs total Hf Hcount Hlen Hns Hh Hsum Hctl.
  assert (total < SIZE_MOD) as Hsz by (unfold SIZE_MOD; lia).
  pose proof (sendmsg_message_run mh contents w Hcount Hlen Hns Hh Hsz) as Hrun.
  cbv zeta in Hrun. fold total in Hrun.
  assert (nn_sendmsg s (Some mh) flags w
          = (g ← sendmsg_message mh;
             match g with
             | Return z => mret z
             | Next (msg, keep) =>
                 c ← sendmsg_control mh msg keep;
                 match c with
                 | Return z => mret z
                 | Next cmsg =>
                     sz ← nng_msg_len msg;
                     rv ← nng_sendmsg s msg f;
                     if negb (rv =? 0) then
                       (if keep : bool then mret tt else nng_msg_free msg);;
                       nn_seterror rv;;
                       mret (-1)
                     else
                       match cmsg with
                       | Some cm => nng_msg_free cm
                       | None => mret tt
                       end;;
                       mret (to_int sz)
                 end
             end) w) as ->.
  { unfold nn_sendmsg. rewrite bind_run.
    destruct (nn_flags_pass flags f w Hf) as [-> ->].
    by rewrite (proj2 (Z.ltb_ge _ _)) by lia. }
  rewrite bind_run, Hrun.
  set (msg := fresh (dom (w_heap w))).
  assert (w_heap w !! msg = None) as Hfresh
    by (apply not_elem_of_dom, is_fresh).
  set (m := {| msg_header := []; msg_room := []; msg_body := concat contents |}).
  set (w1 := set_heap _ _).
  assert (w_heap w1 !! msg = Some m) as E1 by apply lookup_insert_eq.
  assert (answer w1 = answer (answered w)) as Ha1 by reflexivity.
  split; [|split].
  - intros Ha. apply Z.eqb_neq in Ha. rewrite Ha. rewrite bind_run.
    destruct (nn_seterror_total (answer w)
                (logged (E_msg_alloc total (answer w)) (answered w))) as [e ->].
    by exists e.
  - intros Ha Hb. rewrite Ha. cbn [Z.eqb]. cbv beta iota.
    rewrite bind_run, (sendmsg_no_control mh msg false w1 Hctl).
    cbv beta iota.
    rewrite bind_run, (nng_msg_len_live msg m) by done.
    rewrite bind_run, (nng_sendmsg_run s msg m) by done. rewrite Ha1, Hb.
    cbn [Z.eqb negb]. rewrite bind_run. unfold mret, M_ret. cbv beta iota.
    change (msg_len m) with total.
    rewrite to_int_small by (unfold total; lia).
    exists msg. eexists. split; [reflexivity|]. split; [|split].
    + subst w1. cbn. by rewrite delete_insert_eq, delete_id.
    + done.
    + cbn. by rewrite <- app_assoc.
  - intros Ha Hb. rewrite Ha. cbn [Z.eqb]. cbv beta iota.
    rewrite bind_run, (sendmsg_no_control mh msg false w1 Hctl).
    cbv beta iota.
    rewrite bind_run, (nng_msg_len_live msg m) by done.
    rewrite bind_run, (nng_sendmsg_run s msg m) by done. rewrite Ha1.
    set (w2 := logged (E_sendmsg s msg f (answer (answered w))) (answered w1)).
    assert (w_heap w2 !! msg = Some m) as E2 by exact E1.
    set (w3 := set_heap (delete msg (w_heap w2)) (logged (E_msg_free msg) w2)).
    destruct (nn_seterror_total (answer (answered w)) w3) as [e He].
    apply Z.eqb_neq in Hb. rewrite Hb. cbv beta iota. rewrite Hb. cbn [negb].
    rewrite bind_run, (nng_msg_free_run msg m) by exact E2.
    fold w3. rewrite bind_run, He.
    exists msg, (set_errno e w3). split; [reflexivity|]. split; [|split].
    + subst w3 w2 w1. cbn. by rewrite delete_insert_eq, delete_id.
    + done.
    + subst w3 w2 w1. cbn. by rewrite <- !app_assoc.
Qed.

(** nn_sendmsg of a message of the caller, up to the control data. *)
Lemma nn_sendmsg_adopt_prefix s mh flags f v msg w :
  flags_pass flags f ->
  msg_iovlen mh = 1 -> msg_iov mh !! 0%nat = Some v -> iov_len v = NN_MSG ->
  load_handle (ptr_add (iov_base v) (- sizeof_ptr)) w = Some (msg, w) ->
  nn_sendmsg s (Some mh) flags w
  = (c ← sendmsg_control mh msg true;
     match c with
     | Return z => mret z
     | Next cmsg =>
         sz ← nng_msg_len msg;
         rv ← nng_sendmsg s msg f;
         if negb (rv =? 0) then
           mret tt;;
           nn_seterror rv;;
           mret (-1)
         else
           match cmsg with
           | Some cm => nng_msg_free cm
           | None => mret tt
           end;;
           mret (to_int sz)
     end) w.
Proof.
  intros Hf Hn Hv Hs Hmsg. unfold nn_sendmsg. rewrite bind_run.
  destruct (nn_flags_pass flags f w Hf) as [-> ->].
  rewrite (proj2 (Z.ltb_ge _ _)) by lia.
  rewrite bind_run. unfold sendmsg_message.
  rewrite bind_run, (wants_dynamic_sole mh v) by done. cbv beta iota.
  rewrite bind_run. unfold lift at 1. rewrite Hv.
  rewrite bind_run, Hmsg. unfold mret at 1, M_ret at 1. cbv beta iota.
  reflexivity.
Qed.

(** X12: nn_sendmsg of a message of the caller, without control data.
    The only buffer has the sentinel for length and its base is the
    pointer of an envelope: the word before it holds the handle of a
    live message.  The native send is the only native call; no message
    is allocated and nothing is copied.  When it succeeds the call
    returns the length of the body and the message belongs to the
    native layer; when it fails the call returns -1 and the message is
    still the caller's, untouched. *)
Theorem X12_sendmsg_adopts_envelope s mh flags f v msg m w :
  flags_pass flags f ->
  msg_iovlen mh = 1 -> msg_iov mh !! 0%nat = Some v -> iov_len v = NN_MSG ->
  load_handle (ptr_add (iov_base v) (- sizeof_ptr)) w = Some (msg, w) ->
  w_heap w !! msg = Some m ->
  msg_len m < 2 ^ 31 ->
  msg_control mh = Null ->
  (answer w = 0 ->
   nn_sendmsg s (Some mh) flags w
   = Some (msg_len m,
           set_heap (delete msg (w_heap w))
             (logged (E_sendmsg s msg f 0) (answered w)))) /\
  (answer w <> 0 ->
   exists e,
     nn_sendmsg s (Some mh) flags w
     = Some (-1, set_errno e
                   (logged (E_sendmsg s msg f (answer w)) (answered w)))).
Proof.
  intros Hf Hn Hv Hs Hmsg E HL Hctl.
  rewrite (nn_sendmsg_adopt_prefix s mh flags f v msg w) by done.
  rewrite bind_run, (sendmsg_no_control mh msg true w Hctl). cbv beta iota.
  rewrite bind_run, (nng_msg_len_live msg m) by done.
  rewrite bind_run, (nng_sendmsg_run s msg m) by done.
  split.
  - intros Ha. rewrite Ha. cbn [Z.eqb negb]. rewrite bind_run.
    unfold mret, M_ret. cbv beta iota.
    by rewrite to_int_small by (unfold msg_len in *; lia).
  - intros Ha. apply Z.eqb_neq in Ha. rewrite Ha. cbv beta iota.
    rewrite Ha. cbn [negb]. rewrite bind_run. unfold mret at 1, M_ret at 1.
    cbv beta iota. rewrite bind_run.
    destruct (nn_seterror_total (answer w)
                (logged (E_sendmsg s msg f (answer w)) (answered w))) as [e ->].
    by exists e.
Qed.

(** X13: nn_sendmsg of a message of the caller with control data in a
    buffer.  The control data are [clen] bytes [cs] at [msg_control].
    When the append to the header fails, the message is untouched.
    When the append succeeds and the native send fails, the call
    returns -1 and the message is still the caller's, but its header
    has grown by the control data: a second attempt appends them
    again.  When the send succeeds the call returns the length of the
    body, which does not count the control data. *)
Theorem X13_sendmsg_control_stays_appended s mh flags f v msg m cs w :
  flags_pass flags f ->
  msg_iovlen mh = 1 -> msg_iov mh !! 0%nat = Some v -> iov_len v = NN_MSG ->
  load_handle (ptr_add (iov_base v) (- sizeof_ptr)) w = Some (msg, w) ->
  w_heap w !! msg = Some m ->
  msg_len m < 2 ^ 31 ->
  msg_control mh <> Null -> msg_controllen mh <> NN_MSG ->
  load (msg_control mh) (msg_controllen mh) w = Some (cs, w) ->
  let sent := {| msg_header := msg_header m ++ cs; msg_room := msg_room m;
                 msg_body := msg_body m |} in
  (answer w <> 0 ->
   exists e,
     nn_sendmsg s (Some mh) flags w
     = Some (-1, set_errno e
                   (logged (E_msg_append_header msg (answer w)) (answered w)))) /\
  (answer w = 0 -> answer (answered w) <> 0 ->
   exists w',
     nn_sendmsg s (Some mh) flags w = Some (-1, w') /\
     w_heap w' = <[msg := sent]> (w_heap w) /\
     w_log w' = w_log w ++ [E_msg_append_header msg 0;
                            E_sendmsg s msg f (answer (answered w))]) /\
  (answer w = 0 -> answer (answered w) = 0 ->
   exists w',
     nn_sendmsg s (Some mh) flags w = Some (msg_len m, w') /\
     w_heap w' = delete msg (w_heap w) /\
     w_log w' = w_log w ++ [E_msg_append_header msg 0; E_sendmsg s msg f 0]).
Proof.
  intros Hf Hn Hv Hs Hmsg E HL Hnn Hcl Hcs sent.
  apply Z.eqb_neq in Hcl.
  assert (nn_sendmsg s (Some mh) flags w
          = match
              (if answer w =? 0
               then Some (0, set_heap (<[msg := sent]> (w_heap w))
                               (logged (E_msg_append_header msg 0) (answered w)))
               else Some (answer w,
                          logged (E_msg_append_header msg (answer w))
                            (answered w)))
            with
            | Some (rv, w1) =>
                (c ← (if negb (rv =? 0) then
                        mret tt;; nn_seterror rv;; mret (Return (-1))
                      else mret (Next None));
                 match c with
                 | Return z => mret z
                 | Next cmsg =>
                     sz ← nng_msg_len msg;
                     rv ← nng_sendmsg s msg f;
                     if negb (rv =? 0) then
                       mret tt;; nn_seterror rv;; mret (-1)
                     else
                       match cmsg with
                       | Some cm => nng_msg_free cm
                       | None => mret tt
                       end;;
                       mret (to_int sz)
                 end) w1
            | None => None
            end) as ->.
  { rewrite (nn_sendmsg_adopt_prefix s mh flags f v msg w) by done.
    rewrite bind_run. unfold sendmsg_control. rewrite decide_False by done.
    rewrite Hcl.
    rewrite bind_run. unfold mret at 1, M_ret at 1. cbv beta iota.
    rewrite bind_run, (nng_msg_append_header_run msg m _ _ cs) by done.
    fold sent. by destruct (answer w =? 0). }
  split; [|split].
  - intros Ha. apply Z.eqb_neq in Ha. rewrite Ha. cbv beta iota.
    rewrite Ha. cbn [negb]. rewrite bind_run, bind_run.
    unfold mret at 1, M_ret at 1. cbv beta iota. rewrite bind_run.
    destruct (nn_seterror_total (answer w)
                (logged (E_msg_append_header msg (answer w)) (answered w)))
      as [e ->].
    by exists e.
  - intros Ha Hb. rewrite Ha. cbn [Z.eqb negb]. cbv beta iota.
    rewrite bind_run. set (w1 := set_heap _ _).
    assert (w_heap w1 !! msg = Some sent) as E1 by apply lookup_insert_eq.
    assert (answer w1 = answer (answered w)) as Ha1 by reflexivity.
    unfold mret at 1, M_ret at 1. cbv beta iota.
    rewrite bind_run, (nng_msg_len_live msg sent) by done.
    rewrite bind_run, (nng_sendmsg_run s msg sent) by done. rewrite Ha1.
    apply Z.eqb_neq in Hb. rewrite Hb. cbv beta iota. rewrite Hb. cbn [negb].
    rewrite bind_run. unfold mret at 1, M_ret at 1. cbv beta iota.
    rewrite bind_run.
    destruct (nn_seterror_total (answer (answered w))
                (logged (E_sendmsg s msg f (answer (answered w)))
                   (answered w1))) as [e ->].
    eexists. split; [reflexivity|]. split; [done|].
    cbn. by rewrite <- app_assoc.
  - intros Ha Hb. rewrite Ha. cbn [Z.eqb negb]. cbv beta iota.
    rewrite bind_run. set (w1 := set_heap _ _).
    assert (w_heap w1 !! msg = Some sent) as E1 by apply lookup_insert_eq.
    assert (answer w1 = answer (answered w)) as Ha1 by reflexivity.
    unfold mret at 1, M_ret at 1. cbv beta iota.
    rewrite bind_run, (nng_msg_len_live msg sent) by done.
    rewrite bind_run, (nng_sendmsg_run s msg sent) by done. rewrite Ha1, Hb.
    cbn [Z.eqb negb]. rewrite bind_run. unfold mret, M_ret. cbv beta iota.
    change (msg_len sent) with (msg_len m).
    rewrite to_int_small by (unfold msg_len in *; lia).
    eexists. split; [reflexivity|]. split.
    + subst w1. cbn. by rewrite delete_insert_eq.
    + cbn. by rewrite <- app_assoc.
Qed.
End SendGather.


(** ** What is checked first *)

Section Validation.
Context `{!nng_h, !errno_h, !nng_compat_h}.

Lemma nn_flags_invalid flags w :
  codes_distinct -> flags <> 0 -> flags <> NN_DONTWAIT ->
  nn_flags flags w = Some (-1, set_errno EINVAL w).
Proof.
  intros Hd Hz Hdw. unfold nn_flags.
  apply Z.eqb_neq in Hz, Hdw. rewrite Hz, Hdw.
  by rewrite bind_run, nn_seterror_EINVAL.
Qed.

(** X14: the flags and the descriptor are checked before anything
    else.  With flags other than 0 and NN_DONTWAIT, each of nn_send,
    nn_recv, nn_sendmsg and nn_recvmsg returns -1 with errno EINVAL,
    whatever its other arguments and whatever the native layer would
    do; with accepted flags and a NULL descriptor, so do nn_sendmsg
    and nn_recvmsg.  Nothing but errno changes: no native call is
    made and no memory is read. *)
Theorem X14_flags_and_descriptor_checked_first s flags w :
  codes_distinct ->
  (flags <> 0 -> flags <> NN_DONTWAIT ->
   (forall mh, nn_sendmsg s mh flags w = Some (-1, set_errno EINVAL w)) /\
   (forall mh, nn_recvmsg s mh flags w = Some (-1, set_errno EINVAL w)) /\
   (forall nng_send buf len,
      nn_send nng_send s buf len flags w = Some (-1, set_errno EINVAL w)) /\
   (forall nng_recv buf len,
      nn_recv nng_recv s buf len flags w = Some (-1, set_errno EINVAL w))) /\
  (forall f, flags_pass flags f ->
   nn_sendmsg s None flags w = Some (-1, set_errno EINVAL w) /\
   nn_recvmsg s None flags w = Some (-1, set_errno EINVAL w)).
Proof.
  intros Hd. split.
  - intros Hz Hdw.
    pose proof (nn_flags_invalid flags w Hd Hz Hdw) as Hfl.
    split; [|split; [|split]]; intros.
    + unfold nn_sendmsg. by rewrite bind_run, Hfl.
    + unfold nn_recvmsg. by rewrite bind_run, Hfl.
    + unfold nn_send. by rewrite bind_run, Hfl.
    + unfold nn_recv. by rewrite bind_run, Hfl.
  - intros f Hf. destruct (nn_flags_pass flags f w Hf) as [Hfl Hne].
    split.
    + unfold nn_sendmsg. rewrite bind_run, Hfl, Hne.
      by rewrite bind_run, nn_seterror_EINVAL.
    + unfold nn_recvmsg. rewrite bind_run, Hfl, Hne.
      by rewrite bind_run, nn_seterror_EINVAL.
Qed.
End Validation.

(** ** The options nn_setsockopt passes on *)

Section MoreOptions.
Context `{!nng_h, !errno_h, !nng_compat_h}.

Lemma nng_setopt_run s opt valp sz w :
  nng_setopt s opt valp sz w
  = Some (answer w, logged (E_setopt s opt valp sz (answer w)) (answered w)).
Proof.
  unfold nng_setopt. by rewrite bind_run, next_rv_run, bind_run, log_run.
Qed.

(** X15: an option whose value is not milliseconds is passed on as it
    is.  For every level and option for which the switch yields a
    native option without the conversion, nn_setsockopt makes one
    native call, with the value and the size it was given, whatever
    the size; it returns 0 when the native layer accepts and -1, with
    the native error translated, when it does not. *)
Theorem X15_setsockopt_passes_value_on s nnlevel nnopt opt valp sz w :
  setsockopt_switch nnlevel nnopt = Some (opt, false) ->
  (answer w = 0 ->
   nn_setsockopt s nnlevel nnopt valp sz w
   = Some (0, logged (E_setopt s opt valp sz 0) (answered w))) /\
  (answer w <> 0 ->
   exists e,
     nn_seterror (answer w) w = Some (tt, set_errno e w) /\
     nn_setsockopt s nnlevel nnopt valp sz w
     = Some (-1, set_errno e (logged (E_setopt s opt valp sz (answer w))
                                (answered w)))).
Proof.
  intros Hsw.
  assert (nn_setsockopt s nnlevel nnopt valp sz w
          = (rv ← nng_setopt s opt valp sz;
             if negb (rv =? 0) then nn_seterror rv;; mret (-1) else mret 0) w)
    as ->.
  { unfold nn_setsockopt. by rewrite Hsw. }
  rewrite bind_run, nng_setopt_run. split.
  - intros Ha. by rewrite Ha.
  - intros Ha. apply Z.eqb_neq in Ha. rewrite Ha. cbn [negb].
    rewrite bind_run. unfold nn_seterror.
    destruct (seterror_loop nn_errnos (answer w)) as [e|]; eexists; done.
Qed.

Lemma switch_in_table nnlevel nnopt d :
  setsockopt_switch nnlevel nnopt = Some d ->
  (nnlevel, nnopt, d) ∈ supported_options.
Proof.
  unfold setsockopt_switch, supported_options.
  repeat match goal with
         | |- context [?a =? ?b] => destruct (Z.eqb_spec a b); subst
         end;
    intros; simplify_eq; apply list_elem_of_In; simpl; auto 20.
Qed.

(** X16: nn_setsockopt passes on nothing but the options of the table.
    For a level and an option that are not together in
    [supported_options], it returns -1 with errno ENOPROTOOPT and
    changes nothing else: the native layer is not called. *)
Theorem X16_setsockopt_unsupported s nnlevel nnopt valp sz w :
  (forall d, (nnlevel, nnopt, d) ∉ supported_options) ->
  nn_setsockopt s nnlevel nnopt valp sz w
  = Some (-1, set_errno ENOPROTOOPT w).
Proof.
  intros Hout. unfold nn_setsockopt.
  destruct (setsockopt_switch nnlevel nnopt) as [d|] eqn:E; [|done].
  apply switch_in_table in E. by apply Hout in E.
Qed.
End MoreOptions.


(** ** The one-time initializer in every interleaving *)

Section MoreOneTimeInit.
Import WinThread.

Lemma run_app a b s : run (a ++ b) s = run b (run a s).
Proof. revert s. induction a as [|t a IH]; intros s; [done|]. cbn. apply IH. Qed.

Lemma standing_insert f ths : forall t p p',
  ths !! t = Some p ->
  (standing f (<[t := p']> ths) + (if f p then 1 else 0)
   = standing f ths + (if f p' then 1 else 0))%nat.
Proof.
  induction ths as [|q ths IH]; intros t p p' Ht; [done|].
  destruct t as [|t].
  - cbn in Ht |- *. simplify_eq. destruct (f p), (f p'); lia.
  - change (<[S t := p']> (q :: ths)) with (q :: <[t := p']> ths).
    cbn [standing]. specialize (IH t p p' Ht).
    destruct (f q), (f p), (f p'); lia.
Qed.

Lemma standing_le f ths : (standing f ths <= length ths)%nat.
Proof. induction ths as [|p ths IH]; cbn; [lia|]. destruct (f p); lia. Qed.

Lemma standing_replicate f n p :
  standing f (replicate n p) = if f p then n else 0%nat.
Proof. induction n as [|n IH]; cbn; [by destruct (f p)|]. rewrite IH. by destruct (f p). Qed.

Lemma accounted_start n : accounted (start n).
Proof.
  split; cbn; rewrite standing_replicate; cbn; [done|].
  rewrite length_replicate. lia.
Qed.

Lemma accounted_sched t s : accounted s -> accounted (sched t s).
Proof.
  destruct s as [ths g]. intros [Hc Hb]. unfold sched.
  cbn [globals threads] in *.
  destruct (ths !! t) as [p|] eqn:Et; [|by split].
  destruct (step p g) as [p' g'] eqn:Es.
  pose proof (standing_insert in_helper ths t p p' Et) as Hi.
  pose proof (standing_insert before_helper ths t p p' Et) as Hj.
  split; cbn [globals threads]; rewrite ?length_insert;
    destruct p; cbn [step] in Es;
    unfold InterlockedCompareExchange, InterlockedExchange in Es;
    repeat match type of Es with
           | context [if ?c then _ else _] => destruct c
           end;
    simplify_eq; cbn in *; lia.
Qed.

Lemma accounted_run schedule : forall s, accounted s -> accounted (run schedule s).
Proof.
  induction schedule as [|t rest IH]; intros s Hs; [done|].
  cbn. apply IH. by apply accounted_sched.
Qed.

(** X18: in every interleaving of [n] callers that enter before any
    initialization, the helper has been entered at most [n] times, once
    per caller at most, and has returned at most as often as it has
    been entered. *)
Theorem X18_helper_at_most_once_per_caller n schedule :
  let s := run schedule (start n) in
  (helper_returns (globals s) <= helper_calls (globals s))%nat /\
  (helper_calls (globals s) <= n)%nat.
Proof.
  intros s.
  destruct (accounted_run schedule (start n) (accounted_start n)) as [Hc Hb].
  fold s in Hc, Hb.
  assert (length (threads s) = n) as Hlen.
  { subst s. clear. revert n.
    assert (forall sch s0, length (threads (run sch s0)) = length (threads s0)) as Hl.
    { induction sch as [|t sch IH]; intros s0; [done|]. cbn. rewrite IH.
      unfold sched. destruct (threads s0 !! t); [|done].
      destruct (step _ _). cbn. by rewrite length_insert. }
    intros n. rewrite Hl. cbn. by rewrite length_replicate. }
  split; lia.
Qed.

Lemma step_progress p g :
  initing g = 0 ->
  (steps_left (fst (step p g)) <= steps_left p - 1)%nat.
Proof.
  intros Hi. destruct p; cbn [step].
  - destruct (negb _); cbn; lia.
  - unfold InterlockedCompareExchange. rewrite Hi. cbn. lia.
  - cbn. lia.
  - destruct (_ =? _); cbn; lia.
  - cbn. lia.
  - cbn. lia.
  - cbn. lia.
  - cbn. lia.
  - cbn. lia.
Qed.

Lemma progress t schedule : forall s p,
  invariant s -> threads s !! t = Some p ->
  exists p', threads (run schedule s) !! t = Some p' /\
             (steps_left p' <= steps_left p - turns t schedule)%nat.
Proof.
  induction schedule as [|u rest IH]; intros s p Hinv Ht.
  - exists p. split; [done|]. cbn. lia.
  - cbn [run turns]. pose proof (invariant_sched u s Hinv) as Hinv'.
    destruct (decide (u = t)) as [->|Hne].
    + assert (exists p1, threads (sched t s) !! t = Some p1 /\
                         (steps_left p1 <= steps_left p - 1)%nat)
        as (p1 & Ht1 & Hp1).
      { unfold sched. rewrite Ht.
        pose proof (step_progress p (globals s) (proj1 Hinv)) as Hs.
        destruct (step p (globals s)) as [p1 g1]. exists p1. cbn in *.
        split; [|done]. apply list_lookup_insert_eq.
        by eapply lookup_lt_Some. }
      destruct (IH _ p1 Hinv' Ht1) as (p' & Ht' & Hp').
      exists p'. split; [done|]. lia.
    + assert (threads (sched u s) !! t = Some p) as Ht1.
      { unfold sched. destruct (threads s !! u); [|done].
        destruct (step _ _). cbn. by rewrite list_lookup_insert_ne. }
      destruct (IH _ p Hinv' Ht1) as (p' & Ht' & Hp').
      exists p'. split; [done|]. lia.
Qed.

(** X19: no caller ever waits.  Whatever the other threads do, a
    caller that has been given seven steps has returned: the loop of
    line 165 never turns, because the compare-and-exchange never
    finds the flag set. *)
Theorem X19_caller_returns_in_seven_steps n schedule t :
  (t < n)%nat -> (7 <= turns t schedule)%nat ->
  threads (run schedule (start n)) !! t = Some Returned.
Proof.
  intros Ht Hturns.
  destruct (progress t schedule (start n) L156 (invariant_start n))
    as (p' & Hp' & Hsl).
  { cbn. by apply lookup_replicate_2. }
  rewrite Hp'. f_equal. cbn in Hsl. destruct p'; cbn in Hsl; try lia. done.
Qed.

Lemma sched_at ths ths' p g :
  let t := length ths in
  sched t {| threads := ths ++ p :: ths'; globals := g |}
  = {| threads := ths ++ fst (step p g) :: ths'; globals := snd (step p g) |}.
Proof.
  intros t. unfold sched. cbn [threads globals].
  rewrite list_lookup_middle by done. destruct (step p g) as [p' g'].
  cbn [fst snd]. f_equal. subst t. by rewrite insert_app_r_alt, Nat.sub_diag by lia.
Qed.

Lemma replicate_snoc {A} n (x : A) : replicate n x ++ [x] = replicate (S n) x.
Proof. induction n as [|n IH]; [done|]. cbn. by rewrite IH. Qed.

Lemma all_returned_replicate n g :
  all_returned {| threads := replicate n Returned; globals := g |} = true.
Proof. unfold all_returned. cbn. induction n as [|n IH]; [done|]. cbn. exact IH. Qed.

(** A thread that has returned takes no more steps. *)
Lemma returned_stays k ths ths' g :
  length ths = k ->
  sched k {| threads := ths ++ Returned :: ths'; globals := g |}
  = {| threads := ths ++ Returned :: ths'; globals := g |}.
Proof. intros <-. by rewrite sched_at. Qed.

(** A call that enters once the initialization is complete returns at
    once. *)
Lemma late_call k j g :
  inited g <> 0 ->
  run (replicate 7 k)
    {| threads := replicate k Returned ++ replicate (S j) L156; globals := g |}
  = {| threads := replicate (S k) Returned ++ replicate j L156; globals := g |}.
Proof.
  intros Hi. cbn [replicate run].
  assert (length (replicate k Returned) = k) as Hk by apply length_replicate.
  pose proof (sched_at (replicate k Returned) (replicate j L156) L156 g) as Hs.
  cbv zeta in Hs. rewrite Hk in Hs. rewrite Hs. cbn [step].
  apply Z.eqb_neq in Hi. rewrite Hi. cbn [negb fst snd].
  rewrite !returned_stays by done.
  f_equal. change (Returned :: replicate j L156)
    with ([Returned] ++ replicate j L156).
  by rewrite app_assoc, replicate_snoc.
Qed.

Lemma late_calls j : forall k g,
  inited g <> 0 ->
  run (flat_map (fun t => replicate 7 t) (seq k j))
    {| threads := replicate k Returned ++ replicate j L156; globals := g |}
  = {| threads := replicate (k + j) Returned; globals := g |}.
Proof.
  induction j as [|j IH]; intros k g Hi.
  - cbn. by rewrite app_nil_r, Nat.add_0_r.
  - cbn [seq flat_map]. rewrite run_app, late_call by done.
    rewrite IH by done. do 2 f_equal. lia.
Qed.

(** X20: calls that do not overlap initialize exactly once.  When
    each of [n + 1] callers runs from its entry to its return before
    the next one enters, the first runs the helper and every later one
    finds [inited] set and returns at once: the helper is entered
    once. *)
Theorem X20_sequential_calls_initialize_once n :
  let s := run (sequential (S n)) (start (S n)) in
  helper_calls (globals s) = 1%nat /\
  helper_returns (globals s) = 1%nat /\
  inited (globals s) = 1 /\
  all_returned s = true.
Proof.
  intros s. subst s. unfold sequential.
  cbn [seq flat_map]. rewrite run_app.
  assert (run (replicate 7 0%nat) (start (S n))
          = {| threads := replicate 1 Returned ++ replicate n L156;
               globals := {| initing := 0; inited := 1;
                             helper_calls := 1; helper_returns := 1 |} |})
    as -> by reflexivity.
  rewrite late_calls by done.
  split; [done|]. split; [done|]. split; [done|].
  apply all_returned_replicate.
Qed.

(** One round of the lockstep schedule: every thread stands at [p]
    and takes the same step. *)
Lemma round p p' (f : statics -> statics) (P : statics -> Prop) :
  (forall g, P g -> step p g = (p', f g) /\ P (f g)) ->
  forall b a g, P g ->
    run (seq a b)
      {| threads := replicate a p' ++ replicate b p; globals := g |}
    = {| threads := replicate (a + b) p'; globals := Nat.iter b f g |} /\
    P (Nat.iter b f g).
Proof.
  intros Hstep. induction b as [|b IH]; intros a g Hg.
  - cbn. by rewrite app_nil_r, Nat.add_0_r.
  - cbn [seq run].
    pose proof (sched_at (replicate a p') (replicate b p) p g) as Hs.
    cbv zeta in Hs. rewrite length_replicate in Hs.
    cbn [replicate]. rewrite Hs.
    destruct (Hstep g Hg) as [-> Hg']. cbn [fst snd].
    change (p' :: replicate b p) with ([p'] ++ replicate b p).
    rewrite app_assoc, replicate_snoc.
    destruct (IH (S a) (f g) Hg') as [-> HP].
    rewrite Nat.iter_succ_r. split; [|done]. do 2 f_equal. lia.
Qed.

Lemma round_start p p' f P n g :
  (forall g, P g -> step p g = (p', f g) /\ P (f g)) -> P g ->
  run (seq 0 n) {| threads := replicate n p; globals := g |}
  = {| threads := replicate n p'; globals := Nat.iter n f g |} /\
  P (Nat.iter n f g).
Proof. intros Hstep Hg. exact (round p p' f P Hstep n 0%nat g Hg). Qed.

Lemma iter_id {A} n (x : A) : Nat.iter n (fun y => y) x = x.
Proof. induction n as [|n IH]; [done|]. cbn. exact IH. Qed.

Lemma iter_counters (f : statics -> statics) (dc dr : nat) :
  (forall g, helper_calls (f g) = (dc + helper_calls g)%nat /\
             helper_returns (f g) = (dr + helper_returns g)%nat) ->
  forall k g,
    helper_calls (Nat.iter k f g) = (k * dc + helper_calls g)%nat /\
    helper_returns (Nat.iter k f g) = (k * dr + helper_returns g)%nat.
Proof.
  intros Hf. induction k as [|k IH]; intros g; [done|].
  rewrite Nat.iter_succ. destruct (Hf (Nat.iter k f g)) as [-> ->].
  destruct (IH g) as [-> ->]. lia.
Qed.

(** X21: calls that overlap entirely all run the helper.  When [n]
    callers enter before any initialization and take their steps in
    turn, each finds [inited] clear and passes the
    compare-and-exchange: the helper is entered [n] times, which is
    the most it can be. *)
Theorem X21_lockstep_calls_all_run_helper n :
  let s := run (lockstep n) (start n) in
  helper_calls (globals s) = n /\
  helper_returns (globals s) = n /\
  all_returned s = true.
Proof.
  intros s. subst s. unfold lockstep, start.
  cbn [replicate concat]. rewrite !run_app. cbn [run].
  (* line 156: [inited] is clear *)
  destruct (round_start L156 L165 (fun g => g) (fun g => inited g = 0) n
              {| initing := 0; inited := 0; helper_calls := 0;
                 helper_returns := 0 |}) as [-> _]; [|done|].
  { intros g Hg. cbn [step]. by rewrite Hg. }
  rewrite iter_id.
  (* line 165: the compare-and-exchange finds 0 and reports 0 *)
  destruct (round_start L165 L168 (fun g => g) (fun g => initing g = 0) n
              {| initing := 0; inited := 0; helper_calls := 0;
                 helper_returns := 0 |}) as [-> _]; [|done|].
  { intros g Hg. cbn [step]. unfold InterlockedCompareExchange.
    rewrite Hg. cbn. split; [|done]. f_equal. destruct g; cbn in *. by subst. }
  rewrite iter_id.
  (* line 168: [inited] is still clear *)
  destruct (round_start L168 L169 (fun g => g) (fun g => inited g = 0) n
              {| initing := 0; inited := 0; helper_calls := 0;
                 helper_returns := 0 |}) as [-> _]; [|done|].
  { intros g Hg. cbn [step]. by rewrite Hg. }
  rewrite iter_id.
  (* line 169: every thread enters the helper, and leaves it *)
  pose (enter := fun g => {| initing := initing g; inited := inited g;
                             helper_calls := S (helper_calls g);
                             helper_returns := helper_returns g |}).
  pose (leave := fun g => {| initing := initing g; inited := inited g;
                             helper_calls := helper_calls g;
                             helper_returns := S (helper_returns g) |}).
  pose (mark := fun g => {| initing := initing g; inited := 1;
                            helper_calls := helper_calls g;
                            helper_returns := helper_returns g |}).
  pose (release := fun g => {| initing := 0; inited := inited g;
                               helper_calls := helper_calls g;
                               helper_returns := helper_returns g |}).
  set (g3 := {| initing := 0; inited := 0; helper_calls := 0;
                helper_returns := 0 |}).
  destruct (round_start L169 L169_running enter (fun _ => True) n g3)
    as [-> _]; [done|done|].
  set (g4 := Nat.iter n enter g3).
  destruct (round_start L169_running L170 leave (fun _ => True) n g4)
    as [-> _]; [done|done|].
  set (g5 := Nat.iter n leave g4).
  (* line 170, line 172 *)
  destruct (round_start L170 L172 mark (fun _ => True) n g5)
    as [-> _]; [done|done|].
  set (g6 := Nat.iter n mark g5).
  destruct (round_start L172 Returned release (fun _ => True) n g6)
    as [-> _]; [done|done|].
  set (g7 := Nat.iter n release g6).
  destruct (iter_counters enter 1 0 (fun g => conj eq_refl eq_refl) n g3)
    as [Hc4 Hr4].
  fold g4 in Hc4, Hr4. cbn [helper_calls helper_returns g3] in Hc4, Hr4.
  destruct (iter_counters leave 0 1 (fun g => conj eq_refl eq_refl) n g4)
    as [Hc5 Hr5]. fold g5 in Hc5, Hr5.
  destruct (iter_counters mark 0 0 (fun g => conj eq_refl eq_refl) n g5)
    as [Hc6 Hr6]. fold g6 in Hc6, Hr6.
  destruct (iter_counters release 0 0 (fun g => conj eq_refl eq_refl) n g6)
    as [Hc7 Hr7]. fold g7 in Hc7, Hr7.
  cbn [globals].
  split; [lia|]. split; [lia|]. apply all_returned_replicate.
Qed.
End MoreOneTimeInit.


(** ** nn_send and nn_recv *)

Section Transfers.
Context `{!nng_h, !errno_h, !nng_compat_h}.
Variable nng_send : Z -> pointer -> Z -> Z -> M Z.
Variable nng_recv : Z -> pointer -> Z -> Z -> M (Z * Z).

(** nn_recv with the sentinel for length, when the native receive and
    the prepend succeed. *)
Lemma nn_recv_dynamic_run s buf flags f w :
  let msg := fresh (dom (w_heap w)) in
  let m := arriving w in
  let p := Ptr (BodyBlk msg) (Z.of_nat (msg_start (enveloped msg m))) in
  flags_pass flags f ->
  user_buffer (w_mem w) {| iov_base := buf; iov_len := sizeof_ptr |} ->
  answer w = 0 -> answer (answered w) = 0 ->
  nn_recv nng_recv s buf NN_MSG flags w
  = Some (to_int (msg_len m),
          set_mem (poke buf (ptr_cells p) (w_mem w))
            (set_heap (<[msg := enveloped msg m]> (w_heap w))
               (logged (E_msg_trim msg sizeof_ptr)
                  (logged (E_msg_prepend msg 0)
                     (answered
                        (arrived (logged (E_recvmsg s f 0) (answered w)))))))).
Proof.
  intros msg m p Hf Hvar Ha Hb.
  destruct (received_world s f w Ha) as [Hrecv Hfresh]. cbv zeta in Hrecv.
  fold msg m in Hrecv, Hfresh.
  set (w1 := set_heap _ _) in Hrecv.
  assert (w_heap w1 !! msg = Some m) as E1 by apply lookup_insert_eq.
  assert (answer w1 = 0) as Ha1 by exact Hb.
  destruct (prepend_then_trim msg m w1 E1 Ha1) as (w2 & Hpre & w3 & Htrim & Hw3).
  assert (w_heap w3 !! msg = Some (enveloped msg m)) as E3
    by (rewrite Hw3; apply lookup_insert_eq).
  assert (w_mem w3 = w_mem w) as Hm3 by (by rewrite Hw3).
  unfold nn_recv. rewrite bind_run.
  destruct (nn_flags_pass flags f w Hf) as [-> ->].
  rewrite Z.eqb_refl.
  rewrite bind_run, Hrecv. cbv beta iota.
  rewrite bind_run, Hpre. cbn [Z.eqb negb]. cbv beta iota.
  rewrite bind_run, Htrim. cbv beta iota.
  rewrite bind_run, (nng_msg_body_live msg (enveloped msg m)) by done.
  rewrite bind_run. unfold store_ptr.
  rewrite (store_user _ _ (w_mem w)) by done. fold p.
  rewrite bind_run, (nng_msg_len_live msg (enveloped msg m)) by exact E3.
  unfold mret, M_ret. do 2 f_equal. rewrite Hw3.
  subst w1. destruct w as [e0 hp mm rvs ib lg].
  unfold set_mem, set_heap, logged, set_log, answered, set_rvs, arrived,
    set_inbox.
  cbn [w_errno w_heap w_mem w_rvs w_inbox w_log]. f_equal.
  by rewrite insert_insert_eq.
Qed.

(** X22: nn_recv with the sentinel for length hands the message over
    as an envelope, whatever nng_recv is.  [buf] points to a [void *]
    variable of the caller; the native receive and the prepend
    succeed.  The call returns the length of the body; the variable
    then holds a pointer at which the body can be read, the word before
    it holds the handle of the received message, which is live; and
    nn_freemsg of that pointer leaves the heap as it was before the
    call. *)
Theorem X22_recv_dynamic_envelope s buf flags f w :
  flags_pass flags f ->
  user_buffer (w_mem w) {| iov_base := buf; iov_len := sizeof_ptr |} ->
  answer w = 0 -> answer (answered w) = 0 ->
  msg_len (arriving w) < 2 ^ 31 ->
  exists msg p w',
    nn_recv nng_recv s buf NN_MSG flags w = Some (msg_len (arriving w), w') /\
    w_heap w !! msg = None /\
    is_Some (w_heap w' !! msg) /\
    load_ptr buf w' = Some (p, w') /\
    load_handle (ptr_add p (- sizeof_ptr)) w' = Some (msg, w') /\
    load p (msg_len (arriving w)) w' = Some (msg_body (arriving w), w') /\
    w_log w' = w_log w ++ [E_recvmsg s f 0; E_msg_prepend msg 0;
                           E_msg_trim msg sizeof_ptr] /\
    exists w2, nn_freemsg p w' = Some (0, w2) /\ w_heap w2 = w_heap w.
Proof.
  intros Hf Hvar Ha Hb HL.
  pose proof (nn_recv_dynamic_run s buf flags f w Hf Hvar Ha Hb) as Hrun.
  cbv zeta in Hrun.
  set (msg := fresh (dom (w_heap w))) in *.
  set (m := arriving w) in *.
  set (p := Ptr (BodyBlk msg) (Z.of_nat (msg_start (enveloped msg m)))) in *.
  set (w' := set_mem _ _) in Hrun.
  assert (w_heap w !! msg = None) as Hfresh
    by (apply not_elem_of_dom, is_fresh).
  assert (w_heap w' !! msg = Some (enveloped msg m)) as E'
    by apply lookup_insert_eq.
  rewrite to_int_small in Hrun by (unfold msg_len in *; lia).
  pose proof (load_handle_enveloped msg m w' E') as Hlh. fold p in Hlh.
  exists msg, p, w'. split; [done|]. split; [done|]. split; [by eexists|].
  split; [by apply (load_ptr_poke _ _ (w_mem w))|].
  split; [done|]. split; [by apply load_enveloped_body|].
  split.
  { cbn. by rewrite <- !app_assoc. }
  unfold nn_freemsg. rewrite bind_run, Hlh, bind_run.
  rewrite (nng_msg_free_run msg _ w' E'). eexists. split; [reflexivity|].
  cbn. by rewrite delete_insert_eq, delete_id.
Qed.

(** X23: nn_send with the sentinel for length sends the message of
    the caller, whatever nng_send is.  The word before [buf] holds the
    handle of a live message.  The native send of that message is the
    only native call.  When it succeeds the call returns the length of
    the body and the message belongs to the native layer; when it
    fails the call returns -1 and the message is still the caller's,
    untouched. *)
Theorem X23_send_adopts_envelope s buf flags f msg m w :
  flags_pass flags f ->
  load_handle (ptr_add buf (- sizeof_ptr)) w = Some (msg, w) ->
  w_heap w !! msg = Some m ->
  msg_len m < 2 ^ 31 ->
  (answer w = 0 ->
   nn_send nng_send s buf NN_MSG flags w
   = Some (msg_len m,
           set_heap (delete msg (w_heap w))
             (logged (E_sendmsg s msg f 0) (answered w)))) /\
  (answer w <> 0 ->
   exists e,
     nn_send nng_send s buf NN_MSG flags w
     = Some (-1, set_errno e
                   (logged (E_sendmsg s msg f (answer w)) (answered w)))).
Proof.
  intros Hf Hmsg E HL.
  assert (nn_send nng_send s buf NN_MSG flags w
          = match
              (if answer w =? 0
               then Some (0, set_heap (delete msg (w_heap w))
                               (logged (E_sendmsg s msg f 0) (answered w)))
               else Some (answer w,
                          logged (E_sendmsg s msg f (answer w)) (answered w)))
            with
            | Some (rv, w1) =>
                (if negb (rv =? 0) then nn_seterror rv;; mret (-1)
                 else mret (to_int (msg_len m))) w1
            | None => None
            end) as ->.
  { unfold nn_send. rewrite bind_run.
    destruct (nn_flags_pass flags f w Hf) as [-> ->].
    rewrite Z.eqb_refl.
    rewrite bind_run, bind_run, Hmsg.
    rewrite bind_run, (nng_msg_len_live msg m) by done.
    rewrite bind_run, (nng_sendmsg_run s msg m) by done.
    by destruct (answer w =? 0). }
  split.
  - intros Ha. rewrite Ha. cbn [Z.eqb negb]. unfold mret, M_ret.
    by rewrite to_int_small by (unfold msg_len in *; lia).
  - intros Ha. apply Z.eqb_neq in Ha. rewrite Ha. cbv beta iota.
    rewrite Ha. cbn [negb]. rewrite bind_run.
    destruct (nn_seterror_total (answer w)
                (logged (E_sendmsg s msg f (answer w)) (answered w))) as [e ->].
    by exists e.
Qed.

(** X24: a message received with the sentinel can be sent on with the
    sentinel.  nn_recv stores the pointer of the envelope in the
    caller's variable; nn_send of the pointer read from the variable
    sends the very message that was received: no message is allocated
    and nothing is copied.  After the two calls the heap is what it
    was, and both return the length of the body. *)
Theorem X24_recv_then_send_forwards s s' buf flags f flags' f' w :
  flags_pass flags f -> flags_pass flags' f' ->
  user_buffer (w_mem w) {| iov_base := buf; iov_len := sizeof_ptr |} ->
  answer w = 0 -> answer (answered w) = 0 ->
  answer (answered (answered w)) = 0 ->
  msg_len (arriving w) < 2 ^ 31 ->
  exists msg w',
    (n ← nn_recv nng_recv s buf NN_MSG flags;
     p ← load_ptr buf;
     n' ← nn_send nng_send s' p NN_MSG flags';
     mret (n, n')) w
    = Some ((msg_len (arriving w), msg_len (arriving w)), w') /\
    w_heap w' = w_heap w /\
    w_log w' = w_log w ++ [E_recvmsg s f 0; E_msg_prepend msg 0;
                           E_msg_trim msg sizeof_ptr; E_sendmsg s' msg f' 0].
Proof.
  intros Hf Hf' Hvar Ha Hb Hc HL.
  pose proof (nn_recv_dynamic_run s buf flags f w Hf Hvar Ha Hb) as Hrun.
  cbv zeta in Hrun.
  set (msg := fresh (dom (w_heap w))) in *.
  set (m := arriving w) in *.
  set (p := Ptr (BodyBlk msg) (Z.of_nat (msg_start (enveloped msg m)))) in *.
  set (w1 := set_mem _ _) in Hrun.
  assert (w_heap w !! msg = None) as Hfresh
    by (apply not_elem_of_dom, is_fresh).
  assert (w_heap w1 !! msg = Some (enveloped msg m)) as E1
    by apply lookup_insert_eq.
  assert (to_int (msg_len m) = msg_len m) as Hint
    by (apply to_int_small; unfold msg_len in *; lia).
  rewrite Hint in Hrun.
  pose proof (load_handle_enveloped msg m w1 E1) as Hlh. fold p in Hlh.
  assert (answer w1 = 0) as Ha1.
  { subst w1. destruct w as [e0 hp mm rvs ib lg]. exact Hc. }
  exists msg. eexists. split; [|split].
  - rewrite bind_run, Hrun.
    rewrite bind_run, (load_ptr_poke buf p (w_mem w) w1) by done.
    rewrite bind_run. unfold nn_send. rewrite bind_run.
    destruct (nn_flags_pass flags' f' w1 Hf') as [-> ->].
    rewrite Z.eqb_refl.
    rewrite bind_run, bind_run, Hlh.
    rewrite bind_run, (nng_msg_len_live msg (enveloped msg m)) by done.
    rewrite bind_run, (nng_sendmsg_run s' msg (enveloped msg m)) by done.
    rewrite Ha1. cbn [Z.eqb negb]. unfold mret, M_ret. cbv beta iota.
    change (msg_len (enveloped msg m)) with (msg_len m).
    rewrite Hint. reflexivity.
  - cbn. by rewrite delete_insert_eq, delete_id.
  - cbn. by rewrite <- !app_assoc.
Qed.
End Transfers.

(** ** nn_socket *)

Section SocketFacade.
Context `{!nng_h, !errno_h, !nng_compat_h}.
Variables AF_SP AF_SP_RAW EAFNOSUPPORT NNG_OPT_RAW : Z.
Variable nng_open : Z -> M (Z * Z).
Variable nng_close : Z -> M Z.


End SocketFacade.

(** ** The timed wait *)

Section TimedWait.
Context `{!nng_h}.

End TimedWait.

(** ** Allocate, then send *)

Section AllocateAndSend.
Context `{!nng_h, !errno_h, !nng_compat_h}.
Variable nng_send : Z -> pointer -> Z -> Z -> M Z.

(** X27: a message made by nn_allocmsg can be sent by nn_send with
    the sentinel.  When the allocation and the native send succeed,
    nn_send of the pointer nn_allocmsg returned sends the message
    that was allocated and returns [size], the length asked for; the
    heap is afterwards what it was before the allocation. *)
Theorem X27_allocmsg_then_send s flags f size w :
  flags_pass flags f ->
  0 < size < 2 ^ 31 ->
  answer w = 0 -> answer (answered w) = 0 ->
  exists msg w',
    (p ← nn_allocmsg size 0; nn_send nng_send s p NN_MSG flags) w
    = Some (size, w') /\
    w_heap w' = w_heap w /\
    w_log w' = w_log w ++ [E_msg_alloc (size + sizeof_ptr) 0;
                           E_msg_trim msg sizeof_ptr; E_sendmsg s msg f 0].
Proof.
  intros Hf Hsize Ha Hb.
  assert (size + sizeof_ptr < SIZE_MOD) as Hov
    by (unfold sizeof_ptr, SIZE_MOD; lia).
  pose proof (nn_allocmsg_valid size w ltac:(lia) Hov) as Hal.
  rewrite Ha in Hal. cbn [Z.eqb] in Hal. cbv zeta in Hal.
  set (msg := fresh (dom (w_heap w))) in *.
  assert (w_heap w !! msg = None) as Hfresh
    by (apply not_elem_of_dom, is_fresh).
  set (m := envelope msg (fresh_msg (size + 8))) in *.
  set (w1 := set_heap _ _) in Hal.
  assert (w_heap w1 !! msg = Some m) as E1 by apply lookup_insert_eq.
  pose proof (load_handle_envelope msg (fresh_msg (size + 8)) w1 E1) as Hl.
  change (Z.of_nat (msg_start (fresh_msg (size + 8))) + 8) with 8 in Hl.
  assert (msg_len m = size) as Hml.
  { unfold msg_len, m, envelope, fresh_msg. cbn [msg_body].
    rewrite length_drop, zeros_length. unfold sizeof_ptr. lia. }
  assert (answer w1 = 0) as Ha1 by exact Hb.
  exists msg. eexists. split; [|split].
  - rewrite bind_run, Hal. unfold nn_send. rewrite bind_run.
    destruct (nn_flags_pass flags f w1 Hf) as [-> ->].
    rewrite Z.eqb_refl.
    rewrite bind_run, bind_run, Hl.
    rewrite bind_run, (nng_msg_len_live msg m) by done.
    rewrite bind_run, (nng_sendmsg_run s msg m) by done.
    rewrite Ha1. cbn [Z.eqb negb]. unfold mret, M_ret. cbv beta iota.
    rewrite Hml, to_int_small by lia. reflexivity.
  - cbn. by rewrite delete_insert_eq, delete_id.
  - cbn. unfold sizeof_ptr. by rewrite <- !app_assoc.
Qed.
End AllocateAndSend.

(** ** The further properties at concrete inputs

    The constants are those of [sample_nng_h], [linux_errno_h] and
    [nanomsg_compat_h]. *)

Section MoreSamples.

#[local] Existing Instances sample_nng_h linux_errno_h nanomsg_compat_h.

Lemma sample_unlisted_native : 1000 = 0 \/ 1000 ∉ (nerr <$> nn_errnos).
Proof. right. apply (bool_decide_unpack _). vm_compute. exact I. Defined.

Lemma sample_unlisted_posix (err : Z) :
  bool_decide (err ∉ (perr <$> nn_errnos)) = true ->
  err = 0 \/ err ∉ (perr <$> nn_errnos).
Proof. intros E. right. by apply bool_decide_eq_true in E. Defined.

Lemma X1_seterror_unknown_is_EIO_witness :
  (1000 = 0 \/ 1000 ∉ (nerr <$> nn_errnos)) /\
  nn_seterror 1000 empty_world = Some (tt, set_errno EIO empty_world).
Proof.
  pose proof sample_unlisted_native as Hu.
  split; [exact Hu|].
  exact (X1_seterror_unknown_is_EIO 1000 empty_world Hu).
Defined.

Lemma X2_strerror_fallback_witness :
  (1000 = 0 \/ 1000 ∉ (perr <$> nn_errnos)) /\
  nn_strerror 1000 = snprintf_d "Unknown error %d" 1000 /\
  nn_strerror EIO = literal "Unknown I/O error".
Proof.
  assert (1000 = 0 \/ 1000 ∉ (perr <$> nn_errnos)) as Hu
    by (apply sample_unlisted_posix; vm_compute; reflexivity).
  assert (EIO = 0 \/ EIO ∉ (perr <$> nn_errnos)) as Hio
    by (apply sample_unlisted_posix; vm_compute; reflexivity).
  split; [exact Hu|]. split.
  - exact (X2_strerror_fallback 1000 Hu).
  - exact (X2_strerror_fallback EIO Hio).
Defined.

Lemma X3_unknown_error_text_witness :
  (EIO ∉ (perr <$> nn_errnos)) /\
  (1000 = 0 \/ 1000 ∉ (nerr <$> nn_errnos)) /\
  (nn_seterror 1000;; (e ← nn_errno; mret (nn_strerror e))) empty_world
  = Some (literal "Unknown I/O error", set_errno EIO empty_world).
Proof.
  assert (EIO ∉ (perr <$> nn_errnos)) as Hio
    by (apply (bool_decide_unpack _); vm_compute; exact I).
  pose proof sample_unlisted_native as Hu.
  split; [exact Hio|]. split; [exact Hu|].
  exact (X3_unknown_error_text 1000 empty_world Hio Hu).
Defined.

Lemma X4_freemsg_undoes_allocmsg_witness :
  let w1 := set_heap {[ 1%positive := envelope 1 (fresh_msg 13) ]}
              (logged (E_msg_trim 1 8)
                 (logged (E_msg_alloc 13 0) (answered empty_world))) in
  (nn_allocmsg 5 0 empty_world = Some (Ptr (BodyBlk 1) 8, w1) /\
   Ptr (BodyBlk 1) 8 <> Null /\ 0 < 5 /\ 5 + sizeof_ptr < SIZE_MOD) /\
  exists msg w2,
    nn_freemsg (Ptr (BodyBlk 1) 8) w1 = Some (0, w2) /\
    w_heap w2 = w_heap empty_world /\ w_mem w2 = w_mem empty_world /\
    w_errno w2 = w_errno empty_world /\
    w_log w2 = w_log empty_world
               ++ [E_msg_alloc (5 + sizeof_ptr) 0;
                   E_msg_trim msg sizeof_ptr; E_msg_free msg] /\
    nn_freemsg (Ptr (BodyBlk 1) 8) w2 = None.
Proof.
  intros w1.
  assert (nn_allocmsg 5 0 empty_world = Some (Ptr (BodyBlk 1) 8, w1)) as Ha
    by (vm_compute; reflexivity).
  assert (Ptr (BodyBlk 1) 8 <> Null) as Hp by discriminate.
  assert (0 < 5) as Hpos by lia.
  assert (5 + sizeof_ptr < SIZE_MOD) as Hov by (vm_compute; reflexivity).
  split; [tauto|].
  exact (X4_freemsg_undoes_allocmsg 5 empty_world _ w1 Ha Hp Hpos Hov).
Defined.

Lemma X5_reallocmsg_drops_payload_start_witness :
  (0 <= 4 /\ 4 + sizeof_ptr < SIZE_MOD /\
   load_handle (ptr_add (Ptr (BodyBlk 1) 8) (- sizeof_ptr)) demo_long_world
   = Some (1%positive, demo_long_world) /\
   w_heap demo_long_world !! 1%positive = Some demo_long_msg /\
   answer demo_long_world = 0) /\
  exists p w',
    nn_reallocmsg (Ptr (BodyBlk 1) 8) 4 demo_long_world = Some (p, w') /\
    load p 4 w' = Some (bytes_cells [9; 10; 0; 0], w').
Proof.
  assert (0 <= 4) as Hlen by lia.
  assert (4 + sizeof_ptr < SIZE_MOD) as Hov by (vm_compute; reflexivity).
  assert (load_handle (ptr_add (Ptr (BodyBlk 1) 8) (- sizeof_ptr))
            demo_long_world = Some (1%positive, demo_long_world)) as Hptr
    by (vm_compute; reflexivity).
  assert (w_heap demo_long_world !! 1%positive = Some demo_long_msg) as Hm
    by reflexivity.
  assert (answer demo_long_world = 0) as Ha by reflexivity.
  split; [tauto|].
  exact (X5_reallocmsg_drops_payload_start (Ptr (BodyBlk 1) 8) 4
           demo_long_world 1%positive demo_long_msg Hlen Hov Hptr Hm Ha).
Defined.

Lemma X6_recvmsg_dynamic_envelope_witness :
  let mh := demo_dynamic_hdr in
  let w := demo_mixed_world in
  let v := demo_buf 2 NN_MSG in
  (flags_pass 0 0 /\ msg_iovlen mh = 1 /\ msg_iov mh !! 0%nat = Some v /\
   iov_len v = NN_MSG /\ msg_control mh = Null /\
   user_buffer (w_mem w) {| iov_base := iov_base v; iov_len := sizeof_ptr |} /\
   answer w = 0 /\ answer (answered w) = 0 /\ msg_len (arriving w) < 2 ^ 31) /\
  exists msg p w',
    nn_recvmsg 0 (Some mh) 0 w = Some (6, w') /\
    w_heap w !! msg = None /\
    is_Some (w_heap w' !! msg) /\
    load_ptr (iov_base v) w' = Some (p, w') /\
    load_handle (ptr_add p (- sizeof_ptr)) w' = Some (msg, w') /\
    load p 6 w' = Some (bytes_cells [1; 2; 3; 4; 5; 6], w') /\
    w_log w' = w_log w ++ [E_recvmsg 0 0 0; E_msg_prepend msg 0;
                           E_msg_trim msg sizeof_ptr] /\
    exists w2, nn_freemsg p w' = Some (0, w2) /\ w_heap w2 = w_heap w.
Proof.
  intros mh w v.
  pose proof sample_flags_pass as Hf.
  assert (user_buffer (w_mem w)
            {| iov_base := iov_base v; iov_len := sizeof_ptr |}) as Hb
    by (vm_compute; repeat split; discriminate).
  assert (msg_len (arriving w) < 2 ^ 31) as Hl by (vm_compute; reflexivity).
  split.
  { exact (conj Hf (conj eq_refl (conj eq_refl (conj eq_refl (conj eq_refl
             (conj Hb (conj eq_refl (conj eq_refl Hl)))))))). }
  exact (X6_recvmsg_dynamic_envelope 0 mh 0 0 v w Hf eq_refl eq_refl eq_refl
           eq_refl Hb eq_refl eq_refl Hl).
Defined.

Lemma X7_recvmsg_failures_free_the_message_witness :
  let mh := demo_dynamic_hdr in
  let late := set_rvs [NNG_ETIMEDOUT] demo_mixed_world in
  let full := set_rvs [0; NNG_ENOMEM] demo_mixed_world in
  (flags_pass 0 0 /\ 0 <= msg_iovlen mh) /\
  (exists e,
     nn_recvmsg 0 (Some mh) 0 late
     = Some (-1, set_errno e
                   (logged (E_recvmsg 0 0 NNG_ETIMEDOUT) (answered late)))) /\
  (exists msg w',
     nn_recvmsg 0 (Some mh) 0 full = Some (-1, w') /\
     w_heap w' = w_heap full /\ w_mem w' = w_mem full /\
     w_inbox w' = [] /\
     w_log w' = [E_recvmsg 0 0 0; E_msg_prepend msg NNG_ENOMEM;
                 E_msg_free msg]).
Proof.
  intros mh late full.
  pose proof sample_flags_pass as Hf.
  assert (0 <= msg_iovlen mh) as Hn by (simpl; lia).
  split; [exact (conj Hf Hn)|]. split.
  - destruct (X7_recvmsg_failures_free_the_message 0 mh 0 0 late Hf Hn)
      as [Hfail _].
    apply Hfail. vm_compute. discriminate.
  - destruct (X7_recvmsg_failures_free_the_message 0 mh 0 0 full Hf Hn)
      as [_ Hfull].
    apply (Hfull (demo_buf 2 NN_MSG));
      first [reflexivity | vm_compute; discriminate].
Defined.

Lemma X8_recvmsg_control_buffer_witness :
  let w := demo_routed_world [] in
  let m := demo_routed_msg in
  let bufs := [demo_buf 1 4; demo_buf 2 2] in
  let record := cmsghdr_cells 4 PROTO_SP SP_HDR ++ msg_header m in
  let filled := scatter bufs (msg_body m) (w_mem w) in
  (flags_pass 0 0 /\ Forall (fixed_buffer (w_mem w)) bufs /\
   answer w = 0 /\ msg_len m < 2 ^ 31 /\
   NN_CMSG_SPACE 4 = 24 /\
   user_buffer (w_mem w) {| iov_base := Ptr (UserBlk 3) 0; iov_len := 32 |} /\
   user_buffer (w_mem w) {| iov_base := Ptr (UserBlk 3) 0; iov_len := 10 |}) /\
  (exists msg w',
     nn_recvmsg 0 (Some (demo_routed_hdr 32)) 0 w = Some (6, w') /\
     w_heap w' = w_heap w /\
     w_log w' = w_log w ++ [E_recvmsg 0 0 0; E_msg_free msg] /\
     w_mem w' = poke (Ptr (UserBlk 3) 0) record filled /\
     load (Ptr (UserBlk 3) 0) 20 w' = Some (record, w')) /\
  (exists msg w',
     nn_recvmsg 0 (Some (demo_routed_hdr 10)) 0 w = Some (6, w') /\
     w_heap w' = w_heap w /\
     w_log w' = w_log w ++ [E_recvmsg 0 0 0; E_msg_free msg] /\
     w_mem w' = poke (Ptr (UserBlk 3) 0) (zeros 10) filled).
Proof.
  intros w m bufs record filled.
  pose proof sample_flags_pass as Hf.
  assert (Forall (fixed_buffer (w_mem w)) bufs) as Hb
    by (repeat constructor; vm_compute; intros; discriminate).
  assert (msg_len m < 2 ^ 31) as Hl by (vm_compute; reflexivity).
  assert (user_buffer (w_mem w)
            {| iov_base := Ptr (UserBlk 3) 0; iov_len := 32 |}) as Hc
    by (vm_compute; repeat split; discriminate).
  assert (user_buffer (w_mem w)
            {| iov_base := Ptr (UserBlk 3) 0; iov_len := 10 |}) as Hc'
    by (vm_compute; repeat split; discriminate).
  split.
  { exact (conj Hf (conj Hb (conj eq_refl (conj Hl (conj eq_refl
             (conj Hc Hc')))))). }
  split.
  - destruct (X8_recvmsg_control_buffer 0 (demo_routed_hdr 32) 0 0 w Hf)
      as (msg & w' & Hrun & Hheap & Hlog & Hfits & _);
      first [ exact Hb | exact Hc | exact Hl | reflexivity
            | simpl; lia | vm_compute; discriminate | idtac ].
    destruct Hfits as [Hmem Hload]; [vm_compute; discriminate|].
    exists msg, w'. auto.
  - destruct (X8_recvmsg_control_buffer 0 (demo_routed_hdr 10) 0 0 w Hf)
      as (msg & w' & Hrun & Hheap & Hlog & _ & Hsmall);
      first [ exact Hb | exact Hc' | exact Hl | reflexivity
            | simpl; lia | vm_compute; discriminate | idtac ].
    exists msg, w'. split; [exact Hrun|]. split; [exact Hheap|].
    split; [exact Hlog|]. apply Hsmall. vm_compute. reflexivity.
Defined.

Lemma X9_recvmsg_control_dynamic_witness :
  let mh := demo_routed_hdr NN_MSG in
  let w := demo_routed_world [] in
  let short := demo_routed_world [0; NNG_ENOMEM] in
  let m := demo_routed_msg in
  let bufs := [demo_buf 1 4; demo_buf 2 2] in
  let record := cmsghdr_cells 4 PROTO_SP SP_HDR ++ msg_header m in
  (flags_pass 0 0 /\ Forall (fixed_buffer (w_mem w)) bufs /\
   msg_len m < 2 ^ 31 /\ msg_controllen mh = NN_MSG /\
   user_buffer (w_mem w)
     {| iov_base := msg_control mh; iov_len := sizeof_ptr |} /\
   NN_CMSG_SPACE 4 = 24) /\
  (exists msg nmsg nm p w',
     nn_recvmsg 0 (Some mh) 0 w = Some (6, w') /\
     w_heap w' = <[nmsg := nm]> (w_heap w) /\
     load_ptr (msg_control mh) w' = Some (p, w') /\
     load_handle (ptr_add p (- sizeof_ptr)) w' = Some (nmsg, w') /\
     load p 24 w' = Some (record ++ zeros 4, w') /\
     w_log w' = [E_recvmsg 0 0 0; E_msg_alloc 32 0;
                 E_msg_trim nmsg sizeof_ptr; E_msg_free msg] /\
     exists w2, nn_freemsg p w' = Some (0, w2) /\ w_heap w2 = w_heap w) /\
  (exists msg w',
     nn_recvmsg 0 (Some mh) 0 short = Some (-1, w') /\
     w_heap w' = w_heap short /\
     w_mem w' = scatter bufs (msg_body m) (w_mem short) /\
     w_log w' = [E_recvmsg 0 0 0; E_msg_alloc 32 NNG_ENOMEM;
                 E_msg_free msg]).
Proof.
  intros mh w short m bufs record.
  pose proof sample_flags_pass as Hf.
  assert (Forall (fixed_buffer (w_mem w)) bufs) as Hb
    by (repeat constructor; vm_compute; intros; discriminate).
  assert (msg_len m < 2 ^ 31) as Hl by (vm_compute; reflexivity).
  assert (user_buffer (w_mem w)
            {| iov_base := msg_control mh; iov_len := sizeof_ptr |}) as Hc
    by (vm_compute; repeat split; discriminate).
  split.
  { exact (conj Hf (conj Hb (conj Hl (conj eq_refl (conj Hc eq_refl))))). }
  split.
  - destruct (X9_recvmsg_control_dynamic 0 mh 0 0 w Hf) as [Hok _];
      first [ exact Hb | exact Hc | exact Hl | reflexivity
            | simpl; lia | vm_compute; discriminate | idtac ].
    destruct Hok as (msg & nmsg & nm & p & w' & Hrun & _ & Hheap & _ & Hp & Hh
                     & Hload & Hlog & Hfree); [reflexivity|].
    exists msg, nmsg, nm, p, w'. auto 10.
  - destruct (X9_recvmsg_control_dynamic 0 mh 0 0 short Hf) as [_ Hfail];
      first [ exact Hb | exact Hc | exact Hl | reflexivity
            | simpl; lia | vm_compute; discriminate | idtac ].
    apply Hfail. vm_compute. discriminate.
Defined.

Lemma X10_sendmsg_gathers_buffers_witness :
  let mh := demo_plain_hdr in
  let w := demo_send_world [] in
  let bufs := [demo_buf 4 2] in
  let contents := [bytes_cells [104; 105]] in
  (Forall (fun v => iov_len v <> NN_MSG) bufs /\ holding w bufs contents /\
   answer w = 0) /\
  exists msg w1,
    sendmsg_message mh w = Some (Next (msg, false), w1) /\
    w_heap w !! msg = None /\
    w_heap w1 = <[msg := {| msg_header := []; msg_room := [];
                            msg_body := bytes_cells [104; 105] |}]> (w_heap w) /\
    w_mem w1 = w_mem w /\
    w_log w1 = w_log w ++ [E_msg_alloc 2 0] /\
    foldr Z.add 0 (iov_len <$> bufs) = 2.
Proof.
  intros mh w bufs contents.
  assert (Forall (fun v => iov_len v <> NN_MSG) bufs) as Hb
    by (repeat constructor; vm_compute; discriminate).
  assert (holding w bufs contents) as Hh
    by (repeat constructor; vm_compute; reflexivity).
  split; [exact (conj Hb (conj Hh eq_refl))|].
  apply (X10_sendmsg_gathers_buffers mh contents w);
    first [ exact Hb | exact Hh | reflexivity | simpl; lia
          | vm_compute; reflexivity ].
Defined.

Lemma X11_sendmsg_buffers_outcome_witness :
  let mh := demo_plain_hdr in
  let bufs := [demo_buf 4 2] in
  let contents := [bytes_cells [104; 105]] in
  let w := demo_send_world [] in
  let short := demo_send_world [NNG_ENOMEM] in
  let late := demo_send_world [0; NNG_ETIMEDOUT] in
  (flags_pass 0 0 /\ Forall (fun v => iov_len v <> NN_MSG) bufs /\
   holding w bufs contents /\ holding short bufs contents /\
   holding late bufs contents /\ msg_control mh = Null) /\
  (exists e,
     nn_sendmsg 0 (Some mh) 0 short
     = Some (-1, set_errno e
                   (logged (E_msg_alloc 2 NNG_ENOMEM) (answered short)))) /\
  (exists msg w',
     nn_sendmsg 0 (Some mh) 0 w = Some (2, w') /\
     w_heap w' = w_heap w /\ w_mem w' = w_mem w /\
     w_log w' = [E_msg_alloc 2 0; E_sendmsg 0 msg 0 0]) /\
  (exists msg w',
     nn_sendmsg 0 (Some mh) 0 late = Some (-1, w') /\
     w_heap w' = w_heap late /\ w_mem w' = w_mem late /\
     w_log w' = [E_msg_alloc 2 0; E_sendmsg 0 msg 0 NNG_ETIMEDOUT;
                 E_msg_free msg]).
Proof.
  intros mh bufs contents w short late.
  pose proof sample_flags_pass as Hf.
  assert (Forall (fun v => iov_len v <> NN_MSG) bufs) as Hb
    by (repeat constructor; vm_compute; discriminate).
  assert (forall rvs, holding (demo_send_world rvs) bufs contents) as Hh
    by (intros rvs; repeat constructor).
  assert (0 <= msg_iovlen mh) as Hn by (simpl; lia).
  assert (Z.of_nat (length (concat contents)) < 2 ^ 31) as Hl
    by (vm_compute; reflexivity).
  split.
  { exact (conj Hf (conj Hb (conj (Hh _) (conj (Hh _) (conj (Hh _) eq_refl))))). }
  split; [|split].
  - destruct (X11_sendmsg_buffers_outcome 0 mh 0 0 contents short Hf Hn eq_refl
                Hb (Hh _) Hl eq_refl) as (Hfail & _ & _).
    apply Hfail. vm_compute. discriminate.
  - destruct (X11_sendmsg_buffers_outcome 0 mh 0 0 contents w Hf Hn eq_refl
                Hb (Hh _) Hl eq_refl) as (_ & Hok & _).
    apply Hok; reflexivity.
  - destruct (X11_sendmsg_buffers_outcome 0 mh 0 0 contents late Hf Hn eq_refl
                Hb (Hh _) Hl eq_refl) as (_ & _ & Hlate).
    apply Hlate; [reflexivity|vm_compute; discriminate].
Defined.

Lemma X12_sendmsg_adopts_envelope_witness :
  let mh := demo_adopt_hdr Null 0 in
  let v := {| iov_base := Ptr (BodyBlk 1) 8; iov_len := NN_MSG |} in
  let w := demo_send_world [] in
  let late := demo_send_world [NNG_ETIMEDOUT] in
  (flags_pass 0 0 /\ msg_iovlen mh = 1 /\ msg_iov mh !! 0%nat = Some v /\
   iov_len v = NN_MSG /\
   load_handle (ptr_add (iov_base v) (- sizeof_ptr)) w = Some (1%positive, w) /\
   load_handle (ptr_add (iov_base v) (- sizeof_ptr)) late
   = Some (1%positive, late) /\
   w_heap w !! 1%positive = Some demo_control_msg /\
   msg_len demo_control_msg < 2 ^ 31 /\ msg_control mh = Null) /\
  nn_sendmsg 0 (Some mh) 0 w
  = Some (3, set_heap ∅ (logged (E_sendmsg 0 1 0 0) (answered w))) /\
  (exists e,
     nn_sendmsg 0 (Some mh) 0 late
     = Some (-1, set_errno e
                   (logged (E_sendmsg 0 1 0 NNG_ETIMEDOUT) (answered late)))).
Proof.
  intros mh v w late.
  pose proof sample_flags_pass as Hf.
  assert (forall rvs,
            load_handle (ptr_add (iov_base v) (- sizeof_ptr))
              (demo_send_world rvs)
            = Some (1%positive, demo_send_world rvs)) as Hh
    by (intros rvs; reflexivity).
  assert (msg_len demo_control_msg < 2 ^ 31) as Hl by (vm_compute; reflexivity).
  split.
  { exact (conj Hf (conj eq_refl (conj eq_refl (conj eq_refl (conj (Hh _)
             (conj (Hh _) (conj eq_refl (conj Hl eq_refl)))))))). }
  split.
  - destruct (X12_sendmsg_adopts_envelope 0 mh 0 0 v 1%positive
                demo_control_msg w Hf eq_refl eq_refl eq_refl (Hh _) eq_refl
                Hl eq_refl) as [Hok _].
    exact (Hok eq_refl).
  - destruct (X12_sendmsg_adopts_envelope 0 mh 0 0 v 1%positive
                demo_control_msg late Hf eq_refl eq_refl eq_refl (Hh _) eq_refl
                Hl eq_refl) as [_ Hfail].
    apply Hfail. vm_compute. discriminate.
Defined.

Lemma X13_sendmsg_control_stays_appended_witness :
  let mh := demo_adopt_hdr (Ptr (UserBlk 4) 0) 2 in
  let v := {| iov_base := Ptr (BodyBlk 1) 8; iov_len := NN_MSG |} in
  let cs := bytes_cells [104; 105] in
  let sent := {| msg_header := cs; msg_room := ptr_cells (MsgPtr 1);
                 msg_body := bytes_cells [1; 2; 3] |} in
  let w := demo_send_world [] in
  let full := demo_send_world [NNG_ENOMEM] in
  let late := demo_send_world [0; NNG_ETIMEDOUT] in
  (flags_pass 0 0 /\ msg_iovlen mh = 1 /\ msg_iov mh !! 0%nat = Some v /\
   iov_len v = NN_MSG /\
   load_handle (ptr_add (iov_base v) (- sizeof_ptr)) w = Some (1%positive, w) /\
   w_heap w !! 1%positive = Some demo_control_msg /\
   msg_len demo_control_msg < 2 ^ 31 /\
   msg_control mh <> Null /\ msg_controllen mh <> NN_MSG /\
   load (msg_control mh) (msg_controllen mh) w = Some (cs, w)) /\
  (exists e,
     nn_sendmsg 0 (Some mh) 0 full
     = Some (-1, set_errno e
                   (logged (E_msg_append_header 1 NNG_ENOMEM) (answered full)))) /\
  (exists w',
     nn_sendmsg 0 (Some mh) 0 late = Some (-1, w') /\
     w_heap w' = {[ 1%positive := sent ]} /\
     w_log w' = [E_msg_append_header 1 0; E_sendmsg 0 1 0 NNG_ETIMEDOUT]) /\
  (exists w',
     nn_sendmsg 0 (Some mh) 0 w = Some (3, w') /\
     w_heap w' = ∅ /\
     w_log w' = [E_msg_append_header 1 0; E_sendmsg 0 1 0 0]).
Proof.
  intros mh v cs sent w full late.
  pose proof sample_flags_pass as Hf.
  assert (forall rvs,
            load_handle (ptr_add (iov_base v) (- sizeof_ptr))
              (demo_send_world rvs)
            = Some (1%positive, demo_send_world rvs)) as Hh
    by (intros rvs; reflexivity).
  assert (msg_len demo_control_msg < 2 ^ 31) as Hl by (vm_compute; reflexivity).
  assert (msg_control mh <> Null) as Hc by discriminate.
  assert (msg_controllen mh <> NN_MSG) as Hcl by (vm_compute; discriminate).
  assert (forall rvs,
            load (msg_control mh) (msg_controllen mh) (demo_send_world rvs)
            = Some (cs, demo_send_world rvs)) as Hcs
    by (intros rvs; reflexivity).
  split.
  { exact (conj Hf (conj eq_refl (conj eq_refl (conj eq_refl (conj (Hh _)
             (conj eq_refl (conj Hl (conj Hc (conj Hcl (Hcs _)))))))))). }
  split; [|split].
  - destruct (X13_sendmsg_control_stays_appended 0 mh 0 0 v 1%positive
                demo_control_msg cs full Hf eq_refl eq_refl eq_refl (Hh _)
                eq_refl Hl Hc Hcl (Hcs _)) as (Hfail & _ & _).
    apply Hfail. vm_compute. discriminate.
  - destruct (X13_sendmsg_control_stays_appended 0 mh 0 0 v 1%positive
                demo_control_msg cs late Hf eq_refl eq_refl eq_refl (Hh _)
                eq_refl Hl Hc Hcl (Hcs _)) as (_ & Hlate & _).
    destruct Hlate as (w' & Hrun & Hheap & Hlog);
      [reflexivity|vm_compute; discriminate|].
    exists w'. split; [exact Hrun|]. split; [|exact Hlog].
    rewrite Hheap. apply insert_singleton_eq.
  - destruct (X13_sendmsg_control_stays_appended 0 mh 0 0 v 1%positive
                demo_control_msg cs w Hf eq_refl eq_refl eq_refl (Hh _)
                eq_refl Hl Hc Hcl (Hcs _)) as (_ & _ & Hok).
    destruct Hok as (w' & Hrun & Hheap & Hlog); [reflexivity|reflexivity|].
    exists w'. split; [exact Hrun|]. split; [|exact Hlog].
    rewrite Hheap. apply delete_singleton_eq.
Defined.

Lemma X14_flags_and_descriptor_checked_first_witness :
  codes_distinct /\
  nn_sendmsg 0 (Some demo_send_hdr) 4 (demo_send_world [])
  = Some (-1, set_errno EINVAL (demo_send_world [])) /\
  nn_recvmsg 0 (Some demo_recv_hdr) 4 demo_recv_world
  = Some (-1, set_errno EINVAL demo_recv_world) /\
  nn_send no_send 0 (Ptr (BodyBlk 1) 8) NN_MSG 4 (demo_send_world [])
  = Some (-1, set_errno EINVAL (demo_send_world [])) /\
  nn_recv no_recv 0 (Ptr (UserBlk 2) 0) NN_MSG 4 demo_mixed_world
  = Some (-1, set_errno EINVAL demo_mixed_world) /\
  nn_sendmsg 0 None NN_DONTWAIT empty_world
  = Some (-1, set_errno EINVAL empty_world) /\
  nn_recvmsg 0 None 0 demo_recv_world
  = Some (-1, set_errno EINVAL demo_recv_world).
Proof.
  pose proof sample_codes_distinct as Hd.
  assert (4 <> 0) as Hz by lia.
  assert (4 <> NN_DONTWAIT) as Hw by (vm_compute; discriminate).
  assert (flags_pass NN_DONTWAIT NNG_FLAG_NONBLOCK) as Hnb.
  { split; [vm_compute; discriminate|]. right.
    split; [vm_compute; discriminate|]. split; reflexivity. }
  split; [exact Hd|].
  split.
  { destruct (X14_flags_and_descriptor_checked_first 0 4 (demo_send_world [])
                Hd) as [Hbad _].
    destruct (Hbad Hz Hw) as (Hs & _). apply Hs. }
  split.
  { destruct (X14_flags_and_descriptor_checked_first 0 4 demo_recv_world Hd)
      as [Hbad _].
    destruct (Hbad Hz Hw) as (_ & Hr & _). apply Hr. }
  split.
  { destruct (X14_flags_and_descriptor_checked_first 0 4 (demo_send_world [])
                Hd) as [Hbad _].
    destruct (Hbad Hz Hw) as (_ & _ & Hs & _). apply Hs. }
  split.
  { destruct (X14_flags_and_descriptor_checked_first 0 4 demo_mixed_world Hd)
      as [Hbad _].
    destruct (Hbad Hz Hw) as (_ & _ & _ & Hr). apply Hr. }
  split.
  - destruct (X14_flags_and_descriptor_checked_first 0 NN_DONTWAIT empty_world
                Hd) as [_ Hnull].
    exact (proj1 (Hnull _ Hnb)).
  - destruct (X14_flags_and_descriptor_checked_first 0 0 demo_recv_world Hd)
      as [_ Hnull].
    exact (proj2 (Hnull _ sample_flags_pass)).
Defined.

Lemma X15_setsockopt_passes_value_on_witness :
  let topic := [110; 101; 119; 115] in
  let late := set_rvs [NNG_ECLOSED] empty_world in
  setsockopt_switch NN_SUB NN_SUB_SUBSCRIBE = Some (NNG_OPT_SUBSCRIBE, false) /\
  nn_setsockopt 7 NN_SUB NN_SUB_SUBSCRIBE topic 4 empty_world
  = Some (0, logged (E_setopt 7 NNG_OPT_SUBSCRIBE topic 4 0)
               (answered empty_world)) /\
  nn_setsockopt 7 NN_SUB NN_SUB_SUBSCRIBE topic 4 late
  = Some (-1, set_errno EBADF
                (logged (E_setopt 7 NNG_OPT_SUBSCRIBE topic 4 NNG_ECLOSED)
                   (answered late))).
Proof.
  intros topic late.
  assert (setsockopt_switch NN_SUB NN_SUB_SUBSCRIBE
          = Some (NNG_OPT_SUBSCRIBE, false)) as Hsw by reflexivity.
  split; [exact Hsw|]. split.
  - destruct (X15_setsockopt_passes_value_on 7 NN_SUB NN_SUB_SUBSCRIBE
                NNG_OPT_SUBSCRIBE topic 4 empty_world Hsw) as [Hok _].
    exact (Hok eq_refl).
  - destruct (X15_setsockopt_passes_value_on 7 NN_SUB NN_SUB_SUBSCRIBE
                NNG_OPT_SUBSCRIBE topic 4 late Hsw) as [_ Hfail].
    destruct Hfail as (e & He & Hrun); [vm_compute; discriminate|].
    assert (e = EBADF) as <-; [|exact Hrun].
    vm_compute in He. by injection He.
Defined.

Lemma sample_survey_deadline_unlisted d :
  (NN_SURVEYOR, NN_SURVEY_DEADLINE, d) ∉ supported_options.
Proof.
  intros Hin. apply list_elem_of_In in Hin. vm_compute in Hin.
  repeat (destruct Hin as [Hin|Hin]; [discriminate Hin|]). exact Hin.
Defined.

Lemma X16_setsockopt_unsupported_witness :
  (forall d, (NN_SURVEYOR, NN_SURVEY_DEADLINE, d) ∉ supported_options) /\
  nn_setsockopt 7 NN_SURVEYOR NN_SURVEY_DEADLINE (le_bytes 4 1000) 4 empty_world
  = Some (-1, set_errno ENOPROTOOPT empty_world).
Proof.
  split; [exact sample_survey_deadline_unlisted|].
  exact (X16_setsockopt_unsupported 7 NN_SURVEYOR NN_SURVEY_DEADLINE
           (le_bytes 4 1000) 4 empty_world sample_survey_deadline_unlisted).
Defined.

Lemma X19_caller_returns_in_seven_steps_witness :
  ((1 < 2)%nat /\ (7 <= turns 1 (lockstep 2))%nat) /\
  WinThread.threads (WinThread.run (lockstep 2) (WinThread.start 2)) !! 1%nat
  = Some WinThread.Returned.
Proof.
  assert (1 < 2)%nat as Ht by lia.
  assert (7 <= turns 1 (lockstep 2))%nat as Hs by (vm_compute; lia).
  split; [exact (conj Ht Hs)|].
  exact (X19_caller_returns_in_seven_steps 2 (lockstep 2) 1 Ht Hs).
Defined.

Lemma X22_recv_dynamic_envelope_witness :
  let buf := Ptr (UserBlk 2) 0 in
  let w := demo_mixed_world in
  (flags_pass 0 0 /\
   user_buffer (w_mem w) {| iov_base := buf; iov_len := sizeof_ptr |} /\
   answer w = 0 /\ answer (answered w) = 0 /\ msg_len (arriving w) < 2 ^ 31) /\
  exists msg p w',
    nn_recv no_recv 0 buf NN_MSG 0 w = Some (6, w') /\
    w_heap w !! msg = None /\
    is_Some (w_heap w' !! msg) /\
    load_ptr buf w' = Some (p, w') /\
    load_handle (ptr_add p (- sizeof_ptr)) w' = Some (msg, w') /\
    load p 6 w' = Some (bytes_cells [1; 2; 3; 4; 5; 6], w') /\
    w_log w' = w_log w ++ [E_recvmsg 0 0 0; E_msg_prepend msg 0;
                           E_msg_trim msg sizeof_ptr] /\
    exists w2, nn_freemsg p w' = Some (0, w2) /\ w_heap w2 = w_heap w.
Proof.
  intros buf w.
  pose proof sample_flags_pass as Hf.
  assert (user_buffer (w_mem w) {| iov_base := buf; iov_len := sizeof_ptr |})
    as Hb by (vm_compute; repeat split; discriminate).
  assert (msg_len (arriving w) < 2 ^ 31) as Hl by (vm_compute; reflexivity).
  split; [exact (conj Hf (conj Hb (conj eq_refl (conj eq_refl Hl))))|].
  exact (X22_recv_dynamic_envelope no_recv 0 buf 0 0 w Hf Hb eq_refl eq_refl Hl).
Defined.

Lemma X23_send_adopts_envelope_witness :
  let buf := Ptr (BodyBlk 1) 8 in
  let w := demo_send_world [] in
  let late := demo_send_world [NNG_ETIMEDOUT] in
  (flags_pass 0 0 /\
   load_handle (ptr_add buf (- sizeof_ptr)) w = Some (1%positive, w) /\
   load_handle (ptr_add buf (- sizeof_ptr)) late = Some (1%positive, late) /\
   w_heap w !! 1%positive = Some demo_control_msg /\
   msg_len demo_control_msg < 2 ^ 31) /\
  nn_send no_send 0 buf NN_MSG 0 w
  = Some (3, set_heap ∅ (logged (E_sendmsg 0 1 0 0) (answered w))) /\
  (exists e,
     nn_send no_send 0 buf NN_MSG 0 late
     = Some (-1, set_errno e
                   (logged (E_sendmsg 0 1 0 NNG_ETIMEDOUT) (answered late)))).
Proof.
  intros buf w late.
  pose proof sample_flags_pass as Hf.
  assert (forall rvs,
            load_handle (ptr_add buf (- sizeof_ptr)) (demo_send_world rvs)
            = Some (1%positive, demo_send_world rvs)) as Hh
    by (intros rvs; reflexivity).
  assert (msg_len demo_control_msg < 2 ^ 31) as Hl by (vm_compute; reflexivity).
  split; [exact (conj Hf (conj (Hh _) (conj (Hh _) (conj eq_refl Hl))))|].
  split.
  - destruct (X23_send_adopts_envelope no_send 0 buf 0 0 1%positive
                demo_control_msg w Hf (Hh _) eq_refl Hl) as [Hok _].
    exact (Hok eq_refl).
  - destruct (X23_send_adopts_envelope no_send 0 buf 0 0 1%positive
                demo_control_msg late Hf (Hh _) eq_refl Hl) as [_ Hfail].
    apply Hfail. vm_compute. discriminate.
Defined.

Lemma X24_recv_then_send_forwards_witness :
  let buf := Ptr (UserBlk 2) 0 in
  let w := demo_mixed_world in
  (flags_pass 0 0 /\
   user_buffer (w_mem w) {| iov_base := buf; iov_len := sizeof_ptr |} /\
   answer w = 0 /\ answer (answered w) = 0 /\
   answer (answered (answered w)) = 0 /\ msg_len (arriving w) < 2 ^ 31) /\
  exists msg w',
    (n ← nn_recv no_recv 0 buf NN_MSG 0;
     p ← load_ptr buf;
     n' ← nn_send no_send 1 p NN_MSG 0;
     mret (n, n')) w
    = Some ((6, 6), w') /\
    w_heap w' = w_heap w /\
    w_log w' = w_log w ++ [E_recvmsg 0 0 0; E_msg_prepend msg 0;
                           E_msg_trim msg sizeof_ptr; E_sendmsg 1 msg 0 0].
Proof.
  intros buf w.
  pose proof sample_flags_pass as Hf.
  assert (user_buffer (w_mem w) {| iov_base := buf; iov_len := sizeof_ptr |})
    as Hb by (vm_compute; repeat split; discriminate).
  assert (msg_len (arriving w) < 2 ^ 31) as Hl by (vm_compute; reflexivity).
  split.
  { exact (conj Hf (conj Hb (conj eq_refl (conj eq_refl (conj eq_refl Hl))))). }
  exact (X24_recv_then_send_forwards no_send no_recv 0 1 buf 0 0 0 0 w Hf Hf Hb
           eq_refl eq_refl eq_refl Hl).
Defined.


Lemma X27_allocmsg_then_send_witness :
  (flags_pass 0 0 /\ 0 < 5 < 2 ^ 31 /\
   answer empty_world = 0 /\ answer (answered empty_world) = 0) /\
  exists msg w',
    (p ← nn_allocmsg 5 0; nn_send no_send 0 p NN_MSG 0) empty_world
    = Some (5, w') /\
    w_heap w' = w_heap empty_world /\
    w_log w' = w_log empty_world
               ++ [E_msg_alloc (5 + sizeof_ptr) 0;
                   E_msg_trim msg sizeof_ptr; E_sendmsg 0 msg 0 0].
Proof.
  pose proof sample_flags_pass as Hf.
  assert (0 < 5 < 2 ^ 31) as Hs by lia.
  split; [exact (conj Hf (conj Hs (conj eq_refl eq_refl)))|].
  exact (X27_allocmsg_then_send no_send 0 0 0 5 empty_world Hf Hs
           eq_refl eq_refl).
Defined.


End MoreSamples.
